(** * Negotiation agent: buyer and seller strategies and the negotiation loop

    A shallow embedding of [agent.py] and [negotiation_agent_[Codesisters].py].
    Python integers are [Z]; Python floats are IEEE-754 binary64 values,
    represented by [spec_float] with the operations of [SpecFloat] at
    precision 53 and maximal exponent 1024; a Python string is its UTF-8
    encoding; an exception raised by the Python code is [None] in the error
    monad [option]. *)

From Stdlib Require Import ZArith QArith Qpower Qround Lia Lqa Bool List String Ascii.
From Stdlib Require Import DecimalString.
From Stdlib Require Import Floats.SpecFloat.
Import ListNotations.
Open Scope Z_scope.

(** ** The error monad *)

Definition bind {A B : Type} (c : option A) (k : A -> option B) : option B :=
  match c with
  | Some a => k a
  | None => None
  end.

Notation "x <- c ;; k" := (bind c (fun x => k))
  (at level 61, c at next level, right associativity).
Notation "' p <- c ;; k" := (bind c (fun x => let 'p := x in k))
  (at level 61, p pattern, c at next level, right associativity).

(** ** Python numbers *)

Module Py.

Definition prec : Z := 53.
Definition emax : Z := 1024.

Definition fmul : spec_float -> spec_float -> spec_float := SFmul prec emax.
Definition fadd : spec_float -> spec_float -> spec_float := SFadd prec emax.
Definition fsub : spec_float -> spec_float -> spec_float := SFsub prec emax.
Definition fdiv : spec_float -> spec_float -> spec_float := SFdiv prec emax.

(** The binary64 value nearest to an integer (ties to even). *)
Definition of_Z (n : Z) : spec_float := binary_normalize prec emax n 0 false.

Definition is_finite (f : spec_float) : bool :=
  match f with
  | S754_zero _ | S754_finite _ _ _ => true
  | _ => false
  end.

(** Conversion of an [int] operand to [float]: OverflowError when the
    integer is too large. *)
Definition float_of_int (n : Z) : option spec_float :=
  let f := of_Z n in if is_finite f then Some f else None.

(** A decimal literal [n/d] with [n] and [d] exactly representable: the
    correctly rounded quotient is the double the literal denotes. *)
Definition decimal (n d : Z) : spec_float := fdiv (of_Z n) (of_Z d).

(** The exact rational value of a finite float. *)
Definition F2Q (f : spec_float) : Q :=
  match f with
  | S754_finite s m e => (inject_Z (cond_Zopp s (Zpos m)) * 2 ^ e)%Q
  | _ => 0%Q
  end.

(** Extended values, the domain in which Python compares numbers. *)
Inductive xval : Type :=
  | XNaN
  | XNegInf
  | XFin (q : Q)
  | XPosInf.

Definition xval_of_float (f : spec_float) : xval :=
  match f with
  | S754_nan => XNaN
  | S754_infinity s => if s then XNegInf else XPosInf
  | _ => XFin (F2Q f)
  end.

Definition Qltb (p q : Q) : bool :=
  match (p ?= q)%Q with
  | Lt => true
  | _ => false
  end.

Definition xlt (a b : xval) : bool :=
  match a, b with
  | XNaN, _ | _, XNaN => false
  | XNegInf, XNegInf => false
  | XNegInf, _ => true
  | _, XNegInf => false
  | XPosInf, _ => false
  | _, XPosInf => true
  | XFin p, XFin q => Qltb p q
  end.

Definition xle (a b : xval) : bool :=
  match a, b with
  | XNaN, _ | _, XNaN => false
  | XNegInf, _ => true
  | _, XNegInf => false
  | _, XPosInf => true
  | XPosInf, _ => false
  | XFin p, XFin q => Qle_bool p q
  end.

Definition not_nan (a : xval) : Prop := a <> XNaN.

(** A Python number: an [int] or a [float]. *)
Inductive num : Type :=
  | Int (z : Z)
  | Float (f : spec_float).

Definition xv (a : num) : xval :=
  match a with
  | Int z => XFin (inject_Z z)
  | Float f => xval_of_float f
  end.

(** Mixed comparisons are exact: neither operand is rounded. *)
Definition lt (a b : num) : bool := xlt (xv a) (xv b).
Definition gt (a b : num) : bool := xlt (xv b) (xv a).
Definition le (a b : num) : bool := xle (xv a) (xv b).
Definition ge (a b : num) : bool := xle (xv b) (xv a).

(** [max(a, b)] and [min(a, b)]: the first argument is kept unless the
    second is strictly greater (smaller). *)
Definition max2 (acc item : num) : num := if gt item acc then item else acc.
Definition min2 (acc item : num) : num := if lt item acc then item else acc.
Definition max3 (a b c : num) : num := max2 (max2 a b) c.

(** [int(x)] on a float truncates toward zero; it raises on infinities and
    NaN. *)
Definition trunc (q : Q) : Z :=
  if Qle_bool 0%Q q then Qfloor q else Qceiling q.

Definition int_of_float (f : spec_float) : option Z :=
  if is_finite f then Some (trunc (F2Q f)) else None.

Definition int (a : num) : option Z :=
  match a with
  | Int z => Some z
  | Float f => int_of_float f
  end.

(** [round(x)] on a float: the nearest integer, ties to even. *)
Definition round_half_even (q : Q) : Z :=
  let fl := Qfloor q in
  match (q - inject_Z fl ?= 1 # 2)%Q with
  | Lt => fl
  | Gt => fl + 1
  | Eq => if Z.even fl then fl else fl + 1
  end.

Definition round (f : spec_float) : option Z :=
  if is_finite f then Some (round_half_even (F2Q f)) else None.

(** [n * c] with [n] an int and [c] a float. *)
Definition mul_int_float (n : Z) (c : spec_float) : option spec_float :=
  x <- float_of_int n ;; Some (fmul x c).

(** [n + c] with [n] an int and [c] a float. *)
Definition add_int_float (n : Z) (c : spec_float) : option spec_float :=
  x <- float_of_int n ;; Some (fadd x c).

(** [n - c] with [n] an int and [c] a float. *)
Definition sub_int_float (n : Z) (c : spec_float) : option spec_float :=
  x <- float_of_int n ;; Some (fsub x c).

(** [c * n] with [c] a float and [n] an int. *)
Definition mul_float_int (c : spec_float) (n : Z) : option spec_float :=
  x <- float_of_int n ;; Some (fmul c x).

(** [int(n * c)] *)
Definition int_scaled (n : Z) (c : spec_float) : option Z :=
  x <- mul_int_float n c ;; int_of_float x.

(** [a / b] on ints: the correctly rounded quotient; ZeroDivisionError on a
    zero divisor, OverflowError when the quotient is too large. *)
Definition truediv (a b : Z) : option spec_float :=
  match a, b with
  | _, Z0 => None
  | Z0, _ => Some (S754_zero false)
  | _, _ =>
      let q := fdiv (S754_finite (a <? 0) (Z.to_pos (Z.abs a)) 0)
                    (S754_finite (b <? 0) (Z.to_pos (Z.abs b)) 0) in
      if is_finite q then Some q else None
  end.

(** The float literals of the source. *)
Definition f1_15 : spec_float := Eval vm_compute in decimal 115 100.
Definition f1_05 : spec_float := Eval vm_compute in decimal 105 100.
Definition f0_95 : spec_float := Eval vm_compute in decimal 95 100.
Definition f1_0 : spec_float := Eval vm_compute in decimal 10 10.
Definition f0_98 : spec_float := Eval vm_compute in decimal 98 100.
Definition f0_88 : spec_float := Eval vm_compute in decimal 88 100.
Definition f0_97 : spec_float := Eval vm_compute in decimal 97 100.
Definition f0_78 : spec_float := Eval vm_compute in decimal 78 100.
Definition f0_85 : spec_float := Eval vm_compute in decimal 85 100.
Definition f0_07 : spec_float := Eval vm_compute in decimal 7 100.
Definition f0_045 : spec_float := Eval vm_compute in decimal 45 1000.
Definition f0_03 : spec_float := Eval vm_compute in decimal 3 100.
Definition f0_90 : spec_float := Eval vm_compute in decimal 90 100.
Definition f0_92 : spec_float := Eval vm_compute in decimal 92 100.
Definition f0_015 : spec_float := Eval vm_compute in decimal 15 1000.
Definition f1_5 : spec_float := Eval vm_compute in decimal 15 10.
Definition f1_1 : spec_float := Eval vm_compute in decimal 11 10.
Definition f1_06 : spec_float := Eval vm_compute in decimal 106 100.
Definition f0_94 : spec_float := Eval vm_compute in decimal 94 100.
Definition f1_01 : spec_float := Eval vm_compute in decimal 101 100.
Definition f1_10 : spec_float := Eval vm_compute in decimal 110 100.
Definition f1_28 : spec_float := Eval vm_compute in decimal 128 100.
Definition f0_06 : spec_float := Eval vm_compute in decimal 6 100.
Definition f0_05 : spec_float := Eval vm_compute in decimal 5 100.
Definition f100 : spec_float := Eval vm_compute in of_Z 100.
Definition f0_6 : spec_float := Eval vm_compute in decimal 6 10.
Definition f0_80 : spec_float := Eval vm_compute in decimal 80 100.
Definition f0_12 : spec_float := Eval vm_compute in decimal 12 100.

(** *** Quantities of the rounding analysis *)

(** The exponent function of binary64: [fexp 53 1024]. *)
Definition fexp64 (e : Z) : Z := Z.max (e - 53) (-1074).

(** The right shift that rounding applies to the mantissa [M] at exponent
    [E]. *)
Definition shift_of (M : positive) (E : Z) : Z :=
  Z.max 0 (fexp64 (Zpos (digits2_pos M) + E) - E).

(** Whether a shifted mantissa has lost a non-zero bit. *)
Definition inexact (r : shr_record) : bool := shr_r r || shr_s r.

(** The magnitude of a finite float with mantissa [m] and exponent [e]. *)
Definition mag (m : positive) (e : Z) : Q := (inject_Z (Zpos m) * 2 ^ e)%Q.

(** The relative spacing of binary64 values, [2^-52]. *)
Definition eps : Q := 1 # 4503599627370496.

(** A positive constant that scales a price up beyond two rounding
    errors. *)
Definition growth (c : spec_float) : Prop :=
  exists mc ec, c = S754_finite false mc ec /\
                ((1 + eps) * (1 + eps) <= mag mc ec)%Q.

(** A float that is not negative; the sign bit of a zero does not count. *)
Definition nonneg_float (f : spec_float) : Prop :=
  match f with
  | S754_zero _ | S754_finite false _ _ | S754_infinity false => True
  | _ => False
  end.

Definition positive_finite (c : spec_float) : Prop :=
  exists m e, c = S754_finite false m e.

(** [v] is the greatest element of [l] in the order of Python's
    comparisons. *)
Definition is_maximum (v : num) (l : list num) : Prop :=
  In v l /\ forall x, In x l -> le x v = true.

End Py.

(** ** Strings: [str.lower] and [str.strip] *)

Module Str.

(** A [str] is modelled by its UTF-8 encoding, one [ascii] for each byte.

    [lower] lower-cases the ASCII letters. Of the other code points
    [str.lower] changes some, into code points outside ASCII, except for
    U+212A, which becomes k, and U+0130, which becomes i followed by U+0307.
    The program compares a lower-cased string only with the words export, a,
    b, colombia, ethiopia and yirgacheffe, which have no k and no code point
    outside ASCII: each of these comparisons has the result it has with
    [str.lower]. *)
Definition lower_ascii (c : ascii) : ascii :=
  let n := nat_of_ascii c in
  if andb (Nat.leb 65 n) (Nat.leb n 90) then ascii_of_nat (n + 32) else c.

Fixpoint lower (s : string) : string :=
  match s with
  | EmptyString => EmptyString
  | String c r => String (lower_ascii c) (lower r)
  end.

(** The code points for which [str.isspace] holds, which [str.strip]
    removes. Those of one byte: U+0009 to U+000D, U+001C to U+001F and
    U+0020. *)
Definition is_space (c : ascii) : bool :=
  let n := nat_of_ascii c in
  orb (andb (Nat.leb 9 n) (Nat.leb n 13))
      (orb (andb (Nat.leb 28 n) (Nat.leb n 31)) (Nat.eqb n 32)).

(** Those of two bytes: U+0085 (C2 85) and U+00A0 (C2 A0). *)
Definition is_space2 (a b : ascii) : bool :=
  Ascii.eqb a "194" && (Ascii.eqb b "133" || Ascii.eqb b "160").

(** Those of three bytes: U+1680 (E1 9A 80), U+2000 to U+200A (E2 80 80 to
    E2 80 8A), U+2028, U+2029 and U+202F (E2 80 A8, E2 80 A9, E2 80 AF),
    U+205F (E2 81 9F) and U+3000 (E3 80 80). There is none of four bytes. *)
Definition is_space3 (a b c : ascii) : bool :=
  (Ascii.eqb a "225" && (Ascii.eqb b "154" && Ascii.eqb c "128"))
  || (Ascii.eqb a "226" &&
      ((Ascii.eqb b "128" &&
        ((Nat.leb 128 (nat_of_ascii c) && Nat.leb (nat_of_ascii c) 138)
         || Ascii.eqb c "168" || Ascii.eqb c "169" || Ascii.eqb c "175"))
       || (Ascii.eqb b "129" && Ascii.eqb c "159")))
  || (Ascii.eqb a "227" && (Ascii.eqb b "128" && Ascii.eqb c "128")).

(** The string without the white space at its start, for tests [sp1], [sp2]
    and [sp3] of the code points of one, two and three bytes. *)
Fixpoint lstrip_by (sp1 : ascii -> bool) (sp2 : ascii -> ascii -> bool)
    (sp3 : ascii -> ascii -> ascii -> bool) (s : string) : string :=
  match s with
  | EmptyString => s
  | String a r1 =>
      if sp1 a then lstrip_by sp1 sp2 sp3 r1
      else
        match r1 with
        | EmptyString => s
        | String b r2 =>
            if sp2 a b then lstrip_by sp1 sp2 sp3 r2
            else
              match r2 with
              | EmptyString => s
              | String c r3 =>
                  if sp3 a b c then lstrip_by sp1 sp2 sp3 r3 else s
              end
        end
  end.

Definition lstrip (s : string) : string :=
  lstrip_by is_space is_space2 is_space3 s.

Fixpoint rev_onto (s acc : string) : string :=
  match s with
  | EmptyString => acc
  | String c r => rev_onto r (String c acc)
  end.

Definition rev (s : string) : string := rev_onto s EmptyString.

(** The string without the white space at its end: in the reversed string
    the bytes of a code point come last byte first. *)
Definition rstrip (s : string) : string :=
  rev (lstrip_by is_space (fun b a => is_space2 a b)
                 (fun c b a => is_space3 a b c) (rev s)).

Definition strip (s : string) : string := rstrip (lstrip s).

Definition mem (s : string) (l : list string) : bool :=
  existsb (String.eqb s) l.

End Str.

(** ** Data model *)

Record Product : Type := {
  name : string;
  category : string;
  quantity : Z;
  quality_grade : string;
  origin : string;
  base_market_price : Z;
  attributes : list (string * string)
}.

Inductive role : Type :=
  | RoleSeller
  | RoleBuyer.

(** A message is represented by the template that produced it and the price
    it quotes, for the seller strategy also the catch phrase it quotes;
    [MsgText] stands for the text of any other agent. *)
Inductive message : Type :=
  | MsgOpening (price : Z)
  | MsgAgreed (price : Z)
  | MsgCompelling (price : Z)
  | MsgAligned (price : Z)
  | MsgFairEnough (price : Z)
  | MsgFinalize (price : Z)
  | MsgMoveTo (price : Z)
  | MsgAsking (price : Z)
  | MsgDeal (price : Z)
  | MsgFinalOffer (price : Z)
  | MsgComeDown (price : Z)
  | MsgSellerOpening (phrase : string) (price : Z)
  | MsgSellerAgreed (price : Z) (phrase : string)
  | MsgSellerReasonable
  | MsgSellerImprove (price : Z) (phrase : string)
  | MsgText (text : string).

Record NegotiationContext : Type := {
  product : Product;
  your_budget : Z;
  current_round : Z;
  seller_offers : list Z;
  your_offers : list Z;
  messages : list (role * message)
}.

Inductive DealStatus : Type :=
  | ONGOING
  | ACCEPTED
  | REJECTED
  | TIMEOUT.

Definition DealStatus_eqb (a b : DealStatus) : bool :=
  match a, b with
  | ONGOING, ONGOING | ACCEPTED, ACCEPTED
  | REJECTED, REJECTED | TIMEOUT, TIMEOUT => true
  | _, _ => false
  end.

(** The abstract base class of buyer agents: its two decision methods. *)
Record BaseBuyerAgent : Type := {
  generate_opening_offer : NegotiationContext -> option (Z * message);
  respond_to_seller_offer :
    NegotiationContext -> Z -> message -> option (DealStatus * Z * message)
}.

(** [xs[-1]] on a non-empty list. *)
Definition last_item (xs : list Z) : option Z :=
  match xs with
  | [] => None
  | x :: r => Some (last r x)
  end.

(** ** The buyer strategy, [YourBuyerAgent] *)

Module YourBuyerAgent.

Definition _quality_multiplier (p : Product) : spec_float :=
  let q := Str.lower (Str.strip (quality_grade p)) in
  if String.eqb q "export" then Py.f1_15
  else if String.eqb q "a" then Py.f1_05
  else if String.eqb q "b" then Py.f0_95
  else Py.f1_0.

Definition bonus_origins : list string :=
  ["colombia"; "ethiopia"; "yirgacheffe"]%string.

Definition origin_factor (p : Product) : spec_float :=
  if Str.mem (Str.lower (origin p)) bonus_origins then Py.f1_05 else Py.f1_0.

Definition volume_factor (p : Product) : spec_float :=
  if 200 <=? quantity p then Py.f0_98 else Py.f1_0.

Definition calculate_fair_price (p : Product) : option Z :=
  let quality_factor := _quality_multiplier p in
  x <- Py.mul_int_float (base_market_price p) quality_factor ;;
  Py.round (Py.fmul (Py.fmul x (origin_factor p)) (volume_factor p)).

Definition target_zone (p : Product) : option (Z * Z) :=
  fair <- calculate_fair_price p ;;
  low <- Py.int_scaled fair Py.f0_88 ;;
  high <- Py.int_scaled fair Py.f0_97 ;;
  Some (low, high).

Definition generate_opening_offer (context : NegotiationContext)
  : option (Z * message) :=
  fair <- calculate_fair_price (product context) ;;
  opening_price <- Py.int_scaled fair Py.f0_78 ;;
  let opening_price := Z.min opening_price (your_budget context) in
  Some (opening_price, MsgOpening opening_price).

Definition concession_step (rounds_left : Z) : spec_float :=
  if 6 <=? rounds_left then Py.f0_07
  else if 3 <=? rounds_left then Py.f0_045
  else Py.f0_03.

(** The counter computation: lines 231 to 252 of [agent.py]; returns the last
    offer and the proposal. *)
Definition propose (context : NegotiationContext) (fair seller_price : Z)
  : option (Z * Z) :=
  let budget := your_budget context in
  last_offer <- match last_item (your_offers context) with
                | Some o => Some o
                | None => Py.int_scaled fair Py.f0_78
                end ;;
  let rounds_left := 10 - current_round context in
  let step := concession_step rounds_left in
  let target_point := Z.min seller_price budget in
  midpoint <- Py.truediv (last_offer + target_point) 2 ;;
  factor <- Py.add_int_float 1 step ;;
  stepped <- Py.mul_int_float last_offer factor ;;
  proposed <- Py.int (Py.min2 (Py.Int budget)
                (Py.max3 (Py.Int last_offer) (Py.Float stepped)
                         (Py.Float (Py.fmul midpoint Py.f0_97)))) ;;
  if 9 <=? current_round context then
    floor90 <- Py.int_scaled fair Py.f0_90 ;;
    Some (last_offer, Z.min budget (Z.max proposed floor90))
  else
    cap92 <- Py.int_scaled fair Py.f0_92 ;;
    Some (last_offer, Z.min proposed (Z.max cap92 last_offer)).

Definition respond_to_seller_offer (context : NegotiationContext)
    (seller_price : Z) (seller_message : message)
  : option (DealStatus * Z * message) :=
  let budget := your_budget context in
  fair <- calculate_fair_price (product context) ;;
  '(low, high) <- target_zone (product context) ;;
  if (seller_price <=? budget) && (low <=? seller_price)
     && (seller_price <=? high)
  then Some (ACCEPTED, seller_price, MsgAgreed seller_price)
  else
    snap <- (if seller_price <=? budget
             then t <- Py.int_scaled fair Py.f0_85 ;; Some (seller_price <=? t)
             else Some false) ;;
    if snap : bool
    then Some (ACCEPTED, seller_price, MsgCompelling seller_price)
    else
      '(last_offer, proposed) <- propose context fair seller_price ;;
      aligned <- (if seller_price <=? budget
                  then tol <- (x <- Py.mul_float_int Py.f0_015 fair ;;
                               Py.int_of_float x) ;;
                       Some (Z.abs (seller_price - proposed) <=? tol)
                  else Some false) ;;
      if aligned : bool
      then Some (ACCEPTED, seller_price, MsgAligned seller_price)
      else if seller_price <=? Z.min budget proposed
      then Some (ACCEPTED, seller_price, MsgFairEnough seller_price)
      else
        let counter_offer := Z.min proposed budget in
        let message :=
          if 9 <=? current_round context
          then MsgFinalize counter_offer
          else MsgMoveTo counter_offer in
        Some (ONGOING, counter_offer, message).

End YourBuyerAgent.

Definition your_buyer_agent : BaseBuyerAgent := {|
  generate_opening_offer := YourBuyerAgent.generate_opening_offer;
  respond_to_seller_offer := YourBuyerAgent.respond_to_seller_offer
|}.

(** ** The mock seller and the negotiation loop *)

Module MockSellerAgent.

Definition get_opening_price (p : Product) : option (Z * message) :=
  price <- Py.int_scaled (base_market_price p) Py.f1_5 ;;
  Some (price, MsgAsking price).

Definition respond_to_buyer (min_price buyer_offer round_num : Z)
  : option (Z * message * bool) :=
  threshold <- Py.mul_int_float min_price Py.f1_1 ;;
  if Py.ge (Py.Int buyer_offer) (Py.Float threshold)
  then Some (buyer_offer, MsgDeal buyer_offer, true)
  else if 8 <=? round_num then
    raised <- Py.int_scaled buyer_offer Py.f1_05 ;;
    let counter := Z.max min_price raised in
    Some (counter, MsgFinalOffer counter, false)
  else
    raised <- Py.int_scaled buyer_offer Py.f1_15 ;;
    let counter := Z.max min_price raised in
    Some (counter, MsgComeDown counter, false).

End MockSellerAgent.

Definition set_round (c : NegotiationContext) (r : Z) : NegotiationContext :=
  {| product := product c; your_budget := your_budget c; current_round := r;
     seller_offers := seller_offers c; your_offers := your_offers c;
     messages := messages c |}.

Definition append_seller_offer (c : NegotiationContext) (o : Z)
  : NegotiationContext :=
  {| product := product c; your_budget := your_budget c;
     current_round := current_round c;
     seller_offers := seller_offers c ++ [o]; your_offers := your_offers c;
     messages := messages c |}.

Definition append_your_offer (c : NegotiationContext) (o : Z)
  : NegotiationContext :=
  {| product := product c; your_budget := your_budget c;
     current_round := current_round c;
     seller_offers := seller_offers c; your_offers := your_offers c ++ [o];
     messages := messages c |}.

Definition append_message (c : NegotiationContext) (r : role) (m : message)
  : NegotiationContext :=
  {| product := product c; your_budget := your_budget c;
     current_round := current_round c;
     seller_offers := seller_offers c; your_offers := your_offers c;
     messages := messages c ++ [(r, m)] |}.

(** The variables the loop of [run_negotiation_test] updates. *)
Record loop_state : Type := {
  ls_context : NegotiationContext;
  ls_seller_price : Z;
  ls_seller_msg : message;
  ls_deal_made : bool;
  ls_final_price : option Z
}.

(** How an iteration ends: by falling through to the next one or by
    [break]. *)
Inductive flow : Type :=
  | Next
  | Break.

Section NegotiationLoop.

Variable buyer_agent : BaseBuyerAgent.
Variable seller_min : Z.

(** The buyer's call of one iteration, on the context whose round number has
    just been set. *)
Definition buyer_turn (round_num : Z) (context : NegotiationContext)
    (seller_price : Z) (seller_msg : message)
  : option (DealStatus * Z * message) :=
  if round_num =? 0 then
    '(buyer_offer, buyer_msg) <- generate_opening_offer buyer_agent context ;;
    Some (ONGOING, buyer_offer, buyer_msg)
  else respond_to_seller_offer buyer_agent context seller_price seller_msg.

(** The body of [for round_num in range(10)]. *)
Definition round_body (round_num : Z) (s : loop_state)
  : option (loop_state * flow) :=
  let context := set_round (ls_context s) (round_num + 1) in
  '(status, buyer_offer, buyer_msg) <-
     buyer_turn round_num context (ls_seller_price s) (ls_seller_msg s) ;;
  let context :=
    append_message (append_your_offer context buyer_offer)
                   RoleBuyer buyer_msg in
  if DealStatus_eqb status ACCEPTED then
    Some ({| ls_context := context; ls_seller_price := ls_seller_price s;
             ls_seller_msg := ls_seller_msg s; ls_deal_made := true;
             ls_final_price := Some (ls_seller_price s) |}, Break)
  else
    '(seller_price, seller_msg, seller_accepts) <-
       MockSellerAgent.respond_to_buyer seller_min buyer_offer round_num ;;
    if seller_accepts : bool then
      Some ({| ls_context := append_message context RoleSeller seller_msg;
               ls_seller_price := seller_price; ls_seller_msg := seller_msg;
               ls_deal_made := true; ls_final_price := Some buyer_offer |},
            Break)
    else
      Some ({| ls_context :=
                 append_message (append_seller_offer context seller_price)
                                RoleSeller seller_msg;
               ls_seller_price := seller_price; ls_seller_msg := seller_msg;
               ls_deal_made := ls_deal_made s;
               ls_final_price := ls_final_price s |}, Next).

Fixpoint for_rounds (rounds : list Z) (s : loop_state) : option loop_state :=
  match rounds with
  | [] => Some s
  | round_num :: rest =>
      '(s', f) <- round_body round_num s ;;
      match f with
      | Break => Some s'
      | Next => for_rounds rest s'
      end
  end.

Definition range (n : nat) : list Z := map Z.of_nat (seq 0 n).

(** The state in which the loop starts: the seller has opened. *)
Definition initial_state (p : Product) (buyer_budget : Z)
  : option loop_state :=
  let context :=
    {| product := p; your_budget := buyer_budget; current_round := 0;
       seller_offers := []; your_offers := []; messages := [] |} in
  '(seller_price, seller_msg) <- MockSellerAgent.get_opening_price p ;;
  Some {| ls_context :=
            append_message (append_seller_offer context seller_price)
                           RoleSeller seller_msg;
          ls_seller_price := seller_price; ls_seller_msg := seller_msg;
          ls_deal_made := false; ls_final_price := None |}.

(** The loop of [run_negotiation_test], up to the computation of the
    result. *)
Definition negotiation_loop (p : Product) (buyer_budget : Z)
  : option loop_state :=
  s <- initial_state p buyer_budget ;; for_rounds (range 10) s.

Record negotiation_result : Type := {
  deal_made : bool;
  final_price : option Z;
  rounds : Z;
  savings : Z;
  savings_pct : Py.num;
  below_market_pct : Py.num;
  conversation : list (role * message)
}.

(** [(a / b * 100)] *)
Definition percent (a b : Z) : option Py.num :=
  q <- Py.truediv a b ;;
  r <- Py.mul_float_int q 100 ;;
  Some (Py.Float r).

Definition make_result (p : Product) (buyer_budget : Z) (s : loop_state)
  : option negotiation_result :=
  if ls_deal_made s then
    fp <- ls_final_price s ;;
    sp <- percent (buyer_budget - fp) buyer_budget ;;
    bp <- percent (base_market_price p - fp) (base_market_price p) ;;
    Some {| deal_made := true; final_price := Some fp;
            rounds := current_round (ls_context s);
            savings := buyer_budget - fp; savings_pct := sp;
            below_market_pct := bp;
            conversation := messages (ls_context s) |}
  else
    Some {| deal_made := false; final_price := ls_final_price s;
            rounds := current_round (ls_context s);
            savings := 0; savings_pct := Py.Int 0;
            below_market_pct := Py.Int 0;
            conversation := messages (ls_context s) |}.

Definition run_negotiation_test (p : Product) (buyer_budget : Z)
  : option negotiation_result :=
  s <- negotiation_loop p buyer_budget ;; make_result p buyer_budget s.

End NegotiationLoop.

(** ** The seller strategy, [YourSellerAgent] *)

(** The dictionary that [define_personality] returns. *)
Record Personality : Type := {
  personality_type : string;
  traits : list string;
  negotiation_style : string;
  catchphrases : list string
}.

(** The attributes of a seller agent. [BaseSellerAgent] sets them in a
    method named [_init_], which no constructor call runs: after
    [YourSellerAgent()] neither attribute exists, and [YourSellerAgent(name)]
    raises. An attribute that does not exist is [None]. *)
Record SellerAgent : Type := {
  seller_name : option string;
  personality : option Personality
}.

Module YourSellerAgent.

Definition define_personality : Personality :=
  {| personality_type := "diplomatic";
     traits := ["collaborative"; "transparent"; "calm"; "principled";
                "win-win"]%string;
     negotiation_style :=
       "Opens high with rationale, reciprocates genuine moves, seeks stable partnerships.";
     catchphrases :=
       ["Let's align on value and quality.";
        "I prioritize repeat business over one-off wins.";
        "We can bridge this thoughtfully."]%string |}.

(** [YourSellerAgent()]: the agent as the constructor leaves it. *)
Definition constructed : SellerAgent :=
  {| seller_name := None; personality := None |}.

(** The agent after the assignments of [_init_] have been made by hand. *)
Definition initialised (name : string) : SellerAgent :=
  {| seller_name := Some name; personality := Some define_personality |}.

(** [self.personality['catchphrases'][i]]: AttributeError without the
    attribute, IndexError beyond the list. *)
Definition catchphrase (self : SellerAgent) (i : nat) : option string :=
  d <- personality self ;; nth_error (catchphrases d) i.

Definition _quality_multiplier (p : Product) : spec_float :=
  let q := Str.lower (Str.strip (quality_grade p)) in
  if String.eqb q "export" then Py.f1_15
  else if String.eqb q "a" then Py.f1_06
  else if String.eqb q "b" then Py.f0_94
  else Py.f1_0.

Definition fair_price (p : Product) : option Z :=
  let qf := _quality_multiplier p in
  let logistics := Py.f1_01 in
  x <- Py.mul_int_float (base_market_price p) qf ;;
  Py.round (Py.fmul (Py.fmul x (YourBuyerAgent.origin_factor p)) logistics).

Definition seller_zone (p : Product) : option (Z * Z) :=
  fair <- fair_price p ;;
  low <- Py.int_scaled fair Py.f1_0 ;;
  high <- Py.int_scaled fair Py.f1_10 ;;
  Some (low, high).

Definition generate_opening_price (self : SellerAgent) (p : Product)
  : option (Z * message) :=
  fair <- fair_price p ;;
  opening <- Py.int_scaled fair Py.f1_28 ;;
  phrase <- catchphrase self 0 ;;
  Some (opening, MsgSellerOpening phrase opening).

Definition step_down (rounds_left : Z) : spec_float :=
  if 6 <=? rounds_left then Py.f0_07
  else if 3 <=? rounds_left then Py.f0_05
  else Py.f0_03.

Definition respond_to_buyer_offer (self : SellerAgent) (p : Product)
    (buyer_offer round_num : Z)
  : option (string * Z * message) :=
  fair <- fair_price p ;;
  '(low, high) <- seller_zone p ;;
  if (low <=? buyer_offer) && (buyer_offer <=? high)
  then
    phrase <- catchphrase self 1 ;;
    Some ("accepted"%string, buyer_offer, MsgSellerAgreed buyer_offer phrase)
  else
    t98 <- Py.int_scaled fair Py.f0_98 ;;
    if t98 <=? buyer_offer
    then Some ("accepted"%string, buyer_offer, MsgSellerReasonable)
    else
      let rounds_left := 10 - (round_num + 1) in
      let step := step_down rounds_left in
      ask <- (if round_num =? 0 then Py.int_scaled fair Py.f1_28
              else
                decay <- Py.mul_float_int Py.f0_06 (Z.min round_num 4) ;;
                Py.int_scaled fair (Py.fsub Py.f1_28 decay)) ;;
      t90 <- Py.int_scaled fair Py.f0_90 ;;
      midpoint <- Py.truediv (ask + Z.max buyer_offer t90) 2 ;;
      floor <- Py.mul_int_float fair (Py.fadd Py.f1_0 step) ;;
      counter <- Py.int (Py.max2 (Py.Float midpoint) (Py.Float floor)) ;;
      let counter := if 8 <=? round_num then Z.max counter fair else counter in
      phrase <- catchphrase self 2 ;;
      Some ("ongoing"%string, counter, MsgSellerImprove counter phrase).

End YourSellerAgent.

(** ** Test data of the repository *)

(** The first product of [test_your_agent]. *)
Definition alphonso : Product :=
  {| name := "Alphonso Mangoes"; category := "Mangoes"; quantity := 100;
     quality_grade := "A"; origin := "Ratnagiri"; base_market_price := 180000;
     attributes := [("ripeness", "optimal"); ("export_grade", "True")]%string |}.

(** A lot of which only the priced attributes are given. *)
Definition lot (grade place : string) (base qty : Z) : Product :=
  {| name := "lot"; category := "produce"; quantity := qty;
     quality_grade := grade; origin := place; base_market_price := base;
     attributes := [] |}.

Definition context_at (p : Product) (budget round : Z) (sellers yours : list Z)
  : NegotiationContext :=
  {| product := p; your_budget := budget; current_round := round;
     seller_offers := sellers; your_offers := yours; messages := [] |}.

(** ** Properties of runs *)

Fixpoint non_decreasing (l : list Z) : Prop :=
  match l with
  | [] => True
  | x :: r =>
      match r with
      | [] => True
      | y :: _ => x <= y /\ non_decreasing r
      end
  end.

(** What holds of the loop state before iteration [k] when the buyer is
    [YourBuyerAgent]. *)
Definition loop_inv (budget : Z) (k : nat) (s : loop_state) : Prop :=
  your_budget (ls_context s) = budget /\
  List.length (your_offers (ls_context s)) = k /\
  non_decreasing (your_offers (ls_context s)) /\
  forall l, last_item (your_offers (ls_context s)) = Some l ->
            l <= budget /\ l <= ls_seller_price s.

(** An acceptance in iteration [round_num] from state [s]: the buyer returns
    ACCEPTED, or the seller accepts the buyer's offer. *)
Definition turn_accepts (buyer_agent : BaseBuyerAgent)
    (seller_min round_num : Z) (s : loop_state) : Prop :=
  exists status buyer_offer buyer_msg,
    buyer_turn buyer_agent round_num
               (set_round (ls_context s) (round_num + 1))
               (ls_seller_price s) (ls_seller_msg s)
      = Some (status, buyer_offer, buyer_msg) /\
    (status = ACCEPTED \/
     exists counter msg,
       MockSellerAgent.respond_to_buyer seller_min buyer_offer round_num
         = Some (counter, msg, true)).

(** A buyer agent whose two methods always return, with offers of magnitude
    at most [2^1000]. *)
Definition returning_agent (agent : BaseBuyerAgent) : Prop :=
  (forall context, exists offer msg,
      generate_opening_offer agent context = Some (offer, msg) /\
      Z.abs offer <= 2 ^ 1000) /\
  (forall context seller_price seller_message, exists status offer msg,
      respond_to_seller_offer agent context seller_price seller_message
        = Some (status, offer, msg) /\
      Z.abs offer <= 2 ^ 1000).

(** A buyer agent that offers the same price in every turn and never
    accepts. *)
Definition fixed_offer_agent (offer : Z) : BaseBuyerAgent :=
  {| generate_opening_offer := fun _ => Some (offer, MsgOpening offer);
     respond_to_seller_offer := fun _ _ _ =>
       Some (ONGOING, offer, MsgMoveTo offer) |}.

(** A buyer agent that raises unless its opening call sees round [r0]. *)
Definition requiring_round (r0 : Z) (agent : BaseBuyerAgent)
  : BaseBuyerAgent :=
  {| generate_opening_offer := fun c =>
       if current_round c =? r0 then generate_opening_offer agent c
       else None;
     respond_to_seller_offer := respond_to_seller_offer agent |}.

(** A buyer agent that raises unless its opening call sees round 1 and its
    k-th call sees round k, at most 10. *)
Definition counting_rounds (agent : BaseBuyerAgent) : BaseBuyerAgent :=
  {| generate_opening_offer := fun c =>
       if current_round c =? 1 then generate_opening_offer agent c else None;
     respond_to_seller_offer := fun c seller_price seller_message =>
       if (current_round c =? Z.of_nat (List.length (your_offers c)) + 1)
          && (current_round c <=? 10)
       then respond_to_seller_offer agent c seller_price seller_message
       else None |}.

(** ** The claims that the code does not satisfy, as the specification
    states them *)

(** The fair price with the quality factor looked up by [qf]. *)
Definition fair_price_with (qf : string -> spec_float) (p : Product)
  : option Z :=
  let origin_factor :=
    if Str.mem (Str.lower (origin p))
               ["colombia"; "ethiopia"; "yirgacheffe"]%string
    then Py.f1_05 else Py.f1_0 in
  let volume_factor := if quantity p >=? 200 then Py.f0_98 else Py.f1_0 in
  x <- Py.mul_int_float (base_market_price p) (qf (quality_grade p)) ;;
  Py.round (Py.fmul (Py.fmul x origin_factor) volume_factor).

(** The quality factor of the grade as it is written: 1.15 for Export, 1.05
    for A, 0.95 for B, 1.0 for any other grade. *)
Definition quality_factor_as_stated (grade : string) : spec_float :=
  if String.eqb grade "Export" then Py.f1_15
  else if String.eqb grade "A" then Py.f1_05
  else if String.eqb grade "B" then Py.f0_95
  else Py.f1_0.

Definition fair_price_formula_as_stated : Prop :=
  forall p,
    YourBuyerAgent.calculate_fair_price p
    = fair_price_with quality_factor_as_stated p.

(** The quality factor of the grade after [strip] and [lower]. *)
Definition normalised_quality_factor (grade : string) : spec_float :=
  let g := Str.lower (Str.strip grade) in
  if String.eqb g "export" then Py.f1_15
  else if String.eqb g "a" then Py.f1_05
  else if String.eqb g "b" then Py.f0_95
  else Py.f1_0.


(** The opening-offer call sees round 0: enforcing that precondition changes
    no run. *)
Definition opening_round_zero_as_stated : Prop :=
  forall agent seller_min p buyer_budget,
    negotiation_loop (requiring_round 0 agent) seller_min p buyer_budget
    = negotiation_loop agent seller_min p buyer_budget.

(** Before round 8 the returned ask is at least fair * (1 + step_down), for
    every seller agent. *)
Definition seller_floor_as_stated : Prop :=
  forall self p buyer_offer round_num counter msg fair floor,
    0 < base_market_price p ->
    YourSellerAgent.fair_price p = Some fair ->
    YourSellerAgent.respond_to_buyer_offer self p buyer_offer round_num
      = Some ("ongoing"%string, counter, msg) ->
    round_num < 8 ->
    Py.mul_int_float fair
      (Py.fadd Py.f1_0 (YourSellerAgent.step_down (10 - (round_num + 1))))
      = Some floor ->
    fair <= counter /\ Py.le (Py.Float floor) (Py.Int counter) = true.

(** * Ranges of binary64 values used to show that the arithmetic is defined *)

(** The largest finite binary64 value. *)
Definition max_float : Z := (2 ^ 53 - 1) * 2 ^ 971.

(** A zero or a finite float in canonical range. *)
Definition bounded_float (x : spec_float) : Prop :=
  match x with
  | S754_zero _ => True
  | S754_finite _ m e => Zpos m < 2 ^ 53 /\ e <= 971
  | _ => False
  end.

(** A constant of magnitude at most one and with no positive exponent:
    multiplying by it cannot overflow. *)
Definition shrinking (c : spec_float) : Prop :=
  match c with
  | S754_zero _ => True
  | S754_finite _ m e => e <= 0 /\ (Py.mag m e <= 1)%Q
  | _ => False
  end.

(** The magnitude of a float, zero for a zero. *)
Definition fmag (f : spec_float) : Q :=
  match f with
  | S754_finite _ m e => Py.mag m e
  | _ => 0%Q
  end.

(** A positive constant between one half and two, with no positive
    exponent. *)
Definition moderate (c : spec_float) : Prop :=
  exists mc ec, c = S754_finite false mc ec /\ ec <= 0 /\
                (1 # 2 <= Py.mag mc ec <= 2)%Q.

(** A non-zero bounded float whose magnitude lies between [2^a] and
    [2^b]. *)
Definition within (a b : Z) (x : spec_float) : Prop :=
  exists s m e, x = S754_finite s m e /\ Zpos m < 2 ^ 53 /\ e <= 971 /\
                (2 ^ a <= Py.mag m e <= 2 ^ b)%Q.

(** * Further code of the repository *)

(** ** Prices in message texts

    A Python [str] is represented by its UTF-8 encoding. *)

Module Fmt.

(** [f"{n}"] *)
Definition plain (n : Z) : string := NilZero.string_of_int (Z.to_int n).

(** The digits of a number, last digit first, with a comma after every third
    digit that is followed by another one. *)
Fixpoint group_thousands (digits : list ascii) (k : nat) : list ascii :=
  match digits with
  | [] => []
  | c :: r =>
      match k, r with
      | 2%nat, _ :: _ => c :: ","%char :: group_thousands r 0
      | _, _ => c :: group_thousands r (S k)
      end
  end.

(** [f"{n:,}"] *)
Definition commas (n : Z) : string :=
  let digits := list_ascii_of_string (plain (Z.abs n)) in
  let grouped := string_of_list_ascii
                   (List.rev (group_thousands (List.rev digits) 0)) in
  if n <? 0 then String "-" grouped else grouped.

End Fmt.

(** ** The optional hook of [YourBuyerAgent] *)

(** The dictionary that [analyze_negotiation_progress] returns, as a
    record. *)
Record progress : Type := {
  progress_round : Z;
  last_seller : option Z;
  last_buyer : option Z
}.

Definition analyze_negotiation_progress (context : NegotiationContext)
  : progress :=
  {| progress_round := current_round context;
     last_seller := last_item (seller_offers context);
     last_buyer := last_item (your_offers context) |}.

(** ** The reference agent, [ExampleSimpleAgent] *)

Module ExampleSimpleAgent.

Definition generate_opening_offer (context : NegotiationContext)
  : option (Z * message) :=
  opening <- Py.int_scaled (base_market_price (product context)) Py.f0_6 ;;
  let opening := Z.min opening (your_budget context) in
  Some (opening,
        MsgText ("I'm interested, but ₹" ++ Fmt.plain opening
                 ++ " is what I can offer. Let me think about that...")).

Definition respond_to_seller_offer (context : NegotiationContext)
    (seller_price : Z) (seller_message : message)
  : option (DealStatus * Z * message) :=
  accept <- (if seller_price <=? your_budget context
             then limit <- Py.mul_int_float
                             (base_market_price (product context)) Py.f0_85 ;;
                  Some (Py.le (Py.Int seller_price) (Py.Float limit))
             else Some false) ;;
  if accept : bool
  then Some (ACCEPTED, seller_price,
             MsgText ("Alright, ₹" ++ Fmt.plain seller_price
                      ++ " works for me!"))
  else
    let last_offer := match last_item (your_offers context) with
                      | Some l => l
                      | None => 0
                      end in
    raised <- Py.int_scaled last_offer Py.f1_1 ;;
    let counter := Z.min raised (your_budget context) in
    near <- Py.mul_int_float seller_price Py.f0_95 ;;
    if Py.ge (Py.Int counter) (Py.Float near)
    then
      let counter := Z.min (seller_price - 1000) (your_budget context) in
      Some (ONGOING, counter,
            MsgText ("That's a bit steep for me. How about ₹"
                     ++ Fmt.plain counter ++ "?"))
    else
      Some (ONGOING, counter,
            MsgText ("I can go up to ₹" ++ Fmt.plain counter
                     ++ ", but that's pushing my budget.")).

End ExampleSimpleAgent.

Definition example_simple_agent : BaseBuyerAgent := {|
  generate_opening_offer := ExampleSimpleAgent.generate_opening_offer;
  respond_to_seller_offer := ExampleSimpleAgent.respond_to_seller_offer
|}.

(** ** The mock buyer of the seller tests, [MockBuyerForSeller]

    The methods read [self.budget]; it is the first argument here. *)

Module MockBuyerForSeller.

Definition get_opening_offer (budget : Z) (p : Product) : option (Z * message) :=
  opening <- Py.int_scaled (base_market_price p) Py.f0_80 ;;
  let opening := Z.min opening budget in
  Some (opening,
        MsgText ("I'm opening at ₹" ++ Fmt.commas opening
                 ++ " based on market checks.")).

Definition bump (round_num : Z) : spec_float :=
  if 8 <=? round_num then Py.f0_05 else Py.f0_07.

Definition respond_to_seller (budget seller_price round_num : Z) (p : Product)
  : option (Z * message * bool) :=
  accept <- (if seller_price <=? budget
             then t95 <- Py.int_scaled (base_market_price p) Py.f0_95 ;;
                  Some (seller_price <=? t95)
             else Some false) ;;
  if accept : bool
  then Some (seller_price, MsgText "Accepted. Let's proceed.", true)
  else
    margin <- Py.sub_int_float 1 Py.f0_12 ;;
    discounted <- Py.mul_int_float seller_price margin ;;
    anchor <- Py.mul_int_float (base_market_price p) Py.f0_90 ;;
    start <- Py.int (Py.max2 (Py.Float discounted) (Py.Float anchor)) ;;
    let counter := Z.min start budget in
    factor <- Py.add_int_float 1 (bump round_num) ;;
    raised <- Py.int_scaled counter factor ;;
    let counter := Z.min raised budget in
    Some (counter,
          MsgText ("I can move to ₹" ++ Fmt.commas counter
                   ++ ". Can you meet me closer?"),
          false).

End MockBuyerForSeller.

(** ** Further properties of runs *)

Definition other_role (r : role) : role :=
  match r with
  | RoleSeller => RoleBuyer
  | RoleBuyer => RoleSeller
  end.

(** The roles of a conversation alternate, starting with [r]. *)
Fixpoint alternating (r : role) (l : list (role * message)) : Prop :=
  match l with
  | [] => True
  | (r', _) :: rest => r' = r /\ alternating (other_role r) rest
  end.

(** A buyer agent that raises unless the history it is given is the one the
    loop has produced so far: as many buyer offers as rounds completed, one
    seller offer more, and, in [respond_to_seller_offer], the price it
    answers as the last seller offer. *)
Definition checking_history (agent : BaseBuyerAgent) : BaseBuyerAgent :=
  {| generate_opening_offer := fun c =>
       match your_offers c, seller_offers c with
       | [], [_] => generate_opening_offer agent c
       | _, _ => None
       end;
     respond_to_seller_offer := fun c seller_price seller_message =>
       if (Z.of_nat (List.length (your_offers c)) + 1 =? current_round c)
          && (List.length (seller_offers c)
              =? S (List.length (your_offers c)))%nat
          && match last_seller (analyze_negotiation_progress c) with
             | Some l => l =? seller_price
             | None => false
             end
       then respond_to_seller_offer agent c seller_price seller_message
       else None |}.

(** What holds of the loop state before iteration [k], for any buyer
    agent: no deal yet, [k] buyer offers and one seller offer more, of which
    the last is the price the buyer answers next; after the first iteration
    that price is at least the seller's minimum. *)
Definition history_inv (seller_min : Z) (k : nat) (s : loop_state) : Prop :=
  List.length (your_offers (ls_context s)) = k /\
  List.length (seller_offers (ls_context s)) = S k /\
  last_item (seller_offers (ls_context s)) = Some (ls_seller_price s) /\
  ((1 <= k)%nat -> seller_min <= ls_seller_price s) /\
  alternating RoleSeller (messages (ls_context s)) /\
  List.length (messages (ls_context s)) = S (2 * k) /\
  ls_deal_made s = false /\ ls_final_price s = None.

(** What holds of the loop state after an iteration [k] that ends the
    negotiation with a deal. *)
Definition deal_post (seller_min : Z) (k : nat) (s : loop_state) : Prop :=
  List.length (your_offers (ls_context s)) = S k /\
  List.length (seller_offers (ls_context s)) = S k /\
  alternating RoleSeller (messages (ls_context s)) /\
  ls_deal_made s = true /\
  exists fp, ls_final_price s = Some fp /\
    ((1 <= k)%nat /\ last_item (seller_offers (ls_context s)) = Some fp /\
     seller_min <= fp /\
     List.length (messages (ls_context s)) = (2 * S k)%nat \/
     last_item (your_offers (ls_context s)) = Some fp /\
     (0 <= seller_min -> seller_min <= fp) /\
     List.length (messages (ls_context s)) = S (2 * S k)).

(** A positive finite constant whose magnitude lies in [[lo, hi]]. *)
Definition in_range (c : spec_float) (lo hi : Q) : Prop :=
  exists m e, c = S754_finite false m e /\ (lo <= Py.mag m e <= hi)%Q.

(** The product with its grade and origin in the form in which the
    strategies compare them. *)
Definition normalised (p : Product) : Product :=
  {| name := name p; category := category p; quantity := quantity p;
     quality_grade := Str.lower (Str.strip (quality_grade p));
     origin := Str.lower (origin p);
     base_market_price := base_market_price p;
     attributes := attributes p |}.

(** A buyer agent whose prices stay within the budget of the context and
    that accepts at the seller's price only. *)
Definition budget_safe (agent : BaseBuyerAgent) : Prop :=
  (forall context offer msg,
      generate_opening_offer agent context = Some (offer, msg) ->
      offer <= your_budget context) /\
  (forall context seller_price seller_message status price msg,
      respond_to_seller_offer agent context seller_price seller_message
        = Some (status, price, msg) ->
      price <= your_budget context /\
      (status = ACCEPTED -> price = seller_price)).

(** What holds of the seller offers recorded before iteration [k]: the
    first is the opening price, and the others are at least the seller's
    minimum. *)
Definition seller_offers_inv (seller_min : Z) (p : Product) (s : loop_state)
  : Prop :=
  exists first rest,
    seller_offers (ls_context s) = first :: rest /\
    Py.int_scaled (base_market_price p) Py.f1_5 = Some first /\
    Forall (fun o => seller_min <= o) rest.

(** What holds of the loop state before iteration [k] of a run of
    [YourBuyerAgent] on a product [p]: the invariant of the offers, no deal
    yet, and prices that are not negative and at most [2^999]. *)
Definition bounded_inv (p : Product) (budget : Z) (k : nat) (s : loop_state)
  : Prop :=
  loop_inv budget k s /\
  product (ls_context s) = p /\
  ls_deal_made s = false /\
  0 <= ls_seller_price s <= 2 ^ 999 /\
  forall last, last_item (your_offers (ls_context s)) = Some last ->
               0 <= last.

(** A state that left the loop on a deal: its price is set, not negative and
    at most [2^999]. *)
Definition settled (s : loop_state) : Prop :=
  exists fp, ls_final_price s = Some fp /\ 0 <= fp <= 2 ^ 999.

(** ** The states of a run *)

(** [reaches agent seller_min p buyer_budget k s]: in the run of
    [run_negotiation_test] on these arguments, iteration [k] of the loop
    starts in state [s]; the iterations before it have ended without
    [break]. *)
Inductive reaches (agent : BaseBuyerAgent) (seller_min : Z) (p : Product)
    (buyer_budget : Z) : nat -> loop_state -> Prop :=
  | reaches_first s0 :
      initial_state p buyer_budget = Some s0 ->
      reaches agent seller_min p buyer_budget 0 s0
  | reaches_next k s s' :
      reaches agent seller_min p buyer_budget k s ->
      round_body agent seller_min (Z.of_nat k) s = Some (s', Next) ->
      reaches agent seller_min p buyer_budget (S k) s'.

(** An acceptance occurs in the run: in one of its iterations 0 to 9 the
    buyer returns ACCEPTED or the seller accepts the buyer's offer. *)
Definition acceptance_occurs (agent : BaseBuyerAgent) (seller_min : Z)
    (p : Product) (buyer_budget : Z) : Prop :=
  exists k s, (k < 10)%nat /\ reaches agent seller_min p buyer_budget k s /\
              turn_accepts agent seller_min (Z.of_nat k) s.

(** The calls that the run makes of the buyer agent return, with offers of
    magnitude at most [2^1000]. *)
Definition calls_return (agent : BaseBuyerAgent) (seller_min : Z)
    (p : Product) (buyer_budget : Z) : Prop :=
  forall k s,
    (k < 10)%nat -> reaches agent seller_min p buyer_budget k s ->
    exists status buyer_offer buyer_msg,
      buyer_turn agent (Z.of_nat k)
                 (set_round (ls_context s) (Z.of_nat k + 1))
                 (ls_seller_price s) (ls_seller_msg s)
        = Some (status, buyer_offer, buyer_msg) /\
      Z.abs buyer_offer <= 2 ^ 1000.

(** * Facts about the numeric model *)

(** ** Rounding to binary64

    [binary_round_aux] on an exact product or integer: the mantissa is
    shifted right by [Py.shift_of], rounded to the nearest (ties to even), and
    renormalised when rounding carries into the 54th bit. *)

Module PyFacts.

Lemma digits2_bounds p :
  2 ^ (Zpos (digits2_pos p) - 1) <= Zpos p < 2 ^ Zpos (digits2_pos p).
Proof.
  induction p as [p IH | p IH |]; cbn [digits2_pos].
  - rewrite Pos2Z.inj_succ. change (Zpos p~1) with (2 * Zpos p + 1).
    replace (Z.succ (Zpos (digits2_pos p)) - 1) with (Z.succ (Zpos (digits2_pos p) - 1)) by lia.
    rewrite !Z.pow_succ_r by lia.
    destruct IH as [IH1 IH2]. revert IH1 IH2.
    generalize (2 ^ (Zpos (digits2_pos p) - 1)) (2 ^ Zpos (digits2_pos p)). lia.
  - rewrite Pos2Z.inj_succ. change (Zpos p~0) with (2 * Zpos p).
    replace (Z.succ (Zpos (digits2_pos p)) - 1) with (Z.succ (Zpos (digits2_pos p) - 1)) by lia.
    rewrite !Z.pow_succ_r by lia.
    destruct IH as [IH1 IH2]. revert IH1 IH2.
    generalize (2 ^ (Zpos (digits2_pos p) - 1)) (2 ^ Zpos (digits2_pos p)). lia.
  - simpl. lia.
Qed.

Lemma digits2_le p n : 0 <= n -> (Zpos (digits2_pos p) <= n <-> Zpos p < 2 ^ n).
Proof.
  intros Hn. pose proof (digits2_bounds p) as [Hlo Hhi]. split; intros H.
  - eapply Z.lt_le_trans; [exact Hhi|]. apply Z.pow_le_mono_r; lia.
  - destruct (Z_lt_le_dec n (Zpos (digits2_pos p))) as [Hlt|]; [|assumption].
    exfalso. assert (2 ^ n <= 2 ^ (Zpos (digits2_pos p) - 1)) by (apply Z.pow_le_mono_r; lia). lia.
Qed.

Lemma shr_1_m r : 0 <= shr_m r -> shr_m (shr_1 r) = shr_m r / 2.
Proof.
  destruct r as [m rb sb]; cbn [shr_m]. intros Hm.
  destruct m as [|p|p]; [reflexivity| |lia].
  destruct p as [p|p|]; cbn [shr_1 shr_m].
  - change (Zpos p~1) with (2 * Zpos p + 1). apply Z.div_unique with 1; lia.
  - change (Zpos p~0) with (2 * Zpos p). apply Z.div_unique with 0; lia.
  - reflexivity.
Qed.

Lemma iter_shr_m p : forall r, 0 <= shr_m r ->
  shr_m (iter_pos shr_1 p r) = shr_m r / 2 ^ Zpos p.
Proof.
  induction p as [p IH | p IH |]; intros r Hr; cbn [iter_pos].
  - assert (H1 : 0 <= shr_m (shr_1 r)) by (rewrite shr_1_m by assumption; apply Z.div_pos; lia).
    assert (H2 : 0 <= shr_m (iter_pos shr_1 p (shr_1 r))).
    { rewrite IH by assumption. apply Z.div_pos; [assumption|]. apply Z.pow_pos_nonneg; lia. }
    rewrite IH, IH, shr_1_m by assumption.
    rewrite !Z.div_div by (try apply Z.pow_pos_nonneg; lia).
    f_equal. rewrite Pos2Z.inj_xI, Z.pow_add_r, Z.pow_mul_r by lia.
    change (2 ^ 2) with 4. change (2 ^ 1) with 2.
    replace (4 ^ Zpos p) with (2 ^ Zpos p * 2 ^ Zpos p).
    + ring.
    + rewrite <- Z.pow_add_r by lia. replace (Zpos p + Zpos p) with (2 * Zpos p) by lia.
      rewrite Z.pow_mul_r by lia. reflexivity.
  - assert (H2 : 0 <= shr_m (iter_pos shr_1 p r)).
    { rewrite IH by assumption. apply Z.div_pos; [assumption|]. apply Z.pow_pos_nonneg; lia. }
    rewrite IH, IH by assumption.
    rewrite !Z.div_div by (try apply Z.pow_pos_nonneg; lia).
    f_equal. rewrite <- Z.pow_add_r by lia. f_equal. lia.
  - rewrite shr_1_m by assumption. reflexivity.
Qed.

Lemma rne_bounds m l :
  round_nearest_even m l = m \/ round_nearest_even m l = m + 1.
Proof. destruct l as [|[]]; cbn; auto. destruct (Z.even m); auto. Qed.



(** The second normalisation pass of [binary_round_aux], on a mantissa that
    the first pass has already rounded. *)
Lemma second_pass s m2 e' :
  0 <= m2 <= 2 ^ 53 -> -1074 <= e' ->
  (let '(mrs, e'') := shr_fexp 53 1024 m2 e' loc_Exact in
   match shr_m mrs with
   | Z0 => S754_zero s
   | Zpos m => if e'' <=? 1024 - 53 then S754_finite s m e'' else S754_infinity s
   | Zneg _ => S754_nan
   end) =
  if m2 =? 0 then S754_zero s
  else if m2 <? 2 ^ 53
       then (if e' <=? 971 then S754_finite s (Z.to_pos m2) e' else S754_infinity s)
       else (if e' + 1 <=? 971 then S754_finite s (Z.to_pos (2 ^ 52)) (e' + 1)
             else S754_infinity s).
Proof.
  intros Hm He. unfold shr_fexp. change (fexp 53 1024) with Py.fexp64. unfold Py.fexp64.
  destruct m2 as [|q|q]; [| |lia].
  - cbn [Zdigits2]. unfold shr.
    replace (Z.max (0 + e' - 53) (-1074) - e') with (Z.max (-53) (-1074 - e')) by lia.
    destruct (Z.max (-53) (-1074 - e')) eqn:En; try lia; reflexivity.
  - cbn [Zdigits2]. change (Zpos q =? 0) with false. cbv iota.
    destruct (Zpos q <? 2 ^ 53) eqn:Hlt.
    + apply Z.ltb_lt in Hlt. apply digits2_le in Hlt; [|lia].
      unfold shr. destruct (Z.max (Zpos (digits2_pos q) + e' - 53) (-1074) - e') eqn:En; try lia;
      reflexivity.
    + apply Z.ltb_ge in Hlt. assert (Hq : Zpos q = 2 ^ 53) by lia.
      assert (Hd : Zpos (digits2_pos q) = 54).
      { injection Hq as ->. reflexivity. }
      rewrite Hd. replace (Z.max (54 + e' - 53) (-1074) - e') with 1 by lia.
      injection Hq as ->. cbn [shr iter_pos shr_record_of_loc shr_1 shr_m].
      replace (e' + 1 <=? 1024 - 53) with (e' + 1 <=? 971) by reflexivity. reflexivity.
Qed.


Lemma shr_1_inexact r :
  0 <= shr_m r -> Py.inexact (shr_1 r) = Z.odd (shr_m r) || Py.inexact r.
Proof.
  destruct r as [m rb sb]; cbn [shr_m]. intros Hm. unfold Py.inexact.
  destruct m as [|p|p]; [reflexivity| |lia].
  destruct p; reflexivity.
Qed.

Lemma mod_mul_zero m a b :
  0 < a -> 0 < b -> (m mod (a * b) = 0 <-> m mod a = 0 /\ (m / a) mod b = 0).
Proof.
  intros Ha Hb. rewrite Z.rem_mul_r by lia.
  pose proof (Z.mod_pos_bound m a Ha). pose proof (Z.mod_pos_bound (m / a) b Hb).
  split; [intros H1; split; nia | intros [-> ->]; lia].
Qed.

Lemma odd_mod2 m : Z.odd m = false <-> m mod 2 = 0.
Proof.
  rewrite Zmod_odd. destruct (Z.odd m); split; congruence.
Qed.

Lemma iter_shr_inexact p : forall r, 0 <= shr_m r ->
  (Py.inexact (iter_pos shr_1 p r) = false <->
   Py.inexact r = false /\ shr_m r mod 2 ^ Zpos p = 0).
Proof.
  assert (Hpow : forall q, 0 < 2 ^ Zpos q) by (intros; apply Z.pow_pos_nonneg; lia).
  induction p as [p IH | p IH |]; intros r Hr; cbn [iter_pos].
  - assert (H1 : 0 <= shr_m (shr_1 r))
      by (rewrite shr_1_m by assumption; apply Z.div_pos; lia).
    assert (H2 : 0 <= shr_m (iter_pos shr_1 p (shr_1 r))).
    { rewrite iter_shr_m by assumption. apply Z.div_pos; [assumption | apply Hpow]. }
    rewrite IH, IH by assumption.
    rewrite iter_shr_m, shr_1_m, shr_1_inexact by assumption.
    rewrite orb_false_iff, odd_mod2.
    replace (2 ^ Zpos p~1) with (2 * (2 ^ Zpos p * 2 ^ Zpos p)).
    + rewrite (mod_mul_zero (shr_m r) 2) by (try apply Z.mul_pos_pos; auto; lia).
      rewrite (mod_mul_zero (shr_m r / 2)) by auto. tauto.
    + change (Zpos p~1) with (2 * Zpos p + 1).
      rewrite Z.pow_add_r, Z.pow_mul_r by lia. change (2 ^ 1) with 2.
      replace (2 * Zpos p) with (Zpos p + Zpos p) by lia.
      rewrite <- Z.pow_mul_r by lia. replace (2 * Zpos p) with (Zpos p + Zpos p) by lia.
      rewrite Z.pow_add_r by lia. ring.
  - assert (H2 : 0 <= shr_m (iter_pos shr_1 p r)).
    { rewrite iter_shr_m by assumption. apply Z.div_pos; [assumption | apply Hpow]. }
    rewrite IH, IH by assumption. rewrite iter_shr_m by assumption.
    replace (2 ^ Zpos p~0) with (2 ^ Zpos p * 2 ^ Zpos p).
    + rewrite (mod_mul_zero (shr_m r)) by auto. tauto.
    + rewrite <- Z.pow_add_r by lia. f_equal. lia.
  - rewrite shr_1_inexact by assumption. rewrite orb_false_iff, odd_mod2.
    change (2 ^ 1) with 2. tauto.
Qed.

Lemma rne_exact m r : Py.inexact r = false -> round_nearest_even m (loc_of_shr_record r) = m.
Proof.
  destruct r as [m' rb sb]. unfold Py.inexact. cbn [shr_r shr_s].
  destruct rb, sb; cbn; congruence.
Qed.

(** [binary_round_aux] on an exact value [M * 2^E]: the mantissa [m2] it
    keeps is the quotient of [M] by [2^shift_of], or its successor, and the
    quotient itself when the division is exact. *)
Lemma binary_round_aux_spec s M E :
  exists m2,
    (m2 = Zpos M / 2 ^ Py.shift_of M E \/
     m2 = Zpos M / 2 ^ Py.shift_of M E + 1) /\
    (Zpos M mod 2 ^ Py.shift_of M E = 0 -> m2 = Zpos M / 2 ^ Py.shift_of M E) /\
    0 <= Zpos M / 2 ^ Py.shift_of M E < 2 ^ 53 /\
    binary_round_aux 53 1024 s (Zpos M) E loc_Exact =
      if m2 =? 0 then S754_zero s
      else if m2 <? 2 ^ 53
           then (if E + Py.shift_of M E <=? 971
                 then S754_finite s (Z.to_pos m2) (E + Py.shift_of M E)
                 else S754_infinity s)
           else (if E + Py.shift_of M E + 1 <=? 971
                 then S754_finite s (Z.to_pos (2 ^ 52))
                        (E + Py.shift_of M E + 1)
                 else S754_infinity s).
Proof.
  pose proof (digits2_bounds M) as [Hlo Hhi].
  unfold binary_round_aux, Py.shift_of.
  unfold shr_fexp at 1. change (fexp 53 1024) with Py.fexp64. cbn [Zdigits2].
  set (n := Py.fexp64 (Zpos (digits2_pos M) + E) - E).
  assert (Hn : Zpos (digits2_pos M) - 53 <= n) by (unfold n, Py.fexp64; lia).
  assert (Hmin : -1074 <= E + Z.max 0 n) by (unfold n, Py.fexp64; lia).
  assert (Hm1 : 0 <= Zpos M / 2 ^ Z.max 0 n < 2 ^ 53).
  { split; [apply Z.div_pos; [lia | apply Z.pow_pos_nonneg; lia]|].
    apply Z.div_lt_upper_bound; [apply Z.pow_pos_nonneg; lia|].
    rewrite <- Z.pow_add_r by lia.
    eapply Z.lt_le_trans; [exact Hhi|]. apply Z.pow_le_mono_r; lia. }
  unfold shr. destruct n as [|p|p] eqn:En.
  - cbn [shr_record_of_loc shr_m loc_of_shr_record round_nearest_even].
    change (Z.max 0 0) with 0 in *. rewrite Z.pow_0_r, Z.div_1_r in *.
    exists (Zpos M). split; [auto|]. split; [reflexivity|].
    split; [assumption|].
    rewrite !Z.add_0_r. apply second_pass; lia.
  - change (Z.max 0 (Zpos p)) with (Zpos p) in *.
    set (r := iter_pos shr_1 p (shr_record_of_loc (Zpos M) loc_Exact)).
    assert (Hr : shr_m r = Zpos M / 2 ^ Zpos p).
    { unfold r. rewrite iter_shr_m; cbn; [reflexivity | lia]. }
    exists (round_nearest_even (shr_m r) (loc_of_shr_record r)).
    split; [rewrite <- Hr; apply rne_bounds|].
    split.
    { intros Hmod. rewrite <- Hr. apply rne_exact. unfold r.
      apply iter_shr_inexact; cbn [shr_record_of_loc shr_m]; [lia|].
      split; [reflexivity | exact Hmod]. }
    split; [assumption|].
    apply second_pass; [|lia].
    destruct (rne_bounds (shr_m r) (loc_of_shr_record r)) as [-> | ->]; lia.
  - cbn [shr_record_of_loc shr_m loc_of_shr_record round_nearest_even].
    change (Z.max 0 (Zneg p)) with 0 in *. rewrite Z.pow_0_r, Z.div_1_r in *.
    exists (Zpos M). split; [auto|]. split; [reflexivity|].
    split; [assumption|].
    rewrite !Z.add_0_r. apply second_pass; lia.
Qed.

(** *** Rational values of rounded results *)

Local Open Scope Q_scope.


Lemma pow2_pos e : 0 < 2 ^ e.
Proof. apply Qpower_0_lt. reflexivity. Qed.

Lemma pow2_add a b : 2 ^ (a + b) == 2 ^ a * 2 ^ b.
Proof. apply Qpower_plus. discriminate. Qed.

Lemma pow2_Z k : (0 <= k)%Z -> 2 ^ k == inject_Z (2 ^ k).
Proof. intros H. rewrite Zpower_Qpower by assumption. reflexivity. Qed.

Lemma mag_pos m e : 0 < Py.mag m e.
Proof.
  unfold Py.mag. apply Qmult_lt_0_compat; [|apply pow2_pos].
  change 0 with (inject_Z 0). rewrite <- Zlt_Qlt. reflexivity.
Qed.

Lemma mag_shift m P k E :
  (0 <= k)%Z -> (Zpos m * 2 ^ k = P)%Z -> Py.mag m (E + k) == inject_Z P * 2 ^ E.
Proof.
  intros Hk <-. unfold Py.mag. rewrite pow2_add, (pow2_Z k) by assumption.
  rewrite inject_Z_mult. ring.
Qed.

Lemma scaled_le (a b : Z) (t : Q) :
  0 < t -> (a * 2 ^ 52 <= b * (2 ^ 52 + 1))%Z ->
  inject_Z a * t <= inject_Z b * t * (1 + Py.eps).
Proof.
  intros Ht H. rewrite Zle_Qle, !inject_Z_mult in H.
  change (inject_Z (2 ^ 52)) with (4503599627370496 # 1) in H.
  change (inject_Z (2 ^ 52 + 1)) with (4503599627370497 # 1) in H.
  assert (Hb : inject_Z a <= inject_Z b * (1 + Py.eps)).
  { unfold Py.eps. lra. }
  setoid_replace (inject_Z b * t * (1 + Py.eps)) with (inject_Z b * (1 + Py.eps) * t) by ring.
  apply Qmult_le_compat_r; [assumption | apply Qlt_le_weak; assumption].
Qed.

Lemma round_aux_lower s M E :
  (-1021 <= Zpos (digits2_pos M) + E)%Z ->
  binary_round_aux 53 1024 s (Zpos M) E loc_Exact = S754_infinity s \/
  exists m e, binary_round_aux 53 1024 s (Zpos M) E loc_Exact = S754_finite s m e /\
              Py.mag M E <= Py.mag m e * (1 + Py.eps).
Proof.
  intros Hnorm.
  destruct (binary_round_aux_spec s M E) as (m2 & Hm2 & _ & Hm1 & ->).
  pose proof (digits2_bounds M) as [Hlo Hhi].
  set (k := Py.shift_of M E) in *.
  assert (Hk : (k = Z.max 0 (Zpos (digits2_pos M) - 53))%Z)
    by (unfold k, Py.shift_of, Py.fexp64; lia).
  assert (HP : (0 < 2 ^ k)%Z) by (apply Z.pow_pos_nonneg; lia).
  set (m1 := (Zpos M / 2 ^ k)%Z) in *.
  assert (Hdiv : (2 ^ k * m1 <= Zpos M < 2 ^ k * m1 + 2 ^ k)%Z).
  { unfold m1. pose proof (Z.mul_div_le (Zpos M) (2 ^ k) HP).
    pose proof (Z.mul_succ_div_gt (Zpos M) (2 ^ k) HP). lia. }
  assert (Hbig : (k = 0 \/ 2 ^ 52 <= m1)%Z).
  { destruct (Z.eq_dec k 0) as [|Hne]; [auto|right].
    unfold m1. apply Z.div_le_lower_bound; [assumption|].
    rewrite <- Z.pow_add_r by lia.
    eapply Z.le_trans; [|exact Hlo]. apply Z.pow_le_mono_r; lia. }
  assert (Hrel : (Zpos M * 2 ^ 52 <= m1 * 2 ^ k * (2 ^ 52 + 1))%Z).
  { destruct Hbig as [H0 | H52].
    - rewrite H0 in *. change (2 ^ 0)%Z with 1%Z in *. lia.
    - revert Hdiv HP H52. generalize (2 ^ k)%Z. intros P. change (2 ^ 52)%Z with 4503599627370496%Z. nia. }
  assert (Hm1pos : (0 < m1)%Z).
  { destruct Hbig as [H0 | H52]; [|lia]. rewrite H0 in *. change (2 ^ 0)%Z with 1%Z in *. lia. }
  assert (Hm2pos : (0 < m2)%Z) by lia.
  destruct (m2 =? 0)%Z eqn:Hz; [apply Z.eqb_eq in Hz; lia|].
  destruct (m2 <? 2 ^ 53)%Z eqn:Hlt.
  - destruct (E + k <=? 971)%Z; [right | left; reflexivity].
    exists (Z.to_pos m2), (E + k)%Z. split; [reflexivity|].
    rewrite (mag_shift _ (m2 * 2 ^ k)%Z) by (rewrite ?Z2Pos.id; lia).
    unfold Py.mag. apply scaled_le; [apply pow2_pos|].
    assert (m1 * 2 ^ k <= m2 * 2 ^ k)%Z by nia. lia.
  - destruct (E + k + 1 <=? 971)%Z; [right | left; reflexivity].
    exists (Z.to_pos (2 ^ 52)), (E + k + 1)%Z. split; [reflexivity|].
    apply Z.ltb_ge in Hlt. assert (Hm2' : (m2 = 2 ^ 53)%Z) by lia.
    replace (E + k + 1)%Z with (E + (k + 1))%Z by lia.
    rewrite (mag_shift _ (2 ^ 53 * 2 ^ k)%Z).
    + unfold Py.mag. apply scaled_le; [apply pow2_pos|].
      assert (Zpos M < 2 ^ 53 * 2 ^ k)%Z by nia.
      revert H. generalize (2 ^ 53 * 2 ^ k)%Z. change (2 ^ 52)%Z with 4503599627370496%Z. lia.
    + lia.
    + rewrite Z.pow_add_r by lia.
      change (Zpos (Z.to_pos (2 ^ 52))) with (2 ^ 52)%Z.
      change (2 ^ 53)%Z with (2 ^ 52 * 2 ^ 1)%Z. ring.
Qed.

Lemma round_aux_kind s M E :
  match binary_round_aux 53 1024 s (Zpos M) E loc_Exact with
  | S754_zero s' | S754_infinity s' | S754_finite s' _ _ => s' = s
  | S754_nan => False
  end.
Proof.
  destruct (binary_round_aux_spec s M E) as (m2 & _ & _ & _ & ->).
  destruct (m2 =? 0)%Z; [reflexivity|].
  destruct (m2 <? 2 ^ 53)%Z.
  - destruct (_ <=? 971)%Z; reflexivity.
  - destruct (_ <=? 971)%Z; reflexivity.
Qed.

Lemma iter_xO_value d : forall m, Zpos (Pos.iter xO m d) = (Zpos m * 2 ^ Zpos d)%Z.
Proof.
  induction d using Pos.peano_ind; intros m.
  - cbn [Pos.iter]. change (Zpos m~0) with (2 * Zpos m)%Z. change (2 ^ 1)%Z with 2%Z. ring.
  - rewrite Pos.iter_succ. change (Zpos (Pos.iter xO m d)~0) with (2 * Zpos (Pos.iter xO m d))%Z.
    rewrite IHd, Pos2Z.inj_succ, Z.pow_succ_r by lia. ring.
Qed.

Lemma iter_xO_digits d : forall m,
  Zpos (digits2_pos (Pos.iter xO m d)) = (Zpos (digits2_pos m) + Zpos d)%Z.
Proof.
  induction d using Pos.peano_ind; intros m.
  - cbn [Pos.iter digits2_pos]. lia.
  - rewrite Pos.iter_succ. cbn [digits2_pos]. rewrite Pos2Z.inj_succ, IHd. lia.
Qed.

Lemma shl_align_spec mx ex ex' :
  Py.mag (fst (shl_align mx ex ex')) (snd (shl_align mx ex ex')) == Py.mag mx ex /\
  (Zpos (digits2_pos (fst (shl_align mx ex ex'))) + snd (shl_align mx ex ex')
   = Zpos (digits2_pos mx) + ex)%Z.
Proof.
  unfold shl_align. destruct (ex' - ex)%Z as [|d|d] eqn:Hd; cbn [fst snd];
    try (split; reflexivity).
  split.
  - replace ex with (ex' + Zpos d)%Z by lia.
    symmetry. apply mag_shift; [lia|]. symmetry. apply iter_xO_value.
  - rewrite iter_xO_digits. lia.
Qed.

Lemma binary_round_lower s m :
  binary_round 53 1024 s m 0 = S754_infinity s \/
  exists m' e', binary_round 53 1024 s m 0 = S754_finite s m' e' /\
                inject_Z (Zpos m) <= Py.mag m' e' * (1 + Py.eps).
Proof.
  unfold binary_round.
  destruct (shl_align_spec m 0 (fexp 53 1024 (Zpos (digits2_pos m) + 0))) as [Hv Hd].
  destruct (shl_align m 0 _) as [mz ez]. cbn [fst snd] in Hv, Hd.
  destruct (round_aux_lower s mz ez) as [Hinf | (m' & e' & Heq & Hle)]; [lia|auto|].
  right. exists m', e'. split; [assumption|].
  assert (H0 : Py.mag m 0 == inject_Z (Zpos m)).
  { unfold Py.mag. change (2 ^ 0) with 1. ring. }
  rewrite <- H0, <- Hv. assumption.
Qed.

Lemma of_Z_lower n :
  n <> 0%Z ->
  Py.of_Z n = S754_infinity (n <? 0)%Z \/
  exists m e, Py.of_Z n = S754_finite (n <? 0)%Z m e /\
              inject_Z (Z.abs n) <= Py.mag m e * (1 + Py.eps).
Proof.
  intros Hn. unfold Py.of_Z, binary_normalize.
  destruct n as [|p|p]; [congruence| |]; apply binary_round_lower.
Qed.

Lemma normal_of_mag M E :
  2 ^ (-1022) <= Py.mag M E -> (-1021 <= Zpos (digits2_pos M) + E)%Z.
Proof.
  intros H. pose proof (digits2_bounds M) as [_ Hhi].
  assert (Hlt : Py.mag M E < 2 ^ (Zpos (digits2_pos M) + E)).
  { unfold Py.mag. rewrite pow2_add. apply Qmult_lt_compat_r; [apply pow2_pos|].
    rewrite pow2_Z by lia. rewrite <- Zlt_Qlt. assumption. }
  assert (H2 : 2 ^ (-1022) < 2 ^ (Zpos (digits2_pos M) + E))
    by (eapply Qle_lt_trans; eassumption).
  apply Qpower_lt_compat_l_inv in H2; [lia | reflexivity].
Qed.

Lemma mag_mul m1 e1 m2 e2 :
  Py.mag (m1 * m2) (e1 + e2) == Py.mag m1 e1 * Py.mag m2 e2.
Proof.
  unfold Py.mag. rewrite pow2_add, Pos2Z.inj_mul, inject_Z_mult. ring.
Qed.


Lemma scale_up n c r :
  Py.growth c -> n <> 0%Z -> Py.mul_int_float n c = Some r ->
  r = S754_infinity (n <? 0)%Z \/
  exists m e, r = S754_finite (n <? 0)%Z m e /\ inject_Z (Z.abs n) <= Py.mag m e.
Proof.
  intros (mc & ec & -> & Hc) Hn. unfold Py.mul_int_float, Py.float_of_int.
  destruct (of_Z_lower n Hn) as [-> | (mx & ex & -> & Hx)]; [discriminate|].
  cbn [Py.is_finite bind]. intros [= <-].
  unfold Py.fmul, SFmul, Py.prec, Py.emax. rewrite xorb_false_r.
  assert (H1 : 1 <= inject_Z (Z.abs n)).
  { change 1 with (inject_Z 1). rewrite <- Zle_Qle. lia. }
  pose proof (mag_pos mx ex) as Hpx. pose proof (mag_pos mc ec) as Hpc.
  assert (Hprod : Py.mag mx ex * (1 + Py.eps) * (1 + Py.eps) <= Py.mag (mx * mc) (ex + ec)).
  { rewrite mag_mul. rewrite <- Qmult_assoc. apply Qmult_le_l; assumption. }
  assert (Hnorm : 2 ^ (-1022) <= Py.mag (mx * mc) (ex + ec)).
  { eapply Qle_trans; [|exact Hprod].
    apply Qle_trans with 1; [vm_compute; discriminate|].
    unfold Py.eps in *. nra. }
  apply normal_of_mag in Hnorm.
  destruct (round_aux_lower (n <? 0)%Z (mx * mc) (ex + ec) Hnorm)
    as [-> | (m & e & -> & Hle)]; [left; reflexivity|].
  right. exists m, e. split; [reflexivity|].
  pose proof (mag_pos m e) as Hpm.
  unfold Py.eps in *. nra.
Qed.

End PyFacts.

(** ** Order, truncation, [max], [min] and [int] *)

Module NumFacts.

Lemma growth_1_05 : Py.growth Py.f1_05.
Proof. eexists _, _. split; [reflexivity|]. vm_compute. discriminate. Qed.
Lemma growth_1_15 : Py.growth Py.f1_15.
Proof. eexists _, _. split; [reflexivity|]. vm_compute. discriminate. Qed.
Lemma growth_1_1 : Py.growth Py.f1_1.
Proof. eexists _, _. split; [reflexivity|]. vm_compute. discriminate. Qed.
Lemma growth_step_down r : Py.growth (Py.fadd Py.f1_0 (YourSellerAgent.step_down r)).
Proof.
  unfold YourSellerAgent.step_down.
  destruct (6 <=? r); [|destruct (3 <=? r)];
    (eexists _, _; split; [vm_compute; reflexivity|]; vm_compute; discriminate).
Qed.

(** ** Truncation *)

Lemma trunc_ge n q : (inject_Z n <= q)%Q -> n <= Py.trunc q.
Proof.
  intros H. unfold Py.trunc. destruct (Qle_bool 0 q).
  - rewrite <- (Qfloor_Z n). apply Qfloor_resp_le. assumption.
  - rewrite <- (Qceiling_Z n). apply Qceiling_resp_le. assumption.
Qed.

Lemma trunc_le n q : (q <= inject_Z n)%Q -> Py.trunc q <= n.
Proof.
  intros H. unfold Py.trunc. destruct (Qle_bool 0 q).
  - rewrite <- (Qfloor_Z n). apply Qfloor_resp_le. assumption.
  - rewrite <- (Qceiling_Z n). apply Qceiling_resp_le. assumption.
Qed.

Lemma trunc_mono p q : (p <= q)%Q -> Py.trunc p <= Py.trunc q.
Proof.
  intros H. unfold Py.trunc.
  destruct (Qle_bool 0 p) eqn:Hp; destruct (Qle_bool 0 q) eqn:Hq.
  - apply Qfloor_resp_le. assumption.
  - apply Qle_bool_iff in Hp.
    assert (~ (0 <= q)%Q) by (rewrite <- Qle_bool_iff; congruence).
    exfalso. apply H0. eapply Qle_trans; eassumption.
  - apply Qle_bool_iff in Hq.
    assert (Hn : ~ (0 <= p)%Q) by (rewrite <- Qle_bool_iff; congruence).
    apply Z.le_trans with 0.
    + change 0 with (Qceiling 0). apply Qceiling_resp_le. apply Qlt_le_weak, Qnot_le_lt, Hn.
    + change 0 with (Qfloor 0). apply Qfloor_resp_le. assumption.
  - apply Qceiling_resp_le. assumption.
Qed.

(** ** The order on extended values *)

Lemma Qltb_lt p q : Py.Qltb p q = true <-> (p < q)%Q.
Proof.
  unfold Py.Qltb. rewrite Qlt_alt. destruct (p ?= q)%Q; split; congruence.
Qed.

Lemma xle_refl a : Py.not_nan a -> Py.xle a a = true.
Proof.
  destruct a; cbn; intros H; try reflexivity; [congruence|].
  apply Qle_bool_iff. apply Qle_refl.
Qed.

Lemma xle_trans a b c : Py.xle a b = true -> Py.xle b c = true -> Py.xle a c = true.
Proof.
  destruct a, b, c; cbn; intros H1 H2; try reflexivity; try discriminate.
  apply Qle_bool_iff in H1, H2. apply Qle_bool_iff. eapply Qle_trans; eassumption.
Qed.

Lemma xlt_xle a b : Py.xlt a b = true -> Py.xle a b = true.
Proof.
  destruct a, b; cbn; intros H; try reflexivity; try discriminate.
  apply Qltb_lt in H. apply Qle_bool_iff. apply Qlt_le_weak. assumption.
Qed.

Lemma xlt_false_xle a b :
  Py.not_nan a -> Py.not_nan b -> Py.xlt b a = false -> Py.xle a b = true.
Proof.
  destruct a, b; cbn; intros Ha Hb H; try reflexivity; try discriminate;
    try (exfalso; congruence).
  apply Qle_bool_iff. apply Qnot_lt_le. rewrite <- Qltb_lt. congruence.
Qed.

Lemma xle_false_xlt a b :
  Py.not_nan a -> Py.not_nan b -> Py.xle a b = false -> Py.xlt b a = true.
Proof.
  destruct a, b; cbn; intros Ha Hb H; try reflexivity; try discriminate;
    try (exfalso; congruence).
  apply Qltb_lt. apply Qnot_le_lt. rewrite <- Qle_bool_iff. congruence.
Qed.

Lemma xle_not_nan_l a b : Py.xle a b = true -> Py.not_nan a.
Proof. destruct a; cbn; intros H; unfold Py.not_nan; congruence. Qed.

Lemma xle_not_nan_r a b : Py.xle a b = true -> Py.not_nan b.
Proof. destruct a, b; cbn; intros H; unfold Py.not_nan; congruence. Qed.

Lemma int_not_nan z : Py.not_nan (Py.xv (Py.Int z)).
Proof. discriminate. Qed.

(** ** [max] and [min] *)

Lemma max2_cases acc item : Py.max2 acc item = acc \/ Py.max2 acc item = item.
Proof. unfold Py.max2. destruct (Py.gt item acc); auto. Qed.

Lemma max2_ge_acc acc item :
  Py.not_nan (Py.xv acc) -> Py.xle (Py.xv acc) (Py.xv (Py.max2 acc item)) = true.
Proof.
  intros H. unfold Py.max2, Py.gt. destruct (Py.xlt _ _) eqn:E.
  - apply xlt_xle. assumption.
  - apply xle_refl. assumption.
Qed.

Lemma max2_ge_item acc item :
  Py.not_nan (Py.xv acc) -> Py.not_nan (Py.xv item) ->
  Py.xle (Py.xv item) (Py.xv (Py.max2 acc item)) = true.
Proof.
  intros Ha Hi. unfold Py.max2, Py.gt. destruct (Py.xlt _ _) eqn:E.
  - apply xle_refl. assumption.
  - apply xlt_false_xle; assumption.
Qed.

Lemma max2_not_nan acc item :
  Py.not_nan (Py.xv acc) -> Py.not_nan (Py.xv (Py.max2 acc item)).
Proof. intros H. eapply xle_not_nan_r. apply max2_ge_acc. assumption. Qed.

Lemma min2_cases acc item : Py.min2 acc item = acc \/ Py.min2 acc item = item.
Proof. unfold Py.min2. destruct (Py.lt item acc); auto. Qed.

Lemma min2_le_acc acc item :
  Py.not_nan (Py.xv acc) -> Py.xle (Py.xv (Py.min2 acc item)) (Py.xv acc) = true.
Proof.
  intros H. unfold Py.min2, Py.lt. destruct (Py.xlt _ _) eqn:E.
  - apply xlt_xle. assumption.
  - apply xle_refl. assumption.
Qed.

Lemma min2_ge lo acc item :
  Py.xle lo (Py.xv acc) = true -> Py.xle lo (Py.xv item) = true ->
  Py.xle lo (Py.xv (Py.min2 acc item)) = true.
Proof. intros. destruct (min2_cases acc item) as [-> | ->]; assumption. Qed.

(** ** [int] *)

Lemma int_ge n v t :
  Py.xle (Py.XFin (inject_Z n)) (Py.xv v) = true -> Py.int v = Some t -> n <= t.
Proof.
  destruct v as [z | f]; cbn [Py.xv Py.int].
  - cbn. intros H [= <-]. apply Qle_bool_iff in H. rewrite <- Zle_Qle in H. assumption.
  - unfold Py.int_of_float. intros H. destruct (Py.is_finite f) eqn:Hf; [|discriminate].
    intros [= <-]. apply trunc_ge. apply Qle_bool_iff.
    destruct f; try discriminate Hf; exact H.
Qed.

Lemma int_le n v t :
  Py.xle (Py.xv v) (Py.XFin (inject_Z n)) = true -> Py.int v = Some t -> t <= n.
Proof.
  destruct v as [z | f]; cbn [Py.xv Py.int].
  - cbn. intros H [= <-]. apply Qle_bool_iff in H. rewrite <- Zle_Qle in H. assumption.
  - unfold Py.int_of_float. intros H. destruct (Py.is_finite f) eqn:Hf; [|discriminate].
    intros [= <-]. apply trunc_le. apply Qle_bool_iff.
    destruct f; try discriminate Hf; exact H.
Qed.

End NumFacts.

(** ** The error monad *)

Lemma bind_Some {A B} (c : option A) (k : A -> option B) r :
  bind c k = Some r -> exists a, c = Some a /\ k a = Some r.
Proof. destruct c; cbn; intros H; [eauto | discriminate]. Qed.

Ltac bind_inv H :=
  let a := fresh "v" in
  let E := fresh "E" in
  apply bind_Some in H; destruct H as (a & E & H).

(** ** Products, conversions and their values *)

Module FloatFacts.

Lemma fmul_comm x y : Py.fmul x y = Py.fmul y x.
Proof.
  unfold Py.fmul, SFmul.
  destruct x as [sx | sx | | sx mx ex], y as [sy | sy | | sy my ey];
    try reflexivity; try (rewrite xorb_comm; reflexivity).
  rewrite xorb_comm, Pos.mul_comm, Z.add_comm. reflexivity.
Qed.

Lemma fmul_not_nan x y :
  Py.is_finite x = true -> Py.is_finite y = true ->
  Py.not_nan (Py.xval_of_float (Py.fmul x y)).
Proof.
  destruct x as [sx | sx | | sx mx ex], y as [sy | sy | | sy my ey];
    cbn [Py.is_finite]; try discriminate; intros _ _;
    try (cbn; discriminate).
  unfold Py.fmul, SFmul, Py.prec, Py.emax.
  pose proof (PyFacts.round_aux_kind (xorb sx sy) (mx * my) (ex + ey)) as H.
  destruct (binary_round_aux _ _ _ _ _ _); try contradiction; try discriminate.
  destruct s; discriminate.
Qed.

Lemma float_of_int_finite n x :
  Py.float_of_int n = Some x -> Py.is_finite x = true.
Proof.
  unfold Py.float_of_int.
  destruct (Py.is_finite (Py.of_Z n)) eqn:E; [|discriminate].
  intros [= <-]. assumption.
Qed.

Lemma mul_int_float_not_nan n c r :
  Py.is_finite c = true -> Py.mul_int_float n c = Some r ->
  Py.not_nan (Py.xval_of_float r).
Proof.
  intros Hc H. unfold Py.mul_int_float in H. bind_inv H. injection H as <-.
  apply fmul_not_nan; [eapply float_of_int_finite; eassumption | assumption].
Qed.

Lemma truediv_finite a b q : Py.truediv a b = Some q -> Py.is_finite q = true.
Proof.
  unfold Py.truediv. destruct a, b; try discriminate;
    try (intros [= <-]; reflexivity); cbv zeta;
    match goal with
    | |- context [Py.is_finite ?f] => destruct (Py.is_finite f) eqn:E
    end;
    try discriminate; intros [= <-]; exact E.
Qed.

Lemma max3_is_maximum a b c :
  Py.not_nan (Py.xv a) -> Py.not_nan (Py.xv b) -> Py.not_nan (Py.xv c) ->
  Py.is_maximum (Py.max3 a b c) [a; b; c].
Proof.
  intros Ha Hb Hc. unfold Py.max3. split.
  - destruct (NumFacts.max2_cases (Py.max2 a b) c) as [-> | ->]; [|cbn; auto].
    destruct (NumFacts.max2_cases a b) as [-> | ->]; cbn; auto.
  - pose proof (NumFacts.max2_not_nan a b Ha) as Hab.
    intros x [<- | [<- | [<- | []]]]; unfold Py.le.
    + eapply NumFacts.xle_trans;
        [apply (NumFacts.max2_ge_acc a b); assumption|].
      apply NumFacts.max2_ge_acc; assumption.
    + eapply NumFacts.xle_trans;
        [apply (NumFacts.max2_ge_item a b); assumption|].
      apply NumFacts.max2_ge_acc; assumption.
    + apply NumFacts.max2_ge_item; assumption.
Qed.

Lemma F2Q_mag s m e :
  (Py.F2Q (S754_finite s m e)
   == if s then - Py.mag m e else Py.mag m e)%Q.
Proof.
  unfold Py.F2Q, Py.mag. destruct s; cbn [cond_Zopp].
  - change (inject_Z (- Zpos m)) with (- inject_Z (Zpos m))%Q. ring.
  - reflexivity.
Qed.

(** Scaling a non-negative price by a growth constant and truncating does not
    lower it. *)
Lemma int_scaled_ge n c t :
  Py.growth c -> 0 <= n -> Py.int_scaled n c = Some t -> n <= t.
Proof.
  intros Hc Hn H. unfold Py.int_scaled in H. bind_inv H. rename v into r.
  destruct (Z.eq_dec n 0) as [-> | Hne].
  - destruct Hc as (mc & ec & -> & _). cbv in E. injection E as <-.
    cbv in H. injection H as <-. lia.
  - destruct (PyFacts.scale_up n c r Hc Hne E) as [-> | (m & e & -> & Hle)];
      [discriminate|].
    replace (n <? 0) with false in * by (symmetry; apply Z.ltb_ge; lia).
    unfold Py.int_of_float in H. cbn [Py.is_finite] in H. injection H as <-.
    apply NumFacts.trunc_ge. rewrite Z.abs_eq in Hle by lia. exact Hle.
Qed.

(** An integer that is not at least a scaled negative price is below that
    price. *)
Lemma below_scaled_negative n c r b :
  Py.growth c -> n < 0 -> Py.mul_int_float n c = Some r ->
  Py.ge (Py.Int b) (Py.Float r) = false -> b < n.
Proof.
  intros Hc Hn E Hge.
  destruct (PyFacts.scale_up n c r Hc ltac:(lia) E)
    as [-> | (m & e & -> & Hle)];
    replace (n <? 0) with true in * by (symmetry; apply Z.ltb_lt; lia).
  - discriminate Hge.
  - unfold Py.ge in Hge. cbn [Py.xv Py.xval_of_float Py.xle] in Hge.
    assert (Hlt : (inject_Z b < Py.F2Q (S754_finite true m e))%Q).
    { apply Qnot_le_lt. rewrite <- Qle_bool_iff. congruence. }
    pose proof (F2Q_mag true m e) as Hm. cbv iota in Hm.
    rewrite Z.abs_neq, inject_Z_opp in Hle by lia.
    rewrite Zlt_Qlt. lra.
Qed.

Lemma scaled_value_ge n c r :
  Py.growth c -> 0 <= n -> Py.mul_int_float n c = Some r ->
  Py.xle (Py.XFin (inject_Z n)) (Py.xval_of_float r) = true.
Proof.
  intros Hc Hn E. destruct (Z.eq_dec n 0) as [-> | Hne].
  - destruct Hc as (mc & ec & -> & _). cbv in E. injection E as <-.
    reflexivity.
  - destruct (PyFacts.scale_up n c r Hc Hne E) as [-> | (m & e & -> & Hle)];
      replace (n <? 0) with false in * by (symmetry; apply Z.ltb_ge; lia).
    + reflexivity.
    + cbn [Py.xval_of_float Py.xle]. apply Qle_bool_iff.
      rewrite Z.abs_eq in Hle by lia. exact Hle.
Qed.

Lemma int_defined_finite v t :
  Py.int v = Some t -> exists q, Py.xv v = Py.XFin q.
Proof.
  destruct v as [z | f]; cbn [Py.int Py.xv]; [eauto|].
  unfold Py.int_of_float. destruct f; cbn; try discriminate; eauto.
Qed.

Lemma between_finite q1 f q2 :
  Py.xle (Py.XFin q1) (Py.xval_of_float f) = true ->
  Py.xle (Py.xval_of_float f) (Py.XFin q2) = true ->
  Py.is_finite f = true.
Proof. destruct f as [s | s | | s m e]; try destruct s; cbn; congruence. Qed.

Lemma int_mono u v a b :
  Py.xle (Py.xv u) (Py.xv v) = true ->
  Py.int u = Some a -> Py.int v = Some b -> a <= b.
Proof.
  intros H Hu Hv. destruct u as [z | f].
  - injection Hu as <-. eapply NumFacts.int_ge; eassumption.
  - destruct v as [z | g].
    + injection Hv as <-. eapply NumFacts.int_le; eassumption.
    + cbn [Py.int] in Hu, Hv. unfold Py.int_of_float in Hu, Hv.
      destruct (Py.is_finite f) eqn:Ff; [|discriminate].
      destruct (Py.is_finite g) eqn:Fg; [|discriminate].
      injection Hu as <-. injection Hv as <-. apply NumFacts.trunc_mono.
      apply Qle_bool_iff. destruct f, g; try discriminate; exact H.
Qed.

(** *** Signs *)

Lemma binary_round_kind s m e :
  match binary_round 53 1024 s m e with
  | S754_zero s' | S754_infinity s' | S754_finite s' _ _ => s' = s
  | S754_nan => False
  end.
Proof.
  unfold binary_round. destruct (shl_align m e _) as [mz ez].
  apply PyFacts.round_aux_kind.
Qed.

Lemma of_Z_nonneg n : 0 <= n -> Py.nonneg_float (Py.of_Z n).
Proof.
  intros Hn. unfold Py.of_Z, binary_normalize.
  destruct n as [|p|p]; [exact I| |lia].
  pose proof (binary_round_kind false p 0) as H. unfold Py.prec, Py.emax.
  destruct (binary_round 53 1024 false p 0); cbn; try contradiction; subst;
    exact I.
Qed.

Lemma fmul_nonneg x c :
  Py.nonneg_float x -> Py.positive_finite c -> Py.nonneg_float (Py.fmul x c).
Proof.
  intros Hx (m & e & ->).
  destruct x as [sx | sx | | sx mx ex]; cbn in Hx |- *;
    try exact I; try contradiction.
  - destruct sx; [contradiction | exact I].
  - destruct sx; [contradiction|].
    unfold Py.fmul, SFmul, Py.prec, Py.emax. cbn [xorb].
    pose proof (PyFacts.round_aux_kind false (mx * m) (ex + e)) as H.
    destruct (binary_round_aux _ _ _ _ _ _); cbn; try contradiction; subst;
      exact I.
Qed.

Lemma F2Q_nonneg f : Py.nonneg_float f -> (0 <= Py.F2Q f)%Q.
Proof.
  destruct f as [s | s | | s m e]; cbn [Py.nonneg_float Py.F2Q]; intros H;
    try apply Qle_refl.
  destruct s; [contradiction|]. apply Qlt_le_weak. apply (PyFacts.mag_pos m e).
Qed.

Lemma round_nonneg f z : Py.nonneg_float f -> Py.round f = Some z -> 0 <= z.
Proof.
  intros Hf. unfold Py.round. destruct (Py.is_finite f); [|discriminate].
  intros [= <-]. apply F2Q_nonneg in Hf. unfold Py.round_half_even.
  assert (0 <= Qfloor (Py.F2Q f)).
  { change 0 with (Qfloor 0). apply Qfloor_resp_le. assumption. }
  destruct (_ ?= _)%Q; [destruct (Z.even _)| |]; lia.
Qed.

End FloatFacts.

(** * Facts about the strategies and the loop *)

(** ** The buyer *)

Module BuyerFacts.
Import YourBuyerAgent.

(** Which return statement of [respond_to_seller_offer] produced a result. *)
Lemma respond_inv context sp sm st price msg :
  respond_to_seller_offer context sp sm = Some (st, price, msg) ->
  exists fair low high,
    calculate_fair_price (product context) = Some fair /\
    target_zone (product context) = Some (low, high) /\
    ((sp <= your_budget context /\ low <= sp <= high /\
      st = ACCEPTED /\ price = sp /\ msg = MsgAgreed sp) \/
     ((exists t, Py.int_scaled fair Py.f0_85 = Some t /\ sp <= t) /\
      sp <= your_budget context /\
      st = ACCEPTED /\ price = sp /\ msg = MsgCompelling sp) \/
     (exists last proposed,
        propose context fair sp = Some (last, proposed) /\
        ((sp <= your_budget context /\
          st = ACCEPTED /\ price = sp /\ msg = MsgAligned sp) \/
         (sp <= Z.min (your_budget context) proposed /\
          st = ACCEPTED /\ price = sp /\ msg = MsgFairEnough sp) \/
         (st = ONGOING /\ price = Z.min proposed (your_budget context) /\
          msg = if 9 <=? current_round context
                then MsgFinalize price else MsgMoveTo price)))).
Proof.
  unfold respond_to_seller_offer. intros H.
  bind_inv H. rename v into fair. bind_inv H. destruct v as [low high].
  exists fair, low, high. split; [assumption|]. split; [assumption|].
  destruct ((sp <=? your_budget context) && (low <=? sp) && (sp <=? high))
    eqn:Hz.
  - injection H as <- <- <-. left.
    apply andb_prop in Hz as [Hz H3]. apply andb_prop in Hz as [H1 H2].
    repeat split; lia.
  - right. bind_inv H. destruct v.
    + injection H as <- <- <-. left.
      destruct (sp <=? your_budget context) eqn:Hb; [|discriminate].
      bind_inv E1. injection E1 as E1.
      split; [exists v; split; [assumption | lia]|]. repeat split; lia.
    + right. bind_inv H. destruct v as [last proposed]. exists last, proposed.
      split; [assumption|]. bind_inv H. destruct v.
      * injection H as <- <- <-. left.
        destruct (sp <=? your_budget context) eqn:Hb; [|discriminate].
        repeat split; lia.
      * destruct (sp <=? Z.min (your_budget context) proposed) eqn:Hd.
        -- injection H as <- <- <-. right; left. repeat split; lia.
        -- injection H as <- <- <-. right; right. repeat split.
Qed.

Lemma add_one_step_finite r factor :
  Py.add_int_float 1 (concession_step r) = Some factor ->
  Py.is_finite factor = true.
Proof.
  unfold concession_step.
  destruct (6 <=? r); [|destruct (3 <=? r)]; vm_compute; intros [= <-];
    reflexivity.
Qed.

(** The offer from which [propose] starts. *)
Lemma propose_last context fair sp last proposed :
  propose context fair sp = Some (last, proposed) ->
  last_item (your_offers context) = Some last \/
  your_offers context = [] /\ Py.int_scaled fair Py.f0_78 = Some last.
Proof.
  intros H. unfold propose in H. bind_inv H. rename v into last0.
  assert (Hl : last0 = last).
  { do 4 bind_inv H.
    destruct (9 <=? current_round context); bind_inv H;
      injection H as <- _; reflexivity. }
  subst last0. destruct (your_offers context) as [|o r] eqn:Ho.
  - right. split; [reflexivity | exact E].
  - left. exact E.
Qed.

(** The concession schedule never retreats. *)
Lemma propose_ge_last context fair sp last proposed :
  propose context fair sp = Some (last, proposed) ->
  last <= your_budget context ->
  last <= Z.min proposed (your_budget context).
Proof.
  intros H Hb. unfold propose in H.
  bind_inv H. rename v into last0.
  bind_inv H. rename v into midpoint.
  bind_inv H. rename v into factor.
  bind_inv H. rename v into stepped.
  apply bind_Some in H as (candidate & Hcand & H).
  assert (Hl : last0 = last).
  { destruct (9 <=? current_round context); bind_inv H;
      injection H as <- _; reflexivity. }
  subst last0.
  assert (Hc : last <= candidate).
  { eapply NumFacts.int_ge; [|exact Hcand]. apply NumFacts.min2_ge.
    - cbn. apply Qle_bool_iff. rewrite <- Zle_Qle. assumption.
    - unfold Py.max3. eapply NumFacts.xle_trans.
      + apply (NumFacts.max2_ge_acc (Py.Int last)). apply NumFacts.int_not_nan.
      + apply NumFacts.max2_ge_acc.
        apply NumFacts.max2_not_nan, NumFacts.int_not_nan. }
  destruct (9 <=? current_round context); bind_inv H; injection H as <-; lia.
Qed.

(** What every result of [respond_to_seller_offer] satisfies. *)
Lemma respond_summary context sp sm st price msg :
  respond_to_seller_offer context sp sm = Some (st, price, msg) ->
  price <= your_budget context /\
  (st = ACCEPTED /\ price = sp \/
   st = ONGOING /\
   forall last, last_item (your_offers context) = Some last ->
                last <= your_budget context -> last <= price).
Proof.
  intros H. apply respond_inv in H as (fair & low & high & _ & _ & H).
  destruct H as [H | [H | (last' & proposed & Hp & [H | [H | H]])]].
  - destruct H as (Hb & _ & -> & -> & _). split; [lia | left; auto].
  - destruct H as (_ & Hb & -> & -> & _). split; [lia | left; auto].
  - destruct H as (Hb & -> & -> & _). split; [lia | left; auto].
  - destruct H as (Hb & -> & -> & _). split; [lia | left; auto].
  - destruct H as (-> & -> & _). split; [lia|]. right. split; [reflexivity|].
    intros last Hlast Hb.
    destruct (propose_last _ _ _ _ _ Hp) as [Hl | [Hl _]].
    + assert (last' = last) by congruence. subst last'.
      eapply propose_ge_last; eassumption.
    + rewrite Hl in Hlast. discriminate Hlast.
Qed.

Lemma opening_within_budget context offer msg :
  generate_opening_offer context = Some (offer, msg) ->
  offer <= your_budget context.
Proof.
  unfold generate_opening_offer. intros H.
  bind_inv H. bind_inv H. injection H as <- _. lia.
Qed.

End BuyerFacts.

(** ** The sellers *)

Module SellerFacts.

(** A counter of the mock seller is never below the offer it answers. *)
Lemma mock_counter_ge min_price buyer_offer round_num counter msg :
  MockSellerAgent.respond_to_buyer min_price buyer_offer round_num
    = Some (counter, msg, false) ->
  buyer_offer <= counter.
Proof.
  unfold MockSellerAgent.respond_to_buyer. intros H.
  apply bind_Some in H as (thr & E & H).
  destruct (Py.ge (Py.Int buyer_offer) (Py.Float thr)) eqn:Hge;
    [discriminate|].
  assert (Hneg : buyer_offer < 0 -> buyer_offer <= min_price).
  { intros Hb. destruct (Z_lt_le_dec min_price 0) as [Hm|Hm]; [|lia].
    pose proof (FloatFacts.below_scaled_negative _ _ _ _
                  NumFacts.growth_1_1 Hm E Hge).
    lia. }
  destruct (8 <=? round_num); apply bind_Some in H as (raised & E0 & H);
    injection H as <- _;
    (destruct (Z_lt_le_dec buyer_offer 0) as [Hb|Hb];
     [specialize (Hneg Hb); lia|]).
  - pose proof (FloatFacts.int_scaled_ge _ _ _ NumFacts.growth_1_05 Hb E0).
    lia.
  - pose proof (FloatFacts.int_scaled_ge _ _ _ NumFacts.growth_1_15 Hb E0).
    lia.
Qed.

Lemma fair_nonneg p fair :
  0 <= base_market_price p -> YourSellerAgent.fair_price p = Some fair ->
  0 <= fair.
Proof.
  intros Hb H. unfold YourSellerAgent.fair_price in H.
  apply bind_Some in H as (x & E & H).
  eapply FloatFacts.round_nonneg; [|exact H].
  apply FloatFacts.fmul_nonneg; [apply FloatFacts.fmul_nonneg|].
  - unfold Py.mul_int_float in E. apply bind_Some in E as (y & E0 & E).
    injection E as <-.
    unfold Py.float_of_int in E0. destruct (Py.is_finite _); [|discriminate].
    injection E0 as <-.
    apply FloatFacts.fmul_nonneg; [apply FloatFacts.of_Z_nonneg; assumption|].
    unfold YourSellerAgent._quality_multiplier.
    repeat match goal with
           | |- context [if ?b then _ else _] => destruct b
           end;
      eexists _, _; reflexivity.
  - unfold YourBuyerAgent.origin_factor.
    destruct (Str.mem _ _); eexists _, _; reflexivity.
  - eexists _, _; reflexivity.
Qed.

(** The counter-ask is the truncation of a float that is at least
    [fair * (1 + step_down)]. *)
Lemma respond_ongoing self p buyer_offer round_num counter msg fair :
  0 <= fair ->
  YourSellerAgent.fair_price p = Some fair ->
  YourSellerAgent.respond_to_buyer_offer self p buyer_offer round_num
    = Some ("ongoing"%string, counter, msg) ->
  exists floor,
    Py.int_scaled fair
      (Py.fadd Py.f1_0 (YourSellerAgent.step_down (10 - (round_num + 1))))
      = Some floor /\
    fair <= floor /\ floor <= counter.
Proof.
  intros Hfair Hf H. unfold YourSellerAgent.respond_to_buyer_offer in H.
  rewrite Hf in H. cbn [bind] in H.
  apply bind_Some in H as ([low high] & _ & H).
  destruct ((low <=? buyer_offer) && (buyer_offer <=? high));
    [apply bind_Some in H as (phrase & _ & H); discriminate|].
  apply bind_Some in H as (t98 & _ & H).
  destruct (t98 <=? buyer_offer); [discriminate|].
  apply bind_Some in H as (ask & _ & H). apply bind_Some in H as (t90 & _ & H).
  apply bind_Some in H as (midpoint & Hmid & H).
  apply bind_Some in H as (floorf & Hfl & H).
  apply bind_Some in H as (counter0 & Hc0 & H).
  apply bind_Some in H as (phrase & _ & H).
  injection H as <- _.
  set (c := Py.fadd Py.f1_0
              (YourSellerAgent.step_down (10 - (round_num + 1)))) in *.
  pose proof (FloatFacts.scaled_value_ge fair c floorf
                (NumFacts.growth_step_down _) Hfair Hfl) as Hge.
  assert (Hmax : Py.xle (Py.xv (Py.Float floorf))
                   (Py.xv (Py.max2 (Py.Float midpoint) (Py.Float floorf)))
                 = true).
  { apply NumFacts.max2_ge_item.
    - apply FloatFacts.truediv_finite in Hmid.
      destruct midpoint; try discriminate Hmid; discriminate.
    - eapply NumFacts.xle_not_nan_r. exact Hge. }
  destruct (FloatFacts.int_defined_finite _ _ Hc0) as (q & Hq).
  assert (Hfin : Py.is_finite floorf = true).
  { eapply FloatFacts.between_finite; [exact Hge|]. rewrite <- Hq. exact Hmax. }
  exists (Py.trunc (Py.F2Q floorf)).
  assert (Hint : Py.int (Py.Float floorf) = Some (Py.trunc (Py.F2Q floorf))).
  { cbn [Py.int]. unfold Py.int_of_float. rewrite Hfin. reflexivity. }
  split; [|split].
  - unfold Py.int_scaled. rewrite Hfl. cbn [bind]. exact Hint.
  - eapply NumFacts.int_ge; [|exact Hint]. exact Hge.
  - pose proof (FloatFacts.int_mono _ _ _ _ Hmax Hint Hc0).
    destruct (8 <=? round_num); lia.
Qed.

(** Only an agent with a [personality] returns "ongoing": the message quotes
    its third catch phrase, and the call raises on the agent as
    constructed. *)
Lemma ongoing_personality self p buyer_offer round_num counter msg :
  YourSellerAgent.respond_to_buyer_offer self p buyer_offer round_num
    = Some ("ongoing"%string, counter, msg) ->
  (exists d phrase,
      personality self = Some d /\
      nth_error (catchphrases d) 2 = Some phrase /\
      msg = MsgSellerImprove counter phrase) /\
  YourSellerAgent.respond_to_buyer_offer YourSellerAgent.constructed p
    buyer_offer round_num = None.
Proof.
  unfold YourSellerAgent.respond_to_buyer_offer. intros H.
  destruct (YourSellerAgent.fair_price p) as [fair|]; [|discriminate H].
  cbn [bind] in *.
  destruct (YourSellerAgent.seller_zone p) as [[low high]|];
    [|discriminate H].
  cbn [bind] in *.
  destruct ((low <=? buyer_offer) && (buyer_offer <=? high));
    [apply bind_Some in H as (phrase & _ & H); discriminate H|].
  destruct (Py.int_scaled fair Py.f0_98) as [t98|]; [|discriminate H].
  cbn [bind] in *.
  destruct (t98 <=? buyer_offer); [discriminate H|].
  repeat match type of H with
         | bind ?x _ = Some _ =>
             lazymatch x with
             | YourSellerAgent.catchphrase _ _ => fail
             | _ => destruct x; [cbn [bind] in *|discriminate H]
             end
         end.
  apply bind_Some in H as (phrase & Hph & H). injection H as <- <-.
  split; [|reflexivity].
  unfold YourSellerAgent.catchphrase in Hph.
  destruct (personality self) as [d|]; [|discriminate Hph].
  exists d, phrase. auto.
Qed.

End SellerFacts.

(** ** Offer histories *)

Module HistoryFacts.

Lemma last_item_snoc l y : last_item (l ++ [y]) = Some y.
Proof.
  destruct l as [|x r]; [reflexivity|]. cbn [app last_item]. f_equal.
  apply last_last.
Qed.

Lemma last_default (l : list Z) a b : l <> [] -> last l a = last l b.
Proof.
  induction l as [|x r IH]; intros H; [congruence|].
  destruct r as [|y r']; [reflexivity|].
  change (last (x :: y :: r') a) with (last (y :: r') a).
  change (last (x :: y :: r') b) with (last (y :: r') b).
  apply IH. discriminate.
Qed.

Lemma last_item_cons a b r : last_item (a :: b :: r) = last_item (b :: r).
Proof.
  cbn [last_item]. f_equal. destruct r as [|c r']; [reflexivity|].
  change (last (b :: c :: r') a) with (last (c :: r') a).
  apply last_default. discriminate.
Qed.

Lemma non_decreasing_snoc l y :
  non_decreasing l -> (forall x, last_item l = Some x -> x <= y) ->
  non_decreasing (l ++ [y]).
Proof.
  induction l as [|a r IH]; intros Hs Hl; [exact I|].
  destruct r as [|b r'].
  - cbn. split; [apply Hl; reflexivity | exact I].
  - change ((a :: b :: r') ++ [y]) with (a :: (b :: r') ++ [y]).
    change (non_decreasing (a :: b :: r'))
      with (a <= b /\ non_decreasing (b :: r')) in Hs.
    change (a <= b /\ non_decreasing ((b :: r') ++ [y])).
    destruct Hs as [Hab Hs]. split; [assumption|].
    apply IH; [assumption|]. intros x Hx. apply Hl.
    rewrite last_item_cons. exact Hx.
Qed.

End HistoryFacts.

(** ** The negotiation loop, for any buyer agent *)

Section LoopFacts.

Variable agent : BaseBuyerAgent.
Variable seller_min : Z.

Lemma DealStatus_eqb_eq a b : DealStatus_eqb a b = true <-> a = b.
Proof. destruct a, b; cbn; split; congruence. Qed.

(** One iteration: the round it sets, the offer it records, and how it
    ends. *)
Lemma round_body_shape round_num s s' f :
  round_body agent seller_min round_num s = Some (s', f) ->
  current_round (ls_context s') = round_num + 1 /\
  List.length (your_offers (ls_context s'))
    = S (List.length (your_offers (ls_context s))) /\
  (f = Break <-> turn_accepts agent seller_min round_num s) /\
  match f with
  | Break => ls_deal_made s' = true /\ exists fp, ls_final_price s' = Some fp
  | Next => ls_deal_made s' = ls_deal_made s /\
            ls_final_price s' = ls_final_price s
  end.
Proof.
  unfold round_body, turn_accepts. intros H.
  bind_inv H. destruct v as [[st bo] bmsg]. rewrite E.
  destruct (DealStatus_eqb st ACCEPTED) eqn:Hacc.
  - apply DealStatus_eqb_eq in Hacc. injection H as <- <-. cbn.
    rewrite List.length_app. cbn. repeat split; try lia; eauto 8.
  - assert (Hne : st <> ACCEPTED).
    { intros ->. discriminate Hacc. }
    bind_inv H. destruct v as [[sp' smsg] acc].
    destruct acc; injection H as <- <-; cbn;
      rewrite List.length_app; cbn; repeat split; try lia; eauto 10;
      try discriminate.
    intros (st' & bo' & m' & [= <- <- <-] & [Ha | (c & m & Hs)]);
      [contradiction|].
    rewrite E0 in Hs. discriminate Hs.
Qed.

Lemma for_rounds_shape n : forall k s s',
  List.length (your_offers (ls_context s)) = k ->
  for_rounds agent seller_min (map Z.of_nat (seq k n)) s = Some s' ->
  let turns := List.length (your_offers (ls_context s')) in
  (k <= turns <= k + n)%nat /\
  (current_round (ls_context s') = Z.of_nat turns \/
   turns = k /\ current_round (ls_context s') = current_round (ls_context s)) /\
  ((ls_deal_made s' = true /\ (exists fp, ls_final_price s' = Some fp) /\
    exists r s1, (k <= r < k + n)%nat /\
                 turn_accepts agent seller_min (Z.of_nat r) s1) \/
   (ls_deal_made s' = ls_deal_made s /\
    ls_final_price s' = ls_final_price s /\ turns = (k + n)%nat)).
Proof.
  induction n as [|n IH]; intros k s s' Hk H turns.
  - injection H as <-. unfold turns. split; [lia|].
    split; [right; split; [lia | reflexivity]|].
    right. repeat split. lia.
  - cbn [seq map for_rounds] in H. bind_inv H. destruct v as [s1 f].
    destruct (round_body_shape _ _ _ _ E) as (Hr & Hlen & Hacc & Hf).
    destruct f.
    + apply (IH (S k)) in H; [|congruence]. destruct H as (Hb & Hc & Hd).
      fold turns in Hb, Hc, Hd. destruct Hf as [Hf1 Hf2].
      split; [lia|].
      split; [left; destruct Hc as [Hc | [Hc1 Hc2]]; [exact Hc | lia]|].
      destruct Hd as [(Hd1 & Hd2 & r & s2 & Hr2 & Ha) | (Hd1 & Hd2 & Hd3)].
      * left. repeat split; try assumption.
        exists r, s2. split; [lia | assumption].
      * right. repeat split; try congruence. lia.
    + injection H as <-. destruct Hf as [Hf1 Hf2]. unfold turns.
      split; [lia|]. split; [left; rewrite Hr, Hlen, Hk; lia|].
      left. repeat split; try assumption. exists k, s. split; [lia|].
      apply Hacc. reflexivity.
Qed.

Lemma initial_state_shape p buyer_budget s0 :
  initial_state p buyer_budget = Some s0 ->
  your_offers (ls_context s0) = [] /\ current_round (ls_context s0) = 0 /\
  your_budget (ls_context s0) = buyer_budget /\
  ls_deal_made s0 = false /\ ls_final_price s0 = None.
Proof.
  unfold initial_state. intros H. bind_inv H. destruct v as [sp sm].
  injection H as <-. cbn. auto.
Qed.

(** The whole loop: between 1 and 10 buyer turns, as many as the round
    counter says, and a deal only after an acceptance. *)
Lemma negotiation_loop_shape p buyer_budget s :
  negotiation_loop agent seller_min p buyer_budget = Some s ->
  let turns := List.length (your_offers (ls_context s)) in
  (1 <= turns <= 10)%nat /\
  current_round (ls_context s) = Z.of_nat turns /\
  ((ls_deal_made s = true /\ (exists fp, ls_final_price s = Some fp) /\
    exists r s1, 0 <= r < 10 /\ turn_accepts agent seller_min r s1) \/
   (ls_deal_made s = false /\ ls_final_price s = None /\ turns = 10%nat)).
Proof.
  intros H turns. unfold negotiation_loop in H. bind_inv H. rename v into s0.
  destruct (initial_state_shape _ _ _ E) as (Hoff & _ & _ & Hdm & Hfp).
  assert (Hlen : List.length (your_offers (ls_context s0)) = 0%nat)
    by (rewrite Hoff; reflexivity).
  destruct (for_rounds_shape 10 0 s0 s Hlen H) as (Hb & Hc & Hd).
  fold turns in Hb, Hc, Hd.
  assert (Hpos : (0 < turns)%nat).
  { unfold range in H. cbn [seq map for_rounds] in H. bind_inv H.
    destruct v as [s1 f].
    destruct (round_body_shape _ _ _ _ E0) as (_ & Hl1 & _ & _).
    destruct f.
    - apply (for_rounds_shape 9 1) in H; [|congruence].
      cbv zeta in H. fold turns in H. lia.
    - injection H as <-. unfold turns. lia. }
  split; [lia|].
  split; [destruct Hc as [Hc | [Hc1 Hc2]]; [exact Hc | lia]|].
  destruct Hd as [(Hd1 & Hd2 & r & s1 & Hr & Ha) | (Hd1 & Hd2 & Hd3)].
  - left. repeat split; try assumption.
    exists (Z.of_nat r), s1. split; [lia | assumption].
  - right. repeat split; [congruence | congruence | lia].
Qed.

(** An agent that checks the round it is called in behaves as the agent it
    wraps. *)
Lemma round_body_counting k s :
  List.length (your_offers (ls_context s)) = k -> (k < 10)%nat ->
  round_body (counting_rounds agent) seller_min (Z.of_nat k) s
  = round_body agent seller_min (Z.of_nat k) s.
Proof.
  intros Hk Hlt. unfold round_body. f_equal. unfold buyer_turn.
  cbn [counting_rounds generate_opening_offer respond_to_seller_offer
       set_round current_round your_offers].
  destruct (Z.of_nat k =? 0) eqn:Hz.
  - apply Z.eqb_eq in Hz. rewrite Hz. reflexivity.
  - rewrite Hk.
    replace (Z.of_nat k + 1 =? Z.of_nat k + 1) with true
      by (symmetry; apply Z.eqb_refl).
    replace (Z.of_nat k + 1 <=? 10) with true
      by (symmetry; apply Z.leb_le; lia).
    reflexivity.
Qed.

Lemma for_rounds_counting n : forall k s,
  List.length (your_offers (ls_context s)) = k -> (k + n <= 10)%nat ->
  for_rounds (counting_rounds agent) seller_min (map Z.of_nat (seq k n)) s
  = for_rounds agent seller_min (map Z.of_nat (seq k n)) s.
Proof.
  induction n as [|n IH]; intros k s Hk Hle; [reflexivity|].
  cbn [seq map for_rounds]. rewrite round_body_counting by (assumption || lia).
  destruct (round_body agent seller_min (Z.of_nat k) s) as [[s1 f]|] eqn:E;
    [|reflexivity].
  cbn [bind]. destruct f; [|reflexivity].
  apply IH; [|lia].
  destruct (round_body_shape _ _ _ _ E) as (_ & Hl & _). congruence.
Qed.

End LoopFacts.

(** ** The negotiation loop, for [YourBuyerAgent] *)

Module RunFacts.

(** The buyer's call of one iteration stays within budget and does not go
    below the last offer. *)
Lemma your_agent_turn round_num context sp sm st bo msg budget :
  your_budget context = budget ->
  (round_num = 0 -> your_offers context = []) ->
  (forall l, last_item (your_offers context) = Some l ->
             l <= budget /\ l <= sp) ->
  buyer_turn your_buyer_agent round_num context sp sm = Some (st, bo, msg) ->
  bo <= budget /\
  (forall l, last_item (your_offers context) = Some l -> l <= bo) /\
  (DealStatus_eqb st ACCEPTED = false -> st = ONGOING).
Proof.
  intros Hb H0 Hl H. unfold buyer_turn in H.
  destruct (round_num =? 0) eqn:Hr.
  - apply Z.eqb_eq in Hr. rewrite (H0 Hr). bind_inv H. destruct v as [o m].
    injection H as <- <- <-.
    pose proof (BuyerFacts.opening_within_budget context o m E).
    repeat split; try lia. intros l Hl'. discriminate Hl'.
  - cbn [respond_to_seller_offer your_buyer_agent] in H.
    apply BuyerFacts.respond_summary in H as (Hle & [[-> ->] | [-> Hge]]).
    + split; [lia|]. split; [|discriminate].
      intros l Hlast. apply (Hl l Hlast).
    + split; [lia|]. split; [|reflexivity].
      intros l Hlast. apply Hge; [exact Hlast|]. destruct (Hl l Hlast). lia.
Qed.

Lemma round_body_step seller_min budget k s s' f :
  loop_inv budget k s ->
  round_body your_buyer_agent seller_min (Z.of_nat k) s = Some (s', f) ->
  non_decreasing (your_offers (ls_context s')) /\
  (f = Next -> loop_inv budget (S k) s').
Proof.
  intros (Hb & Hlen & Hs & Hl) H. unfold round_body in H.
  bind_inv H. destruct v as [[st bo] bmsg].
  apply (your_agent_turn _ _ _ _ _ _ _ budget) in E as (Hbo & Hlast & Hst);
    [| exact Hb
     | intros Hk; cbn [set_round your_offers];
       destruct (your_offers (ls_context s)); [reflexivity | cbn in Hlen; lia]
     | exact Hl].
  cbn [set_round your_offers] in Hlast.
  assert (Hsorted : non_decreasing (your_offers (ls_context s) ++ [bo])).
  { apply HistoryFacts.non_decreasing_snoc; assumption. }
  destruct (DealStatus_eqb st ACCEPTED) eqn:Hacc.
  - injection H as <- <-. split; [exact Hsorted | discriminate].
  - bind_inv H. destruct v as [[sp' smsg] acc]. destruct acc.
    + injection H as <- <-. split; [exact Hsorted | discriminate].
    + injection H as <- <-. split; [exact Hsorted|]. intros _.
      unfold loop_inv. cbn.
      split; [exact Hb|]. split; [rewrite List.length_app; cbn; lia|].
      split; [exact Hsorted|]. intros l.
      rewrite HistoryFacts.last_item_snoc. intros [= <-].
      split; [exact Hbo|]. eapply SellerFacts.mock_counter_ge. exact E.
Qed.

Lemma for_rounds_sorted seller_min budget n : forall k s s',
  loop_inv budget k s ->
  for_rounds your_buyer_agent seller_min (map Z.of_nat (seq k n)) s = Some s' ->
  non_decreasing (your_offers (ls_context s')).
Proof.
  induction n as [|n IH]; intros k s s' Hinv H.
  - injection H as <-. apply Hinv.
  - cbn [seq map for_rounds] in H. bind_inv H. destruct v as [s1 f].
    destruct (round_body_step _ _ _ _ _ _ Hinv E) as [Hs Hnext].
    destruct f.
    + eapply IH; [apply Hnext; reflexivity | exact H].
    + injection H as <-. exact Hs.
Qed.

End RunFacts.

(** * Range and error bounds of the binary64 operations *)

Module BoundFacts.

Local Open Scope Q_scope.

Lemma mag_le_max m e :
  (Zpos m < 2 ^ 53)%Z -> (e <= 971)%Z -> Py.mag m e <= inject_Z max_float.
Proof.
  intros Hm He. unfold Py.mag, max_float. rewrite inject_Z_mult.
  rewrite <- (PyFacts.pow2_Z 971) by lia.
  apply Qle_trans with (inject_Z (2 ^ 53 - 1) * 2 ^ e).
  - apply Qmult_le_compat_r; [|apply Qlt_le_weak, PyFacts.pow2_pos].
    rewrite <- Zle_Qle. lia.
  - apply Qmult_le_l; [reflexivity|].
    apply Qpower_le_compat_l; [assumption | discriminate].
Qed.

Lemma round_aux_bounded s M E :
  Py.is_finite (binary_round_aux 53 1024 s (Zpos M) E loc_Exact) = true ->
  bounded_float (binary_round_aux 53 1024 s (Zpos M) E loc_Exact).
Proof.
  destruct (PyFacts.binary_round_aux_spec s M E) as (m2 & Hm2 & _ & Hm1 & ->).
  destruct (m2 =? 0)%Z eqn:Hz; [intros _; exact I|].
  apply Z.eqb_neq in Hz.
  destruct (m2 <? 2 ^ 53)%Z eqn:Hlt.
  - apply Z.ltb_lt in Hlt.
    destruct (_ <=? 971)%Z eqn:He; [|discriminate]. intros _.
    apply Z.leb_le in He. cbn [bounded_float]. rewrite Z2Pos.id by lia. lia.
  - destruct (_ <=? 971)%Z eqn:He; [|discriminate]. intros _.
    apply Z.leb_le in He. cbn [bounded_float]. split; [reflexivity | lia].
Qed.

(** No overflow below the largest finite value. *)
Lemma round_aux_no_overflow s M E :
  (E <= 971)%Z -> Py.mag M E <= inject_Z max_float ->
  Py.is_finite (binary_round_aux 53 1024 s (Zpos M) E loc_Exact) = true.
Proof.
  intros HE Hmax.
  destruct (PyFacts.binary_round_aux_spec s M E)
    as (m2 & Hm2 & Hex & Hm1 & ->).
  pose proof (PyFacts.digits2_bounds M) as [Hlo Hhi].
  set (k := Py.shift_of M E) in *.
  assert (Hk0 : (0 <= k)%Z) by (unfold k, Py.shift_of; lia).
  assert (HP : (0 < 2 ^ k)%Z) by (apply Z.pow_pos_nonneg; lia).
  (* the value is below 2^1024, hence at most 1024 digits *)
  assert (Hd : (Zpos (digits2_pos M) + E <= 1024)%Z).
  { assert (H1 : 2 ^ (Zpos (digits2_pos M) - 1 + E) <= Py.mag M E).
    { unfold Py.mag. rewrite PyFacts.pow2_add.
      apply Qmult_le_compat_r; [|apply Qlt_le_weak, PyFacts.pow2_pos].
      rewrite PyFacts.pow2_Z by lia. rewrite <- Zle_Qle. assumption. }
    assert (H2 : 2 ^ (Zpos (digits2_pos M) - 1 + E) < 2 ^ 1024).
    { eapply Qle_lt_trans; [exact H1|]. eapply Qle_lt_trans; [exact Hmax|].
      vm_compute. reflexivity. }
    apply Qpower_lt_compat_l_inv in H2; [lia | reflexivity]. }
  assert (Hek : (E + k <= 971)%Z) by (unfold k, Py.shift_of, Py.fexp64; lia).
  destruct (m2 =? 0)%Z; [reflexivity|].
  destruct (m2 <? 2 ^ 53)%Z eqn:Hlt.
  - replace (E + k <=? 971)%Z with true by (symmetry; apply Z.leb_le; lia).
    reflexivity.
  - apply Z.ltb_ge in Hlt.
    destruct (Z_le_gt_dec (E + k + 1) 971) as [Hle | Hgt].
    + replace (E + k + 1 <=? 971)%Z with true by (symmetry; apply Z.leb_le; lia).
      reflexivity.
    + exfalso. assert (Hk : (E + k = 971)%Z) by lia.
      assert (Hm : (Zpos M / 2 ^ k = 2 ^ 53 - 1)%Z) by lia.
      assert (Hrem : (Zpos M mod 2 ^ k <> 0)%Z).
      { intros H0. specialize (Hex H0). lia. }
      assert (Hgtm : ((2 ^ 53 - 1) * 2 ^ k < Zpos M)%Z).
      { pose proof (Z.div_mod (Zpos M) (2 ^ k) ltac:(lia)) as Hdm.
        pose proof (Z.mod_pos_bound (Zpos M) (2 ^ k) HP). rewrite Hm in Hdm. lia. }
      assert (Hval : inject_Z max_float < Py.mag M E).
      { unfold Py.mag, max_float.
        replace 971%Z with (E + k)%Z by lia.
        rewrite inject_Z_mult, <- (PyFacts.pow2_Z (E + k)) by lia.
        rewrite PyFacts.pow2_add, (PyFacts.pow2_Z k) by lia.
        setoid_replace (inject_Z (2 ^ 53 - 1) * (2 ^ E * inject_Z (2 ^ k)))
          with (inject_Z ((2 ^ 53 - 1) * 2 ^ k) * 2 ^ E)
          by (rewrite inject_Z_mult; ring).
        apply Qmult_lt_compat_r; [apply PyFacts.pow2_pos|].
        rewrite <- Zlt_Qlt. assumption. }
      apply (Qlt_irrefl (inject_Z max_float)).
      eapply Qlt_le_trans; eassumption.
Qed.
End BoundFacts.

Module DefinedFacts.
Import BoundFacts.

Lemma binary_round_finite s m :
  Zpos m <= max_float -> Py.is_finite (binary_round 53 1024 s m 0) = true.
Proof.
  intros Hm. unfold binary_round.
  destruct (PyFacts.shl_align_spec m 0 (fexp 53 1024 (Zpos (digits2_pos m) + 0)))
    as [Hv _].
  assert (He : snd (shl_align m 0 (fexp 53 1024 (Zpos (digits2_pos m) + 0))) <= 0).
  { unfold shl_align. destruct (_ - 0) eqn:Hd; cbn [snd]; lia. }
  destruct (shl_align m 0 _) as [mz ez]. cbn [fst snd] in Hv, He.
  apply round_aux_no_overflow; [lia|].
  rewrite Hv. unfold Py.mag. change (2 ^ 0)%Q with 1%Q. rewrite Qmult_1_r.
  rewrite <- Zle_Qle. assumption.
Qed.

Lemma of_Z_finite n : Z.abs n <= max_float -> Py.is_finite (Py.of_Z n) = true.
Proof.
  intros Hn. unfold Py.of_Z, binary_normalize.
  destruct n as [|p|p]; [reflexivity| |]; apply binary_round_finite; lia.
Qed.

Lemma binary_round_bounded s m e :
  Py.is_finite (binary_round 53 1024 s m e) = true ->
  bounded_float (binary_round 53 1024 s m e).
Proof.
  unfold binary_round. destruct (shl_align m e _) as [mz ez].
  apply round_aux_bounded.
Qed.

Lemma float_of_int_bounded n x : Py.float_of_int n = Some x -> bounded_float x.
Proof.
  unfold Py.float_of_int. destruct (Py.is_finite (Py.of_Z n)) eqn:Hf; [|discriminate].
  intros [= <-]. unfold Py.of_Z, binary_normalize in *.
  destruct n as [|p|p]; [exact I| |]; apply binary_round_bounded; exact Hf.
Qed.

Lemma fmul_bounded a b :
  Py.is_finite (Py.fmul a b) = true -> bounded_float (Py.fmul a b).
Proof.
  unfold Py.fmul, SFmul.
  destruct a as [sa | sa | | sa ma ea], b as [sb | sb | | sb mb eb];
    try discriminate; try (intros _; exact I).
  apply round_aux_bounded.
Qed.

Lemma fmul_shrink x c :
  bounded_float x -> shrinking c -> Py.is_finite (Py.fmul x c) = true.
Proof.
  unfold Py.fmul, SFmul.
  destruct x as [sx | sx | | sx mx ex], c as [sc | sc | | sc mc ec];
    cbn [bounded_float shrinking]; try contradiction; try reflexivity.
  intros [Hm He] [Hec Hc]. apply round_aux_no_overflow; [lia|].
  rewrite PyFacts.mag_mul.
  pose proof (mag_le_max mx ex Hm He) as Hx.
  pose proof (PyFacts.mag_pos mx ex). pose proof (PyFacts.mag_pos mc ec).
  apply Qle_trans with (Py.mag mx ex * 1)%Q; [|rewrite Qmult_1_r; exact Hx].
  apply Qmult_le_l; assumption.
Qed.

Lemma F2Q_bounded f :
  bounded_float f ->
  (inject_Z (- max_float) <= Py.F2Q f <= inject_Z max_float)%Q.
Proof.
  destruct f as [s | s | | s m e]; cbn [bounded_float]; try contradiction.
  - intros _. cbn [Py.F2Q]. split; vm_compute; discriminate.
  - intros [Hm He]. pose proof (mag_le_max m e Hm He) as Hmax.
    pose proof (PyFacts.mag_pos m e) as Hpos.
    pose proof (FloatFacts.F2Q_mag s m e) as Hv. rewrite inject_Z_opp.
    destruct s; lra.
Qed.

Lemma round_half_even_bounds q N :
  (inject_Z (- N) <= q <= inject_Z N)%Q -> - N <= Py.round_half_even q <= N.
Proof.
  intros [Hlo Hhi]. unfold Py.round_half_even.
  pose proof (Qfloor_le q) as Hfl. pose proof (Qlt_floor q) as Hlt.
  assert (H1 : - N <= Qfloor q).
  { rewrite <- (Qfloor_Z (- N)). apply Qfloor_resp_le. assumption. }
  assert (H2 : Qfloor q <= N).
  { rewrite <- (Qfloor_Z N). apply Qfloor_resp_le. assumption. }
  destruct (q - inject_Z (Qfloor q) ?= 1 # 2)%Q eqn:Hc.
  - apply Qeq_alt in Hc. destruct (Z.even _); [lia|].
    destruct (Z.eq_dec (Qfloor q) N) as [E|]; [|lia]. rewrite E in Hc. lra.
  - lia.
  - apply Qgt_alt in Hc.
    destruct (Z.eq_dec (Qfloor q) N) as [E|]; [|lia]. rewrite E in Hc. lra.
Qed.

Lemma round_convertible f z :
  bounded_float f -> Py.round f = Some z -> exists x, Py.float_of_int z = Some x.
Proof.
  intros Hb H. unfold Py.round in H. destruct (Py.is_finite f); [|discriminate].
  injection H as <-. unfold Py.float_of_int.
  rewrite of_Z_finite; [eauto|].
  pose proof (round_half_even_bounds _ _ (F2Q_bounded f Hb)). lia.
Qed.

Lemma int_of_float_defined f :
  Py.is_finite f = true -> exists t, Py.int_of_float f = Some t.
Proof. intros H. unfold Py.int_of_float. rewrite H. eauto. Qed.

Lemma int_scaled_defined n x c :
  Py.float_of_int n = Some x -> shrinking c -> exists t, Py.int_scaled n c = Some t.
Proof.
  intros Hx Hc. unfold Py.int_scaled, Py.mul_int_float. rewrite Hx. cbn [bind].
  apply int_of_float_defined. apply fmul_shrink; [|assumption].
  eapply float_of_int_bounded. exact Hx.
Qed.

Lemma shrinking_0_88 : shrinking Py.f0_88.
Proof. split; [cbn; lia | vm_compute; discriminate]. Qed.
Lemma shrinking_0_97 : shrinking Py.f0_97.
Proof. split; [cbn; lia | vm_compute; discriminate]. Qed.
Lemma shrinking_0_85 : shrinking Py.f0_85.
Proof. split; [cbn; lia | vm_compute; discriminate]. Qed.
Lemma shrinking_0_78 : shrinking Py.f0_78.
Proof. split; [cbn; lia | vm_compute; discriminate]. Qed.

Lemma buyer_fair_convertible p fair :
  YourBuyerAgent.calculate_fair_price p = Some fair ->
  exists x, Py.float_of_int fair = Some x.
Proof.
  unfold YourBuyerAgent.calculate_fair_price. intros H.
  apply bind_Some in H as (x & _ & H).
  eapply round_convertible; [|exact H].
  apply fmul_bounded. unfold Py.round in H.
  destruct (Py.is_finite _); [reflexivity | discriminate].
Qed.

Lemma target_zone_defined p fair :
  YourBuyerAgent.calculate_fair_price p = Some fair ->
  exists low high, YourBuyerAgent.target_zone p = Some (low, high).
Proof.
  intros H. destruct (buyer_fair_convertible p fair H) as (x & Hx).
  destruct (int_scaled_defined fair x _ Hx shrinking_0_88) as (low & Hlow).
  destruct (int_scaled_defined fair x _ Hx shrinking_0_97) as (high & Hhigh).
  exists low, high. unfold YourBuyerAgent.target_zone.
  rewrite H. cbn [bind]. rewrite Hlow. cbn [bind]. rewrite Hhigh. reflexivity.
Qed.

End DefinedFacts.

Module UpperFacts.
Import BoundFacts DefinedFacts.
Local Open Scope Q_scope.

Lemma round_aux_upper s M E :
  (-1021 <= Zpos (digits2_pos M) + E)%Z ->
  fmag (binary_round_aux 53 1024 s (Zpos M) E loc_Exact)
  <= Py.mag M E * (1 + Py.eps).
Proof.
  intros Hnorm.
  destruct (PyFacts.binary_round_aux_spec s M E) as (m2 & Hm2 & Hex & Hm1 & ->).
  pose proof (PyFacts.digits2_bounds M) as [Hlo Hhi].
  set (k := Py.shift_of M E) in *.
  assert (Hk : (k = Z.max 0 (Zpos (digits2_pos M) - 53))%Z)
    by (unfold k, Py.shift_of, Py.fexp64; lia).
  assert (HP : (0 < 2 ^ k)%Z) by (apply Z.pow_pos_nonneg; lia).
  set (m1 := (Zpos M / 2 ^ k)%Z) in *.
  assert (Hdiv : (2 ^ k * m1 <= Zpos M)%Z)
    by (unfold m1; apply Z.mul_div_le; assumption).
  assert (Hrel : (m2 * 2 ^ k * 2 ^ 52 <= Zpos M * (2 ^ 52 + 1))%Z).
  { destruct (Z.eq_dec k 0) as [H0 | Hne].
    - assert (Hm2M : m2 = Zpos M).
      { rewrite Hex; unfold m1; rewrite H0;
          [apply Z.div_1_r | apply Z.mod_1_r]. }
      rewrite Hm2M, H0. change (2 ^ 0)%Z with 1%Z. lia.
    - assert (H52 : (2 ^ k * 2 ^ 52 <= Zpos M)%Z).
      { rewrite <- Z.pow_add_r by lia. eapply Z.le_trans; [|exact Hlo].
        apply Z.pow_le_mono_r; lia. }
      assert (Hm2le : (m2 <= m1 + 1)%Z) by lia.
      revert Hdiv HP H52 Hm2le. generalize (2 ^ k)%Z. intros P.
      change (2 ^ 52)%Z with 4503599627370496%Z. nia. }
  assert (Hpos : 0 <= Py.mag M E * (1 + Py.eps)).
  { pose proof (PyFacts.mag_pos M E). unfold Py.eps. nra. }
  destruct (m2 =? 0)%Z eqn:Hz; [exact Hpos|]. apply Z.eqb_neq in Hz.
  destruct (m2 <? 2 ^ 53)%Z eqn:Hlt.
  - destruct (E + k <=? 971)%Z; [|exact Hpos]. cbn [fmag].
    rewrite (PyFacts.mag_shift _ (m2 * 2 ^ k)%Z) by (rewrite ?Z2Pos.id; lia).
    unfold Py.mag. apply PyFacts.scaled_le; [apply PyFacts.pow2_pos | exact Hrel].
  - destruct (E + k + 1 <=? 971)%Z; [|exact Hpos]. cbn [fmag].
    apply Z.ltb_ge in Hlt. assert (Hm2' : (m2 = 2 ^ 53)%Z) by lia.
    replace (E + k + 1)%Z with (E + (k + 1))%Z by lia.
    rewrite (PyFacts.mag_shift _ (m2 * 2 ^ k)%Z).
    + unfold Py.mag. apply PyFacts.scaled_le; [apply PyFacts.pow2_pos | exact Hrel].
    + lia.
    + rewrite Hm2', Z.pow_add_r by lia.
      change (Zpos (Z.to_pos (2 ^ 52))) with (2 ^ 52)%Z.
      change (2 ^ 53)%Z with (2 ^ 52 * 2 ^ 1)%Z. ring.
Qed.
End UpperFacts.

Module ErrorFacts.
Import BoundFacts DefinedFacts UpperFacts.
Local Open Scope Q_scope.

(** A normal rounding result lies within one relative spacing of the exact
    value, on both sides. *)
Lemma round_aux_bounds s M E :
  2 ^ (-1022) <= Py.mag M E ->
  binary_round_aux 53 1024 s (Zpos M) E loc_Exact = S754_infinity s \/
  exists m e,
    binary_round_aux 53 1024 s (Zpos M) E loc_Exact = S754_finite s m e /\
    Py.mag M E <= Py.mag m e * (1 + Py.eps) /\
    Py.mag m e <= Py.mag M E * (1 + Py.eps).
Proof.
  intros Hn. apply PyFacts.normal_of_mag in Hn.
  pose proof (round_aux_upper s M E Hn) as Hup.
  destruct (PyFacts.round_aux_lower s M E Hn) as [Hinf | (m & e & Heq & Hlo)];
    [left; exact Hinf|].
  right. exists m, e. rewrite Heq in Hup. cbn [fmag] in Hup. auto.
Qed.

Lemma fmul_bounds sx mx ex sc mc ec :
  2 ^ (-1022) <= Py.mag mx ex * Py.mag mc ec ->
  Py.fmul (S754_finite sx mx ex) (S754_finite sc mc ec)
    = S754_infinity (xorb sx sc) \/
  exists m e,
    Py.fmul (S754_finite sx mx ex) (S754_finite sc mc ec)
      = S754_finite (xorb sx sc) m e /\
    Py.mag mx ex * Py.mag mc ec <= Py.mag m e * (1 + Py.eps) /\
    Py.mag m e <= Py.mag mx ex * Py.mag mc ec * (1 + Py.eps).
Proof.
  intros Hn. rewrite <- PyFacts.mag_mul in Hn.
  unfold Py.fmul, SFmul, Py.prec, Py.emax.
  destruct (round_aux_bounds (xorb sx sc) (mx * mc) (ex + ec) Hn)
    as [Hinf | (m & e & Heq & Hlo & Hhi)]; [left; exact Hinf|].
  right. exists m, e. rewrite PyFacts.mag_mul in Hlo, Hhi. auto.
Qed.

Lemma binary_round_bounds s m :
  binary_round 53 1024 s m 0 = S754_infinity s \/
  exists m' e',
    binary_round 53 1024 s m 0 = S754_finite s m' e' /\
    inject_Z (Zpos m) <= Py.mag m' e' * (1 + Py.eps) /\
    Py.mag m' e' <= inject_Z (Zpos m) * (1 + Py.eps).
Proof.
  unfold binary_round.
  destruct (PyFacts.shl_align_spec m 0 (fexp 53 1024 (Zpos (digits2_pos m) + 0)))
    as [Hv _].
  destruct (shl_align m 0 _) as [mz ez]. cbn [fst snd] in Hv.
  assert (H0 : Py.mag m 0 == inject_Z (Zpos m)).
  { unfold Py.mag. change (2 ^ 0) with 1. ring. }
  assert (H1 : 1 <= inject_Z (Zpos m)).
  { change 1 with (inject_Z 1). rewrite <- Zle_Qle. lia. }
  destruct (round_aux_bounds s mz ez) as [Hinf | (m' & e' & Heq & Hlo & Hhi)].
  - rewrite Hv, H0. eapply Qle_trans; [|exact H1]. vm_compute. discriminate.
  - left. exact Hinf.
  - right. exists m', e'. rewrite Hv, H0 in Hlo, Hhi. auto.
Qed.

Lemma float_of_int_bounds n x :
  n <> 0%Z -> Py.float_of_int n = Some x ->
  exists m e, x = S754_finite (n <? 0)%Z m e /\
    inject_Z (Z.abs n) <= Py.mag m e * (1 + Py.eps) /\
    Py.mag m e <= inject_Z (Z.abs n) * (1 + Py.eps).
Proof.
  intros Hn. unfold Py.float_of_int, Py.of_Z, binary_normalize, Py.prec, Py.emax.
  destruct n as [|p|p]; [congruence| |].
  - destruct (binary_round_bounds false p) as [-> | (m & e & -> & Hlo & Hhi)];
      [discriminate|].
    intros [= <-]. exists m, e. auto.
  - destruct (binary_round_bounds true p) as [-> | (m & e & -> & Hlo & Hhi)];
      [discriminate|].
    intros [= <-]. exists m, e. auto.
Qed.
End ErrorFacts.

Module ScaleFacts.
Import BoundFacts DefinedFacts UpperFacts ErrorFacts.
Local Open Scope Q_scope.


End ScaleFacts.

Module WindowFacts.
Import BoundFacts DefinedFacts UpperFacts ErrorFacts.
Local Open Scope Q_scope.

Lemma pow2_quarter a : 2 ^ (a - 2) == 2 ^ a * (1 # 4).
Proof.
  replace (a - 2)%Z with (a + (-2))%Z by lia. rewrite PyFacts.pow2_add.
  reflexivity.
Qed.

Lemma pow2_four b : 2 ^ (b + 2) == 2 ^ b * 4.
Proof. rewrite PyFacts.pow2_add. reflexivity. Qed.

Lemma fmul_window a b x c :
  (-1000 <= a)%Z -> (b <= 1010)%Z -> within a b x -> moderate c ->
  within (a - 2) (b + 2) (Py.fmul x c).
Proof.
  intros Ha Hb (s & m & e & -> & Hm & He & Hlo & Hhi)
         (mc & ec & -> & Hec & Hc1 & Hc2).
  pose proof (PyFacts.mag_pos m e) as HX.
  pose proof (PyFacts.pow2_pos a) as Hpa. pose proof (PyFacts.pow2_pos b) as Hpb.
  assert (Hlow : 2 ^ (-1000) <= 2 ^ a)
    by (apply Qpower_le_compat_l; [assumption | discriminate]).
  assert (Hupp : 2 ^ b <= 2 ^ 1010)
    by (apply Qpower_le_compat_l; [assumption | discriminate]).
  assert (Hfin : Py.is_finite (Py.fmul (S754_finite s m e) (S754_finite false mc ec))
                 = true).
  { unfold Py.fmul, SFmul, Py.prec, Py.emax. apply round_aux_no_overflow; [lia|].
    rewrite PyFacts.mag_mul.
    apply Qle_trans with (2 ^ 1010 * 2); [|vm_compute; discriminate].
    set (U := 2 ^ 1010) in *. set (B := 2 ^ b) in *. nra. }
  assert (Hnorm : 2 ^ (-1022) <= Py.mag m e * Py.mag mc ec).
  { apply Qle_trans with (2 ^ (-1000) * (1 # 2)); [vm_compute; discriminate|].
    set (L := 2 ^ (-1000)) in *. set (A := 2 ^ a) in *. nra. }
  destruct (fmul_bounds s m e false mc ec Hnorm)
    as [Hinf | (m' & e' & Heq & Hplo & Hphi)].
  - rewrite Hinf in Hfin. discriminate Hfin.
  - pose proof (fmul_bounded _ _ Hfin) as Hbd. rewrite Heq in Hbd |- *.
    destruct Hbd as [Hm' He']. rewrite xorb_false_r.
    exists s, m', e'. split; [reflexivity|]. split; [assumption|].
    split; [assumption|].
    rewrite pow2_quarter, pow2_four.
    pose proof (PyFacts.mag_pos m' e') as HX'.
    set (A := 2 ^ a) in *. set (B := 2 ^ b) in *.
    unfold Py.eps in *. split; nra.
Qed.

Lemma float_of_int_within n :
  n <> 0%Z -> (Z.abs n <= 2 ^ 1000)%Z ->
  exists x, Py.float_of_int n = Some x /\ within (-1) 1001 x.
Proof.
  intros Hn Hb.
  assert (Hfin : Py.is_finite (Py.of_Z n) = true).
  { apply of_Z_finite. eapply Z.le_trans; [exact Hb|]. vm_compute. discriminate. }
  assert (Hx : Py.float_of_int n = Some (Py.of_Z n))
    by (unfold Py.float_of_int; rewrite Hfin; reflexivity).
  exists (Py.of_Z n). split; [exact Hx|].
  destruct (float_of_int_bounds n _ Hn Hx) as (m & e & Heq & Hlo & Hhi).
  pose proof (float_of_int_bounded n _ Hx) as Hbd. rewrite Heq in Hbd |- *.
  destruct Hbd as [Hm He].
  exists (n <? 0)%Z, m, e. split; [reflexivity|]. split; [assumption|].
  split; [assumption|].
  assert (H1 : 1 <= inject_Z (Z.abs n)).
  { change 1 with (inject_Z 1). rewrite <- Zle_Qle. lia. }
  assert (H2 : inject_Z (Z.abs n) <= 2 ^ 1000).
  { rewrite PyFacts.pow2_Z by lia. rewrite <- Zle_Qle. assumption. }
  replace 1001%Z with (1000 + 1)%Z by lia. rewrite PyFacts.pow2_add.
  change (2 ^ (-1)) with (1 # 2). change (2 ^ 1) with 2.
  pose proof (PyFacts.mag_pos m e).
  set (U := 2 ^ 1000) in *. unfold Py.eps in *. split; nra.
Qed.

Lemma within_finite a b x : within a b x -> Py.is_finite x = true.
Proof. intros (s & m & e & -> & _). reflexivity. Qed.

Lemma moderate_consts :
  moderate Py.f1_15 /\ moderate Py.f1_05 /\ moderate Py.f0_95 /\
  moderate Py.f1_0 /\ moderate Py.f0_98.
Proof.
  repeat split;
    (eexists _, _; split; [reflexivity|]; split; [cbn; lia|];
     split; vm_compute; discriminate).
Qed.

Lemma fmul_zero_l s x :
  Py.is_finite x = true -> exists s', Py.fmul (S754_zero s) x = S754_zero s'.
Proof. destruct x; try discriminate; intros _; cbn; eauto. Qed.

(** The fair price is defined for every base price of magnitude at most
    [2^1000]. *)
Lemma buyer_fair_defined p :
  (Z.abs (base_market_price p) <= 2 ^ 1000)%Z ->
  exists fair, YourBuyerAgent.calculate_fair_price p = Some fair.
Proof.
  intros Hb. unfold YourBuyerAgent.calculate_fair_price, Py.mul_int_float.
  destruct moderate_consts as (M115 & M105 & M095 & M10 & M098).
  assert (Hq : moderate (YourBuyerAgent._quality_multiplier p)).
  { unfold YourBuyerAgent._quality_multiplier.
    repeat match goal with |- context [if ?c then _ else _] => destruct c end;
      assumption. }
  assert (Ho : moderate (YourBuyerAgent.origin_factor p)).
  { unfold YourBuyerAgent.origin_factor. destruct (Str.mem _ _); assumption. }
  assert (Hv : moderate (YourBuyerAgent.volume_factor p)).
  { unfold YourBuyerAgent.volume_factor. destruct (_ <=? _)%Z; assumption. }
  destruct (Z.eq_dec (base_market_price p) 0) as [H0 | Hne].
  - rewrite H0. change (Py.float_of_int 0) with (Some (S754_zero false)).
    cbn [bind].
    destruct Hq as (? & ? & -> & _), Ho as (? & ? & -> & _), Hv as (? & ? & -> & _).
    cbn. eauto.
  - destruct (float_of_int_within _ Hne Hb) as (x & -> & Hx). cbn [bind].
    assert (H1 := fmul_window (-1) 1001 _ _ ltac:(lia) ltac:(lia) Hx Hq).
    assert (H2 := fmul_window (-1 - 2) (1001 + 2) _ _ ltac:(lia) ltac:(lia) H1 Ho).
    assert (H3 := fmul_window (-1 - 2 - 2) (1001 + 2 + 2) _ _ ltac:(lia) ltac:(lia) H2 Hv).
    unfold Py.round. rewrite (within_finite _ _ _ H3). eauto.
Qed.
End WindowFacts.

(** * The loop returns for agents that return *)

Module TotalFacts.

Lemma int_scaled_moderate n c :
  Z.abs n <= 2 ^ 1000 -> moderate c -> exists t, Py.int_scaled n c = Some t.
Proof.
  intros Hn Hc. unfold Py.int_scaled, Py.mul_int_float.
  destruct (Z.eq_dec n 0) as [-> | Hne].
  - change (Py.float_of_int 0) with (Some (S754_zero false)). cbn [bind].
    destruct Hc as (mc & ec & -> & _). cbn. eauto.
  - destruct (WindowFacts.float_of_int_within n Hne Hn) as (x & -> & Hx).
    cbn [bind]. apply DefinedFacts.int_of_float_defined.
    eapply WindowFacts.within_finite.
    apply (WindowFacts.fmul_window (-1) 1001); [lia | lia | exact Hx | exact Hc].
Qed.

Lemma moderate_seller_consts :
  moderate Py.f1_5 /\ moderate Py.f1_1.
Proof.
  repeat split;
    (eexists _, _; split; [reflexivity|]; split; [cbn; lia|];
     split; vm_compute; discriminate).
Qed.

Lemma float_of_int_defined n :
  Z.abs n <= 2 ^ 1000 -> exists x, Py.float_of_int n = Some x.
Proof.
  intros Hn. unfold Py.float_of_int. rewrite DefinedFacts.of_Z_finite; [eauto|].
  eapply Z.le_trans; [exact Hn|]. vm_compute. discriminate.
Qed.

Lemma mock_opening_defined p :
  Z.abs (base_market_price p) <= 2 ^ 1000 ->
  exists price, MockSellerAgent.get_opening_price p
                = Some (price, MsgAsking price).
Proof.
  intros Hb. unfold MockSellerAgent.get_opening_price.
  destruct (int_scaled_moderate _ _ Hb (proj1 moderate_seller_consts))
    as (t & ->).
  cbn [bind]. eauto.
Qed.

Lemma mock_respond_defined min_price buyer_offer round_num :
  Z.abs min_price <= 2 ^ 1000 -> Z.abs buyer_offer <= 2 ^ 1000 ->
  exists counter msg accepts,
    MockSellerAgent.respond_to_buyer min_price buyer_offer round_num
    = Some (counter, msg, accepts).
Proof.
  intros Hm Ho. unfold MockSellerAgent.respond_to_buyer, Py.mul_int_float.
  destruct (float_of_int_defined _ Hm) as (x & ->). cbn [bind].
  destruct WindowFacts.moderate_consts as (M115 & M105 & _).
  destruct (int_scaled_moderate _ _ Ho M115) as (t1 & ->).
  destruct (int_scaled_moderate _ _ Ho M105) as (t2 & ->).
  cbn [bind].
  destruct (Py.ge _ _); [eauto|]. destruct (8 <=? round_num); eauto.
Qed.

Section Returning.

Variable buyer_agent : BaseBuyerAgent.
Variable seller_min : Z.
Hypothesis agent_returns : returning_agent buyer_agent.
Hypothesis seller_min_bounded : Z.abs seller_min <= 2 ^ 1000.

Lemma round_body_defined round_num s :
  exists s' f, round_body buyer_agent seller_min round_num s = Some (s', f).
Proof.
  unfold round_body, buyer_turn. destruct agent_returns as [Hg Hr].
  set (context := set_round (ls_context s) (round_num + 1)).
  assert (Ht : exists status offer msg,
             (if round_num =? 0
              then '(buyer_offer, buyer_msg) <-
                     generate_opening_offer buyer_agent context ;;
                   Some (ONGOING, buyer_offer, buyer_msg)
              else respond_to_seller_offer buyer_agent context
                     (ls_seller_price s) (ls_seller_msg s))
             = Some (status, offer, msg) /\ Z.abs offer <= 2 ^ 1000).
  { destruct (round_num =? 0).
    - destruct (Hg context) as (o & m & -> & Ho). cbn [bind]. eauto 6.
    - apply Hr. }
  destruct Ht as (status & offer & msg & -> & Ho). cbn [bind].
  destruct (DealStatus_eqb status ACCEPTED); [eauto|].
  destruct (mock_respond_defined seller_min offer round_num seller_min_bounded Ho)
    as (counter & m & accepts & ->).
  cbn [bind]. destruct accepts; eauto.
Qed.

Lemma for_rounds_defined rounds s :
  exists s', for_rounds buyer_agent seller_min rounds s = Some s'.
Proof.
  revert s. induction rounds as [|r rest IH]; intros s; cbn [for_rounds].
  - eauto.
  - destruct (round_body_defined r s) as (s1 & f & ->). cbn [bind].
    destruct f; [apply IH | eauto].
Qed.

Lemma negotiation_loop_defined p buyer_budget :
  Z.abs (base_market_price p) <= 2 ^ 1000 ->
  exists s, negotiation_loop buyer_agent seller_min p buyer_budget = Some s.
Proof.
  intros Hb. unfold negotiation_loop, initial_state.
  destruct (mock_opening_defined p Hb) as (price & ->). cbn [bind].
  apply for_rounds_defined.
Qed.

End Returning.

Lemma fixed_offer_returns offer :
  Z.abs offer <= 2 ^ 1000 -> returning_agent (fixed_offer_agent offer).
Proof.
  intros H. split; intros; cbn; eauto 7.
Qed.

End TotalFacts.

(** * Facts for the further properties *)

(** ** The mock seller *)

Module MockFacts.

(** The three outcomes of [respond_to_buyer]. *)
Lemma respond_cases min_price buyer_offer round_num price msg accepts :
  MockSellerAgent.respond_to_buyer min_price buyer_offer round_num
    = Some (price, msg, accepts) ->
  accepts = true /\ price = buyer_offer /\
  (0 <= min_price -> min_price <= buyer_offer) \/
  accepts = false /\ min_price <= price /\ buyer_offer <= price.
Proof.
  intros H. destruct accepts.
  - left. split; [reflexivity|].
    unfold MockSellerAgent.respond_to_buyer in H.
    apply bind_Some in H as (thr & E & H).
    destruct (Py.ge (Py.Int buyer_offer) (Py.Float thr)) eqn:Hge.
    + injection H as <- _. split; [reflexivity|]. intros Hm.
      pose proof (FloatFacts.scaled_value_ge _ _ _ NumFacts.growth_1_1 Hm E)
        as Hle.
      unfold Py.ge in Hge. cbn [Py.xv] in Hge.
      pose proof (NumFacts.xle_trans _ _ _ Hle Hge) as Ht.
      cbn [Py.xle] in Ht. apply Qle_bool_iff in Ht.
      rewrite <- Zle_Qle in Ht. exact Ht.
    + destruct (8 <=? round_num); apply bind_Some in H as (raised & _ & H);
        discriminate H.
  - right. split; [reflexivity|].
    pose proof (SellerFacts.mock_counter_ge _ _ _ _ _ H) as Hge.
    split; [|exact Hge].
    unfold MockSellerAgent.respond_to_buyer in H.
    apply bind_Some in H as (thr & E & H).
    destruct (Py.ge (Py.Int buyer_offer) (Py.Float thr)); [discriminate|].
    destruct (8 <=? round_num); apply bind_Some in H as (raised & _ & H);
      injection H as <- _; lia.
Qed.

End MockFacts.

(** ** Conversations and histories *)

Module ConversationFacts.

Lemma alternating_snoc l : forall r m,
  alternating r l ->
  alternating r
    (l ++ [(if Nat.even (List.length l) then r else other_role r, m)]).
Proof.
  induction l as [|[r' m'] l IH]; intros r m H.
  - cbn. auto.
  - destruct H as [-> H]. cbn [app alternating List.length]. split; [reflexivity|].
    specialize (IH (other_role r) m H).
    rewrite Nat.even_succ, <- Nat.negb_even.
    destruct (Nat.even (List.length l)); cbn [negb] in *;
      [|destruct r]; exact IH.
Qed.

Lemma even_double_succ k : Nat.even (S (2 * k)) = false.
Proof.
  rewrite Nat.even_succ, <- Nat.negb_even.
  replace (2 * k)%nat with (0 + 2 * k)%nat by lia.
  rewrite Nat.even_add_mul_2. reflexivity.
Qed.

Lemma even_double k : Nat.even (2 * k) = true.
Proof.
  replace (2 * k)%nat with (0 + 2 * k)%nat by lia.
  rewrite Nat.even_add_mul_2. reflexivity.
Qed.

End ConversationFacts.

(** ** The negotiation loop, for any buyer agent: histories *)

Section HistoryLoop.

Variable agent : BaseBuyerAgent.
Variable seller_min : Z.

(** A loop invariant [I] whose iterations end in [Q] when they break. *)
Lemma for_rounds_invariant (I : nat -> loop_state -> Prop)
    (Q : nat -> loop_state -> Prop) :
  (forall k s s' f,
      I k s ->
      round_body agent seller_min (Z.of_nat k) s = Some (s', f) ->
      match f with Next => I (S k) s' | Break => Q k s' end) ->
  forall n k s s',
    I k s ->
    for_rounds agent seller_min (map Z.of_nat (seq k n)) s = Some s' ->
    I (k + n)%nat s' \/ exists j, (k <= j < k + n)%nat /\ Q j s'.
Proof.
  intros Hstep. induction n as [|n IH]; intros k s s' Hi H.
  - injection H as <-. left. rewrite Nat.add_0_r. exact Hi.
  - cbn [seq map for_rounds] in H. bind_inv H. destruct v as [s1 f].
    specialize (Hstep k s s1 f Hi E). destruct f.
    + destruct (IH (S k) s1 s' Hstep H) as [Hn | (j & Hj & Hq)].
      * left. replace (k + S n)%nat with (S k + n)%nat by lia. exact Hn.
      * right. exists j. split; [lia | exact Hq].
    + injection H as <-. right. exists k. split; [lia | exact Hstep].
Qed.

Lemma buyer_turn_opening context sp sm st bo msg :
  buyer_turn agent 0 context sp sm = Some (st, bo, msg) -> st = ONGOING.
Proof.
  unfold buyer_turn. cbn. intros H. bind_inv H. destruct v.
  injection H as <- _ _. reflexivity.
Qed.

Lemma round_body_history k s s' f :
  history_inv seller_min k s ->
  round_body agent seller_min (Z.of_nat k) s = Some (s', f) ->
  match f with
  | Next => history_inv seller_min (S k) s'
  | Break => deal_post seller_min k s'
  end.
Proof.
  intros (Hy & Hs & Hl & Hm & Ha & Hn & Hd & Hf) H.
  unfold round_body in H. bind_inv H. destruct v as [[st bo] bmsg].
  assert (Halt1 : alternating RoleSeller
                    (messages (ls_context s) ++ [(RoleBuyer, bmsg)])).
  { pose proof (ConversationFacts.alternating_snoc _ RoleSeller bmsg Ha) as Hx.
    rewrite Hn, ConversationFacts.even_double_succ in Hx. exact Hx. }
  assert (Halt2 : forall m, alternating RoleSeller
                    ((messages (ls_context s) ++ [(RoleBuyer, bmsg)])
                       ++ [(RoleSeller, m)])).
  { intros m.
    pose proof (ConversationFacts.alternating_snoc _ RoleSeller m Halt1) as Hx.
    rewrite List.length_app, Hn in Hx. cbn [List.length] in Hx.
    replace (S (2 * k) + 1)%nat with (2 * S k)%nat in Hx by lia.
    rewrite ConversationFacts.even_double in Hx. exact Hx. }
  destruct (DealStatus_eqb st ACCEPTED) eqn:Hacc.
  - injection H as <- <-. apply DealStatus_eqb_eq in Hacc. subst st.
    assert (Hk : (1 <= k)%nat).
    { destruct k as [|k]; [|lia]. cbn [Z.of_nat] in E.
      apply buyer_turn_opening in E. discriminate E. }
    unfold deal_post. cbn.
    rewrite !List.length_app, Hy, Hs, Hn. cbn [List.length].
    split; [lia|]. split; [reflexivity|]. split; [exact Halt1|].
    split; [reflexivity|]. exists (ls_seller_price s).
    split; [reflexivity|]. left. repeat split; auto; lia.
  - bind_inv H. destruct v as [[sp' smsg] acc].
    apply MockFacts.respond_cases in E0
      as [(-> & -> & Hfloor) | (-> & Hmin & Hge)].
    + injection H as <- <-. unfold deal_post. cbn.
      rewrite !List.length_app, Hy, Hs, Hn. cbn [List.length].
      split; [lia|]. split; [reflexivity|]. split; [apply Halt2|].
      split; [reflexivity|]. exists bo. split; [reflexivity|]. right.
      rewrite HistoryFacts.last_item_snoc. repeat split; auto; lia.
    + injection H as <- <-. unfold history_inv. cbn.
      rewrite !List.length_app, Hy, Hs, Hn. cbn [List.length].
      rewrite HistoryFacts.last_item_snoc.
      repeat split; auto; lia.
Qed.

Lemma initial_history p buyer_budget s0 :
  initial_state p buyer_budget = Some s0 -> history_inv seller_min 0 s0.
Proof.
  unfold initial_state. intros H. bind_inv H. destruct v as [sp sm].
  injection H as <-. unfold history_inv. cbn. repeat split; auto; lia.
Qed.

(** The state in which the loop ends. *)
Lemma negotiation_loop_history p buyer_budget s :
  negotiation_loop agent seller_min p buyer_budget = Some s ->
  history_inv seller_min 10 s \/
  exists k, (k < 10)%nat /\ deal_post seller_min k s.
Proof.
  intros H. unfold negotiation_loop in H. bind_inv H. rename v into s0.
  pose proof (initial_history _ _ _ E) as Hi.
  destruct (for_rounds_invariant (history_inv seller_min)
              (deal_post seller_min) round_body_history 10 0 s0 s Hi H)
    as [Hn | (j & Hj & Hq)].
  - left. exact Hn.
  - right. exists j. split; [lia | exact Hq].
Qed.

End HistoryLoop.

Section CheckedHistory.

Variable agent : BaseBuyerAgent.
Variable seller_min : Z.

(** An agent that checks the history it is given behaves as the agent it
    wraps. *)
Lemma round_body_checking k s :
  history_inv seller_min k s ->
  round_body (checking_history agent) seller_min (Z.of_nat k) s
  = round_body agent seller_min (Z.of_nat k) s.
Proof.
  intros (Hy & Hs & Hl & _). unfold round_body. f_equal. unfold buyer_turn.
  cbn [checking_history generate_opening_offer respond_to_seller_offer
       set_round current_round your_offers seller_offers
       analyze_negotiation_progress last_seller].
  destruct (Z.of_nat k =? 0) eqn:Hz.
  - apply Z.eqb_eq in Hz. destruct k as [|k]; [|lia].
    destruct (your_offers (ls_context s)); [|discriminate Hy].
    destruct (seller_offers (ls_context s)) as [|a [|b r]];
      try discriminate Hs.
    reflexivity.
  - rewrite Hy, Hs, Hl, Z.eqb_refl, Nat.eqb_refl, Z.eqb_refl. reflexivity.
Qed.

Lemma for_rounds_checking n : forall k s,
  history_inv seller_min k s ->
  for_rounds (checking_history agent) seller_min (map Z.of_nat (seq k n)) s
  = for_rounds agent seller_min (map Z.of_nat (seq k n)) s.
Proof.
  induction n as [|n IH]; intros k s Hi; [reflexivity|].
  cbn [seq map for_rounds]. rewrite round_body_checking by assumption.
  destruct (round_body agent seller_min (Z.of_nat k) s) as [[s1 f]|] eqn:E;
    [|reflexivity].
  cbn [bind]. destruct f; [|reflexivity].
  apply IH. exact (round_body_history agent seller_min k s s1 Next Hi E).
Qed.

End CheckedHistory.

(** ** The negotiation loop, for [YourBuyerAgent]: deals *)

Module DealFacts.

(** An iteration that ends in a deal: the price is within budget and is the
    buyer offer recorded last. *)
Lemma round_body_deal seller_min budget k s s' :
  loop_inv budget k s ->
  round_body your_buyer_agent seller_min (Z.of_nat k) s = Some (s', Break) ->
  exists fp, ls_final_price s' = Some fp /\ fp <= budget /\
             last_item (your_offers (ls_context s')) = Some fp.
Proof.
  intros (Hb & Hlen & Hs & Hl) H. unfold round_body in H.
  bind_inv H. destruct v as [[st bo] bmsg].
  assert (Hbo : bo <= budget /\ (st = ACCEPTED -> bo = ls_seller_price s)).
  { unfold buyer_turn in E. destruct (Z.of_nat k =? 0).
    - bind_inv E. destruct v as [o m]. injection E as <- <- <-.
      apply BuyerFacts.opening_within_budget in E0.
      cbn [set_round your_budget] in E0. split; [lia | discriminate].
    - cbn [respond_to_seller_offer your_buyer_agent] in E.
      apply BuyerFacts.respond_summary in E as (Hle & [[-> ->] | [-> _]]);
        cbn [set_round your_budget] in Hle.
      + split; [lia | reflexivity].
      + split; [lia | discriminate]. }
  destruct Hbo as [Hbo Hacc'].
  destruct (DealStatus_eqb st ACCEPTED) eqn:Hacc.
  - apply DealStatus_eqb_eq in Hacc. specialize (Hacc' Hacc).
    injection H as <-. cbn. exists (ls_seller_price s).
    rewrite HistoryFacts.last_item_snoc. repeat split; [lia | congruence].
  - bind_inv H. destruct v as [[sp' smsg] acc]. destruct acc; [|discriminate].
    injection H as <-. cbn. exists bo.
    rewrite HistoryFacts.last_item_snoc. auto.
Qed.

(** A deal of a run with [YourBuyerAgent]. *)
Lemma negotiation_loop_deal seller_min p buyer_budget s :
  negotiation_loop your_buyer_agent seller_min p buyer_budget = Some s ->
  ls_deal_made s = true ->
  exists fp, ls_final_price s = Some fp /\ fp <= buyer_budget /\
             last_item (your_offers (ls_context s)) = Some fp.
Proof.
  intros H Hd. unfold negotiation_loop in H. bind_inv H. rename v into s0.
  destruct (initial_state_shape _ _ _ E) as (Hoff & _ & Hbud & Hdm & Hfp).
  assert (Hi : loop_inv buyer_budget 0 s0).
  { unfold loop_inv. rewrite Hoff. cbn. repeat split; try assumption.
    all: discriminate. }
  destruct (for_rounds_invariant your_buyer_agent seller_min
              (fun k s => loop_inv buyer_budget k s /\ ls_deal_made s = false)
              (fun _ s' => exists fp, ls_final_price s' = Some fp /\
                                      fp <= buyer_budget /\
                                      last_item (your_offers (ls_context s'))
                                      = Some fp))
    with (n := 10%nat) (k := 0%nat) (s := s0) (s' := s)
    as [[_ Hn] | (j & _ & Hq)]; auto.
  - intros k s1 s2 f [Hinv Hnd] Hr. destruct f.
    + split; [apply (RunFacts.round_body_step _ _ _ _ _ _ Hinv Hr);
              reflexivity|].
      destruct (round_body_shape _ _ _ _ _ _ Hr) as (_ & _ & _ & Hf & _).
      congruence.
    + eapply round_body_deal; eassumption.
  - congruence.
Qed.

End DealFacts.

(** ** Scaling a price by two constants *)

Module LadderFacts.
Local Open Scope Q_scope.

(** [n * c] for a positive [n] and a positive constant of at least one
    quarter: within two rounding errors of the exact product. *)
Lemma mul_int_float_bounds n mc ec r :
  (0 < n)%Z -> 1 # 4 <= Py.mag mc ec ->
  Py.mul_int_float n (S754_finite false mc ec) = Some r ->
  r = S754_infinity false \/
  exists m e, r = S754_finite false m e /\
    inject_Z n * Py.mag mc ec <= Py.mag m e * ((1 + Py.eps) * (1 + Py.eps)) /\
    Py.mag m e <= inject_Z n * Py.mag mc ec * ((1 + Py.eps) * (1 + Py.eps)).
Proof.
  intros Hn Hc H. unfold Py.mul_int_float in H.
  apply bind_Some in H as (x & Hx & H). injection H as <-.
  destruct (ErrorFacts.float_of_int_bounds n x ltac:(lia) Hx)
    as (mx & ex & -> & Hlo & Hhi).
  replace (n <? 0)%Z with false in * by (symmetry; apply Z.ltb_ge; lia).
  rewrite Z.abs_eq in Hlo, Hhi by lia.
  assert (H1 : 1 <= inject_Z n).
  { change 1 with (inject_Z 1). rewrite <- Zle_Qle. lia. }
  pose proof (PyFacts.mag_pos mx ex) as HX.
  pose proof (PyFacts.mag_pos mc ec) as HC.
  assert (Hnorm : 2 ^ (-1022) <= Py.mag mx ex * Py.mag mc ec).
  { apply Qle_trans with (1 # 8); [vm_compute; discriminate|].
    unfold Py.eps in *. nra. }
  destruct (ErrorFacts.fmul_bounds false mx ex false mc ec Hnorm)
    as [Hinf | (m & e & Heq & Hplo & Hphi)]; [left; exact Hinf|].
  right. exists m, e. split; [exact Heq|].
  pose proof (PyFacts.mag_pos m e) as Hq.
  unfold Py.eps in *. split; nra.
Qed.

(** The same price scaled by a smaller and by a greater constant. *)
Lemma int_scaled_le_const n m1 e1 m2 e2 t1 t2 :
  (0 <= n)%Z -> 1 # 4 <= Py.mag m1 e1 ->
  Py.mag m1 e1 * ((1 + Py.eps) * (1 + Py.eps)) <= Py.mag m2 e2 ->
  Py.int_scaled n (S754_finite false m1 e1) = Some t1 ->
  Py.int_scaled n (S754_finite false m2 e2) = Some t2 ->
  (t1 <= t2)%Z.
Proof.
  intros Hn Hc Hord H1 H2.
  destruct (Z.eq_dec n 0) as [-> | Hne].
  - cbv in H1. cbv in H2. congruence.
  - unfold Py.int_scaled, Py.mul_int_float in H1, H2.
    apply bind_Some in H1 as (r1 & Hr1 & H1).
    apply bind_Some in H2 as (r2 & Hr2 & H2).
    apply bind_Some in Hr1 as (x & Hx & Hr1). rewrite Hx in Hr2.
    cbn [bind] in Hr2. injection Hr1 as <-. injection Hr2 as <-.
    destruct (ErrorFacts.float_of_int_bounds n x Hne Hx)
      as (mx & ex & -> & Hlo & Hhi).
    replace (n <? 0)%Z with false in * by (symmetry; apply Z.ltb_ge; lia).
    rewrite Z.abs_eq in Hlo, Hhi by lia.
    assert (Hn1 : 1 <= inject_Z n).
    { change 1 with (inject_Z 1). rewrite <- Zle_Qle. lia. }
    pose proof (PyFacts.mag_pos mx ex) as HX.
    pose proof (PyFacts.mag_pos m1 e1) as HC1.
    pose proof (PyFacts.mag_pos m2 e2) as HC2.
    assert (Hnorm1 : 2 ^ (-1022) <= Py.mag mx ex * Py.mag m1 e1).
    { apply Qle_trans with (1 # 8); [vm_compute; discriminate|].
      unfold Py.eps in *. nra. }
    assert (Hnorm2 : 2 ^ (-1022) <= Py.mag mx ex * Py.mag m2 e2).
    { apply Qle_trans with (1 # 8); [vm_compute; discriminate|].
      unfold Py.eps in *. nra. }
    destruct (ErrorFacts.fmul_bounds false mx ex false m1 e1 Hnorm1)
      as [Hinf | (ma & ea & Heq1 & _ & Hup)]; rewrite ?Hinf, ?Heq1 in H1;
      [discriminate H1|].
    destruct (ErrorFacts.fmul_bounds false mx ex false m2 e2 Hnorm2)
      as [Hinf | (mb & eb & Heq2 & Hdn & _)]; rewrite ?Hinf, ?Heq2 in H2;
      [discriminate H2|].
    unfold Py.int_of_float in H1, H2.
    cbn [Py.is_finite Py.F2Q cond_Zopp xorb] in H1, H2.
    injection H1 as <-. injection H2 as <-. apply NumFacts.trunc_mono.
    fold (Py.mag ma ea). fold (Py.mag mb eb).
    pose proof (PyFacts.mag_pos ma ea). pose proof (PyFacts.mag_pos mb eb).
    unfold Py.eps in *. nra.
Qed.

(** A price scaled by a constant below one does not grow, and stays
    non-negative. *)
Lemma int_scaled_le n mc ec t :
  (0 <= n)%Z -> 1 # 4 <= Py.mag mc ec ->
  Py.mag mc ec * ((1 + Py.eps) * (1 + Py.eps)) <= 1 ->
  Py.int_scaled n (S754_finite false mc ec) = Some t ->
  (0 <= t <= n)%Z.
Proof.
  intros Hn Hc Hle H. destruct (Z.eq_dec n 0) as [-> | Hne].
  - cbv in H. injection H as <-. lia.
  - unfold Py.int_scaled in H. apply bind_Some in H as (r & Hr & H).
    destruct (mul_int_float_bounds n mc ec r ltac:(lia) Hc Hr)
      as [-> | (m & e & -> & Hlo & Hhi)]; [discriminate H|].
    unfold Py.int_of_float in H. cbn [Py.is_finite Py.F2Q cond_Zopp] in H.
    injection H as <-. fold (Py.mag m e).
    pose proof (PyFacts.mag_pos m e) as Hq.
    assert (Hn1 : 1 <= inject_Z n).
    { change 1 with (inject_Z 1). rewrite <- Zle_Qle. lia. }
    pose proof (PyFacts.mag_pos mc ec) as HC.
    split.
    + apply NumFacts.trunc_ge. change (inject_Z 0) with 0. lra.
    + apply NumFacts.trunc_le. unfold Py.eps in *. nra.
Qed.

Lemma shrinking_0_98 : shrinking Py.f0_98.
Proof. split; [cbn; lia | vm_compute; discriminate]. Qed.

Lemma shrinking_0_90 : shrinking Py.f0_90.
Proof. split; [cbn; lia | vm_compute; discriminate]. Qed.

Lemma shrinking_0_92 : shrinking Py.f0_92.
Proof. split; [cbn; lia | vm_compute; discriminate]. Qed.

Lemma shrinking_0_015 : shrinking Py.f0_015.
Proof. split; [cbn; lia | vm_compute; discriminate]. Qed.

End LadderFacts.

(** ** The buyer: thresholds and counters *)

Module ThresholdFacts.
Import YourBuyerAgent.

Lemma buyer_fair_nonneg p fair :
  0 <= base_market_price p -> calculate_fair_price p = Some fair -> 0 <= fair.
Proof.
  intros Hb H. unfold calculate_fair_price in H.
  apply bind_Some in H as (x & E & H).
  eapply FloatFacts.round_nonneg; [|exact H].
  apply FloatFacts.fmul_nonneg; [apply FloatFacts.fmul_nonneg|].
  - unfold Py.mul_int_float in E. apply bind_Some in E as (y & E0 & E).
    injection E as <-.
    unfold Py.float_of_int in E0. destruct (Py.is_finite _); [|discriminate].
    injection E0 as <-.
    apply FloatFacts.fmul_nonneg; [apply FloatFacts.of_Z_nonneg; assumption|].
    unfold _quality_multiplier.
    repeat match goal with
           | |- context [if ?b then _ else _] => destruct b
           end;
      eexists _, _; reflexivity.
  - unfold origin_factor. destruct (Str.mem _ _); eexists _, _; reflexivity.
  - unfold volume_factor. destruct (_ <=? _); eexists _, _; reflexivity.
Qed.

(** The thresholds of the strategy, in the order of their constants. *)
Lemma ladder fair t78 t85 t88 t90 t92 t97 :
  0 <= fair ->
  Py.int_scaled fair Py.f0_78 = Some t78 ->
  Py.int_scaled fair Py.f0_85 = Some t85 ->
  Py.int_scaled fair Py.f0_88 = Some t88 ->
  Py.int_scaled fair Py.f0_90 = Some t90 ->
  Py.int_scaled fair Py.f0_92 = Some t92 ->
  Py.int_scaled fair Py.f0_97 = Some t97 ->
  0 <= t78 /\ t78 <= t85 /\ t85 <= t88 /\ t88 <= t90 /\ t90 <= t92 /\
  t92 <= t97 /\ t97 <= fair.
Proof.
  intros Hf H78 H85 H88 H90 H92 H97.
  assert (H0 : 0 <= t78 <= fair).
  { eapply (LadderFacts.int_scaled_le fair); [exact Hf | | | exact H78];
      vm_compute; discriminate. }
  assert (H1 : 0 <= t97 <= fair).
  { eapply (LadderFacts.int_scaled_le fair); [exact Hf | | | exact H97];
      vm_compute; discriminate. }
  repeat split; try lia;
    match goal with
    | |- ?a <= ?b =>
        match goal with
        | Ha : Py.int_scaled fair _ = Some a,
          Hb : Py.int_scaled fair _ = Some b |- _ =>
            eapply (LadderFacts.int_scaled_le_const fair);
            [exact Hf | | | exact Ha | exact Hb]; vm_compute; discriminate
        end
    end.
Qed.

(** A counter is below the price it answers. *)
Lemma ongoing_below context sp sm price msg :
  respond_to_seller_offer context sp sm = Some (ONGOING, price, msg) ->
  price < sp.
Proof.
  unfold respond_to_seller_offer. intros H.
  bind_inv H. rename v into fair. bind_inv H. destruct v as [low high].
  destruct ((sp <=? your_budget context) && (low <=? sp) && (sp <=? high));
    [discriminate|].
  bind_inv H. destruct v; [discriminate|].
  bind_inv H. destruct v as [last proposed].
  bind_inv H. destruct v; [discriminate|].
  destruct (sp <=? Z.min (your_budget context) proposed) eqn:Hd;
    [discriminate|].
  injection H as <- _. apply Z.leb_gt in Hd. lia.
Qed.

End ThresholdFacts.

(** ** The reference agent and the mock buyer *)

Module ExampleFacts.

(** A non-negative price scaled by a constant below one, as a float, is at
    most the price. *)
Lemma scaled_value_le n mc ec r :
  0 <= n -> ec <= 0 -> (1 # 4 <= Py.mag mc ec)%Q ->
  (Py.mag mc ec * ((1 + Py.eps) * (1 + Py.eps)) <= 1)%Q ->
  Py.mul_int_float n (S754_finite false mc ec) = Some r ->
  Py.xle (Py.xval_of_float r) (Py.XFin (inject_Z n)) = true.
Proof.
  intros Hn He Hc Hle H. destruct (Z.eq_dec n 0) as [-> | Hne].
  - cbv in H. injection H as <-. reflexivity.
  - destruct (LadderFacts.mul_int_float_bounds n mc ec r ltac:(lia) Hc H)
      as [-> | (m & e & -> & Hlo & Hhi)].
    + exfalso. unfold Py.mul_int_float in H.
      apply bind_Some in H as (x & Hx & H). injection H as H.
      pose proof (DefinedFacts.float_of_int_bounded n x Hx) as Hb.
      assert (Hs : shrinking (S754_finite false mc ec)).
      { split; [exact He|]. pose proof (PyFacts.mag_pos mc ec).
        unfold Py.eps in *. nra. }
      pose proof (DefinedFacts.fmul_shrink _ _ Hb Hs) as Hfin.
      rewrite H in Hfin. discriminate Hfin.
    + cbn [Py.xval_of_float Py.xle]. apply Qle_bool_iff.
      cbn [Py.F2Q cond_Zopp]. fold (Py.mag m e).
      assert (Hn1 : (1 <= inject_Z n)%Q).
      { change 1%Q with (inject_Z 1). rewrite <- Zle_Qle. lia. }
      pose proof (PyFacts.mag_pos mc ec). pose proof (PyFacts.mag_pos m e).
      unfold Py.eps in *. nra.
Qed.

(** The results of [ExampleSimpleAgent.respond_to_seller_offer]. *)
Lemma example_respond_inv context sp sm st price msg :
  ExampleSimpleAgent.respond_to_seller_offer context sp sm
    = Some (st, price, msg) ->
  st = ACCEPTED /\ price = sp /\ sp <= your_budget context /\
  (exists limit,
      Py.mul_int_float (base_market_price (product context)) Py.f0_85
        = Some limit /\
      Py.le (Py.Int sp) (Py.Float limit) = true) \/
  st = ONGOING /\ price = Z.min (sp - 1000) (your_budget context) \/
  st = ONGOING /\ price <= your_budget context /\
  exists near, Py.mul_int_float sp Py.f0_95 = Some near /\
               Py.ge (Py.Int price) (Py.Float near) = false.
Proof.
  unfold ExampleSimpleAgent.respond_to_seller_offer. intros H.
  bind_inv H. destruct v.
  - injection H as <- <- _. left.
    destruct (sp <=? your_budget context) eqn:Hb; [|discriminate].
    bind_inv E. injection E as E. apply Z.leb_le in Hb. eauto 8.
  - right. bind_inv H. rename v into raised. bind_inv H. rename v into near.
    destruct (Py.ge _ _) eqn:Hge.
    + injection H as <- <- _. left. auto.
    + injection H as <- <- _. right. split; [reflexivity|].
      split; [lia|]. eauto.
Qed.

End ExampleFacts.

(** ** The seller: thresholds *)

Module SellerThresholdFacts.
Import YourSellerAgent.

Lemma fair_convertible p fair :
  fair_price p = Some fair -> exists x, Py.float_of_int fair = Some x.
Proof.
  unfold fair_price. intros H. apply bind_Some in H as (x & _ & H).
  eapply DefinedFacts.round_convertible; [|exact H].
  apply DefinedFacts.fmul_bounded. unfold Py.round in H.
  destruct (Py.is_finite _); [reflexivity | discriminate].
Qed.

(** The acceptance threshold [int(fair * 0.98)] exists, and is at most each
    bound of the seller's zone. *)
Lemma threshold_98 p fair low high :
  0 <= fair -> fair_price p = Some fair -> seller_zone p = Some (low, high) ->
  exists t98, Py.int_scaled fair Py.f0_98 = Some t98 /\
              0 <= t98 <= fair /\ t98 <= low /\ low <= high /\ fair <= high.
Proof.
  intros Hfair Hf Hz. destruct (fair_convertible p fair Hf) as (x & Hx).
  destruct (DefinedFacts.int_scaled_defined fair x _ Hx LadderFacts.shrinking_0_98)
    as (t98 & H98).
  unfold seller_zone in Hz. rewrite Hf in Hz. cbn [bind] in Hz.
  apply bind_Some in Hz as (l & Hl & Hz). apply bind_Some in Hz as (h & Hh & Hz).
  injection Hz as <- <-.
  exists t98. split; [exact H98|]. split; [|split; [|split]].
  - eapply (LadderFacts.int_scaled_le fair); [exact Hfair | | | exact H98];
      vm_compute; discriminate.
  - eapply (LadderFacts.int_scaled_le_const fair);
      [exact Hfair | | | exact H98 | exact Hl]; vm_compute; discriminate.
  - eapply (LadderFacts.int_scaled_le_const fair);
      [exact Hfair | | | exact Hl | exact Hh]; vm_compute; discriminate.
  - eapply FloatFacts.int_scaled_ge; [|exact Hfair | exact Hh].
    eexists _, _. split; [reflexivity|]. vm_compute. discriminate.
Qed.

End SellerThresholdFacts.

(** ** Intervals of products *)

Module IntervalFacts.
Local Open Scope Q_scope.

(** [round] moves a value by at most one half. *)
Lemma round_half_even_near q :
  q - (1 # 2) <= inject_Z (Py.round_half_even q) <= q + (1 # 2).
Proof.
  unfold Py.round_half_even.
  pose proof (Qfloor_le q) as Hfl. pose proof (Qlt_floor q) as Hlt.
  rewrite inject_Z_plus in Hlt. change (inject_Z 1) with 1 in Hlt.
  destruct (q - inject_Z (Qfloor q) ?= 1 # 2) eqn:Hc.
  - apply Qeq_alt in Hc. destruct (Z.even (Qfloor q));
      rewrite ?inject_Z_plus; change (inject_Z 1) with 1; split; lra.
  - apply Qlt_alt in Hc. split; lra.
  - apply Qgt_alt in Hc. rewrite inject_Z_plus. change (inject_Z 1) with 1.
    split; lra.
Qed.

(** The product of a positive float in [[L, U]] by a positive constant in
    [[lo, hi]]. *)
Lemma fmul_interval mx ex mc ec (L U lo hi : Q) :
  1 # 2 <= L -> L <= Py.mag mx ex <= U ->
  1 # 2 <= lo -> lo <= Py.mag mc ec <= hi ->
  Py.fmul (S754_finite false mx ex) (S754_finite false mc ec)
    = S754_infinity false \/
  exists m e,
    Py.fmul (S754_finite false mx ex) (S754_finite false mc ec)
      = S754_finite false m e /\
    L * lo * (999999999 # 1000000000) <= Py.mag m e
      <= U * hi * (1000000001 # 1000000000).
Proof.
  intros HL [Hx1 Hx2] Hlo [Hc1 Hc2].
  assert (Hprod : L * lo <= Py.mag mx ex * Py.mag mc ec) by nra.
  assert (Hprod2 : Py.mag mx ex * Py.mag mc ec <= U * hi) by nra.
  assert (Hnorm : 2 ^ (-1022) <= Py.mag mx ex * Py.mag mc ec).
  { apply Qle_trans with (1 # 4); [vm_compute; discriminate | nra]. }
  destruct (ErrorFacts.fmul_bounds false mx ex false mc ec Hnorm)
    as [Hinf | (m & e & Heq & Hplo & Hphi)]; [left; exact Hinf|].
  right. exists m, e. split; [exact Heq|].
  pose proof (PyFacts.mag_pos m e) as Hq.
  set (P := Py.mag mx ex * Py.mag mc ec) in *.
  set (R := Py.mag m e) in *. set (A := L * lo) in *. set (B := U * hi) in *.
  assert (HA : 1 # 4 <= A) by (unfold A; nra).
  unfold Py.eps in *. split; nra.
Qed.

End IntervalFacts.

Module FairFacts.
Local Open Scope Q_scope.

(** The rounded product of a positive price by three constants near one. *)
Lemma triple_product n c1 c2 c3 z (l1 h1 l2 h2 l3 h3 : Q) :
  (0 < n)%Z ->
  9 # 10 <= l1 -> 9 # 10 <= l2 -> 9 # 10 <= l3 ->
  in_range c1 l1 h1 -> in_range c2 l2 h2 -> in_range c3 l3 h3 ->
  (x <- Py.mul_int_float n c1 ;; Py.round (Py.fmul (Py.fmul x c2) c3)) = Some z ->
  let k := 999999999 # 1000000000 in
  let K := 1000000001 # 1000000000 in
  inject_Z n * k * l1 * k * l2 * k * l3 * k - (1 # 2) <= inject_Z z /\
  inject_Z z <= inject_Z n * K * h1 * K * h2 * K * h3 * K + (1 # 2).
Proof.
  intros Hn Hl1 Hl2 Hl3 (m1 & e1 & -> & R1) (m2 & e2 & -> & R2)
         (m3 & e3 & -> & R3) H k K.
  apply bind_Some in H as (x1 & Hx1 & H).
  unfold Py.mul_int_float in Hx1. apply bind_Some in Hx1 as (x0 & Hx0 & Hx1).
  injection Hx1 as <-.
  destruct (ErrorFacts.float_of_int_bounds n x0 ltac:(lia) Hx0)
    as (mx & ex & -> & Hlo & Hhi).
  replace (n <? 0)%Z with false in * by (symmetry; apply Z.ltb_ge; lia).
  rewrite Z.abs_eq in Hlo, Hhi by lia.
  assert (Hn1 : 1 <= inject_Z n).
  { change 1 with (inject_Z 1). rewrite <- Zle_Qle. lia. }
  pose proof (PyFacts.mag_pos mx ex) as HX.
  assert (R0 : inject_Z n * k <= Py.mag mx ex <= inject_Z n * K).
  { unfold k, K, Py.eps in *. split; nra. }
  assert (L0 : 1 # 2 <= inject_Z n * k) by (unfold k; nra).
  destruct (IntervalFacts.fmul_interval mx ex m1 e1 _ _ l1 h1 L0 R0
              ltac:(lra) R1) as [E1 | (ma & ea & E1 & Ra)];
    rewrite E1 in H; [discriminate H|].
  fold k K in Ra.
  assert (La : 1 # 2 <= inject_Z n * k * l1 * k) by (unfold k in *; nra).
  destruct (IntervalFacts.fmul_interval ma ea m2 e2 _ _ l2 h2 La Ra
              ltac:(lra) R2) as [E2 | (mb & eb & E2 & Rb)];
    rewrite E2 in H; [discriminate H|].
  fold k K in Rb.
  assert (Lb : 1 # 2 <= inject_Z n * k * l1 * k * l2 * k).
  { unfold k in *. nra. }
  destruct (IntervalFacts.fmul_interval mb eb m3 e3 _ _ l3 h3 Lb Rb
              ltac:(lra) R3) as [E3 | (mc & ec & E3 & Rc)];
    rewrite E3 in H; [discriminate H|].
  fold k K in Rc.
  unfold Py.round in H. cbn [Py.is_finite Py.F2Q cond_Zopp] in H.
  injection H as <-. fold (Py.mag mc ec).
  pose proof (IntervalFacts.round_half_even_near (Py.mag mc ec)) as Hr.
  split; lra.
Qed.

Lemma triple_product_zero c1 c2 c3 z (l1 h1 l2 h2 l3 h3 : Q) :
  in_range c1 l1 h1 -> in_range c2 l2 h2 -> in_range c3 l3 h3 ->
  (x <- Py.mul_int_float 0 c1 ;; Py.round (Py.fmul (Py.fmul x c2) c3)) = Some z ->
  z = 0%Z.
Proof.
  intros (m1 & e1 & -> & _) (m2 & e2 & -> & _) (m3 & e3 & -> & _) H.
  cbv in H. injection H as <-. reflexivity.
Qed.

(** The factors of the two fair prices. *)
Lemma buyer_quality_range p :
  in_range (YourBuyerAgent._quality_multiplier p) (9499 # 10000) (11501 # 10000).
Proof.
  unfold YourBuyerAgent._quality_multiplier.
  repeat match goal with |- context [if ?b then _ else _] => destruct b end;
    (eexists _, _; split; [reflexivity|]; split; vm_compute; discriminate).
Qed.

Lemma seller_quality_range p :
  in_range (YourSellerAgent._quality_multiplier p) (9399 # 10000) (11501 # 10000).
Proof.
  unfold YourSellerAgent._quality_multiplier.
  repeat match goal with |- context [if ?b then _ else _] => destruct b end;
    (eexists _, _; split; [reflexivity|]; split; vm_compute; discriminate).
Qed.

Lemma origin_range p :
  in_range (YourBuyerAgent.origin_factor p) 1 (10501 # 10000).
Proof.
  unfold YourBuyerAgent.origin_factor.
  destruct (Str.mem _ _);
    (eexists _, _; split; [reflexivity|]; split; vm_compute; discriminate).
Qed.

Lemma volume_range p :
  in_range (YourBuyerAgent.volume_factor p) (9799 # 10000) 1.
Proof.
  unfold YourBuyerAgent.volume_factor.
  destruct (_ <=? _)%Z;
    (eexists _, _; split; [reflexivity|]; split; vm_compute; discriminate).
Qed.

Lemma logistics_range : in_range Py.f1_01 (10099 # 10000) (10101 # 10000).
Proof.
  eexists _, _. split; [reflexivity|]. split; vm_compute; discriminate.
Qed.

End FairFacts.

Module RangeFacts.

(** The buyer's fair price: between 93% and 121% of a non-negative base
    price, up to the half unit of the rounding. *)
Lemma buyer_fair_range p fair :
  0 <= base_market_price p ->
  YourBuyerAgent.calculate_fair_price p = Some fair ->
  93 * base_market_price p - 50 <= 100 * fair /\
  100 * fair <= 121 * base_market_price p + 50.
Proof.
  intros Hb H.
  unfold YourBuyerAgent.calculate_fair_price in H. cbv zeta in H.
  destruct (Z.eq_dec (base_market_price p) 0) as [E | Hne].
  + rewrite E in H |- *.
    apply (FairFacts.triple_product_zero _ _ _ _ _ _ _ _ _ _
             (FairFacts.buyer_quality_range p) (FairFacts.origin_range p)
             (FairFacts.volume_range p)) in H.
    lia.
  + assert (Hpos : 0 < base_market_price p) by lia.
    apply (FairFacts.triple_product (base_market_price p) _ _ _ fair
             (9499 # 10000) (11501 # 10000) 1 (10501 # 10000)
             (9799 # 10000) 1 Hpos ltac:(lra) ltac:(lra) ltac:(lra)
             (FairFacts.buyer_quality_range p) (FairFacts.origin_range p)
             (FairFacts.volume_range p)) in H.
    cbv zeta in H. destruct H as [H1 H2].
    assert (Hq : (0 <= inject_Z (base_market_price p))%Q).
    { change 0%Q with (inject_Z 0). rewrite <- Zle_Qle. exact Hb. }
    split; rewrite Zle_Qle.
    * replace (93 * base_market_price p - 50)
        with (93 * base_market_price p + - 50) by lia.
      rewrite inject_Z_plus, !inject_Z_mult.
      change (inject_Z 93) with (93 # 1)%Q.
      change (inject_Z (- 50)) with (- 50 # 1)%Q.
      change (inject_Z 100) with (100 # 1)%Q. lra.
    * rewrite inject_Z_plus, !inject_Z_mult.
      change (inject_Z 121) with (121 # 1)%Q.
      change (inject_Z 50) with (50 # 1)%Q.
      change (inject_Z 100) with (100 # 1)%Q. lra.
Qed.

(** The seller's fair price: between 94% and 122%. *)
Lemma seller_fair_range p fair :
  0 <= base_market_price p ->
  YourSellerAgent.fair_price p = Some fair ->
  94 * base_market_price p - 50 <= 100 * fair /\
  100 * fair <= 122 * base_market_price p + 50.
Proof.
  intros Hb H.
  unfold YourSellerAgent.fair_price in H. cbv zeta in H.
  destruct (Z.eq_dec (base_market_price p) 0) as [E | Hne].
  + rewrite E in H |- *.
    apply (FairFacts.triple_product_zero _ _ _ _ _ _ _ _ _ _
             (FairFacts.seller_quality_range p) (FairFacts.origin_range p)
             FairFacts.logistics_range) in H.
    lia.
  + assert (Hpos : 0 < base_market_price p) by lia.
    apply (FairFacts.triple_product (base_market_price p) _ _ _ fair
             (9399 # 10000) (11501 # 10000) 1 (10501 # 10000)
             (10099 # 10000) (10101 # 10000) Hpos
             ltac:(lra) ltac:(lra) ltac:(lra)
             (FairFacts.seller_quality_range p) (FairFacts.origin_range p)
             FairFacts.logistics_range) in H.
    cbv zeta in H. destruct H as [H1 H2].
    assert (Hq : (0 <= inject_Z (base_market_price p))%Q).
    { change 0%Q with (inject_Z 0). rewrite <- Zle_Qle. exact Hb. }
    split; rewrite Zle_Qle.
    * replace (94 * base_market_price p - 50)
        with (94 * base_market_price p + - 50) by lia.
      rewrite inject_Z_plus, !inject_Z_mult.
      change (inject_Z 94) with (94 # 1)%Q.
      change (inject_Z (- 50)) with (- 50 # 1)%Q.
      change (inject_Z 100) with (100 # 1)%Q. lra.
    * rewrite inject_Z_plus, !inject_Z_mult.
      change (inject_Z 122) with (122 # 1)%Q.
      change (inject_Z 50) with (50 # 1)%Q.
      change (inject_Z 100) with (100 # 1)%Q. lra.
Qed.

End RangeFacts.

(** ** Strings *)

Module StrFacts.
Import Str.
Local Open Scope string_scope.

Ltac bytes c := destruct c as [[] [] [] [] [] [] [] []].

Lemma lower_ascii_idem c : lower_ascii (lower_ascii c) = lower_ascii c.
Proof. bytes c; reflexivity. Qed.

(** Lower-casing changes no byte of a white-space code point and makes
    none. *)
Lemma is_space_lower c : is_space (lower_ascii c) = is_space c.
Proof. bytes c; reflexivity. Qed.

Lemma is_space2_lower a b :
  is_space2 (lower_ascii a) (lower_ascii b) = is_space2 a b.
Proof. bytes a; try reflexivity; bytes b; reflexivity. Qed.

Lemma is_space3_lower a b c :
  is_space3 (lower_ascii a) (lower_ascii b) (lower_ascii c) = is_space3 a b c.
Proof.
  bytes a; try reflexivity; bytes b; try reflexivity; bytes c; reflexivity.
Qed.

Lemma lower_idem s : lower (lower s) = lower s.
Proof.
  induction s as [|c s IH]; [reflexivity|].
  cbn [lower]. rewrite lower_ascii_idem, IH. reflexivity.
Qed.

Lemma lower_rev_onto s : forall acc,
  lower (rev_onto s acc) = rev_onto (lower s) (lower acc).
Proof.
  induction s as [|c s IH]; intros acc; [reflexivity|].
  cbn [rev_onto lower]. rewrite IH. reflexivity.
Qed.

Lemma lower_rev s : lower (rev s) = rev (lower s).
Proof. unfold rev. apply lower_rev_onto. Qed.

Lemma append_assoc a b c : (a ++ b) ++ c = a ++ (b ++ c).
Proof. induction a as [|d a IH]; cbn; congruence. Qed.

Lemma rev_onto_app s : forall acc, rev_onto s acc = rev s ++ acc.
Proof.
  unfold rev. induction s as [|c s IH]; intros acc; [reflexivity|].
  cbn [rev_onto]. rewrite IH, (IH (String c "")).
  rewrite append_assoc. reflexivity.
Qed.

Lemma rev_cons c s : rev (String c s) = rev s ++ String c "".
Proof. unfold rev at 1. cbn [rev_onto]. apply rev_onto_app. Qed.

Lemma append_nil_r s : s ++ "" = s.
Proof. induction s as [|c s IH]; cbn; congruence. Qed.

Lemma rev_app a : forall b, rev (a ++ b) = rev b ++ rev a.
Proof.
  induction a as [|c a IH]; intros b.
  - cbn. rewrite append_nil_r. reflexivity.
  - cbn [append]. rewrite !rev_cons, IH, append_assoc. reflexivity.
Qed.

Lemma rev_involutive s : rev (rev s) = s.
Proof.
  induction s as [|c s IH]; [reflexivity|].
  rewrite rev_cons, rev_app, IH. reflexivity.
Qed.

Lemma length_app a b :
  String.length (a ++ b) = (String.length a + String.length b)%nat.
Proof. induction a as [|c a IH]; cbn; congruence. Qed.

(** Stripping at the start, for any three tests of white space. *)
Section Strip.

Variable sp1 : ascii -> bool.
Variable sp2 : ascii -> ascii -> bool.
Variable sp3 : ascii -> ascii -> ascii -> bool.

(** Induction on a string by the code points removed from its start. *)
Lemma strip_ind (P : string -> Prop) :
  P "" ->
  (forall a r, sp1 a = true -> P r -> P (String a r)) ->
  (forall a, sp1 a = false -> P (String a "")) ->
  (forall a b r, sp1 a = false -> sp2 a b = true -> P r ->
                 P (String a (String b r))) ->
  (forall a b, sp1 a = false -> sp2 a b = false ->
               P (String a (String b ""))) ->
  (forall a b c r, sp1 a = false -> sp2 a b = false -> sp3 a b c = true ->
                   P r -> P (String a (String b (String c r)))) ->
  (forall a b c r, sp1 a = false -> sp2 a b = false -> sp3 a b c = false ->
                   P (String a (String b (String c r)))) ->
  forall s, P s.
Proof.
  intros H0 H1 H1' H2 H2' H3 H3' s.
  assert (H : forall n s, (String.length s <= n)%nat -> P s).
  { clear s. induction n as [|n IH]; intros s Hn.
    - destruct s; [exact H0 | cbn in Hn; lia].
    - destruct s as [|a [|b [|c r]]]; [exact H0 | | |].
      + destruct (sp1 a) eqn:E1; [apply H1; [exact E1 | exact H0]|].
        apply H1'. exact E1.
      + destruct (sp1 a) eqn:E1;
          [apply H1; [exact E1 | apply IH; cbn in *; lia]|].
        destruct (sp2 a b) eqn:E2; [apply H2; auto|].
        apply H2'; assumption.
      + destruct (sp1 a) eqn:E1;
          [apply H1; [exact E1 | apply IH; cbn in *; lia]|].
        destruct (sp2 a b) eqn:E2;
          [apply H2; [exact E1 | exact E2 | apply IH; cbn in *; lia]|].
        destruct (sp3 a b c) eqn:E3;
          [apply H3; [exact E1 | exact E2 | exact E3|];
           apply IH; cbn in *; lia|].
        apply H3'; assumption. }
  apply (H (String.length s)). lia.
Qed.

Lemma lstrip_by_length s :
  (String.length (lstrip_by sp1 sp2 sp3 s) <= String.length s)%nat.
Proof.
  induction s using strip_ind; cbn [lstrip_by];
    repeat match goal with H : _ = _ :> bool |- _ => rewrite H; clear H end;
    cbn [String.length] in *; lia.
Qed.

Lemma lstrip_by_idem s :
  lstrip_by sp1 sp2 sp3 (lstrip_by sp1 sp2 sp3 s) = lstrip_by sp1 sp2 sp3 s.
Proof.
  induction s using strip_ind; cbn [lstrip_by];
    repeat match goal with H : _ = _ :> bool |- _ => rewrite H end;
    try assumption; cbn [lstrip_by];
    repeat match goal with H : _ = _ :> bool |- _ => rewrite H end;
    reflexivity.
Qed.

(** What is left is the end of the string. *)
Lemma lstrip_by_suffix s : exists u, s = u ++ lstrip_by sp1 sp2 sp3 s.
Proof.
  induction s using strip_ind; cbn [lstrip_by];
    repeat match goal with H : _ = _ :> bool |- _ => rewrite H; clear H end;
    try (exists ""; reflexivity).
  - destruct IHs as (u & Hu). exists (String a u). cbn. congruence.
  - destruct IHs as (u & Hu). exists (String a (String b u)). cbn. congruence.
  - destruct IHs as (u & Hu). exists (String a (String b (String c u))).
    cbn. congruence.
Qed.

Lemma lstrip_by_drop1 a r :
  sp1 a = true ->
  lstrip_by sp1 sp2 sp3 (String a r) = lstrip_by sp1 sp2 sp3 r.
Proof. intros H. cbn [lstrip_by]. rewrite H. reflexivity. Qed.

Lemma lstrip_by_drop2 a b r :
  sp1 a = false -> sp2 a b = true ->
  lstrip_by sp1 sp2 sp3 (String a (String b r)) = lstrip_by sp1 sp2 sp3 r.
Proof.
  intros H1 H2. cbn [lstrip_by]. rewrite H1, H2. reflexivity.
Qed.

Lemma lstrip_by_drop3 a b c r :
  sp1 a = false -> sp2 a b = false -> sp3 a b c = true ->
  lstrip_by sp1 sp2 sp3 (String a (String b (String c r)))
  = lstrip_by sp1 sp2 sp3 r.
Proof.
  intros H1 H2 H3. cbn [lstrip_by]. rewrite H1, H2, H3.
  reflexivity.
Qed.

(** Stripping a string that starts with white space makes it shorter. *)
Lemma lstrip_by_changes u r :
  (String.length r < String.length u)%nat ->
  lstrip_by sp1 sp2 sp3 u = lstrip_by sp1 sp2 sp3 r ->
  lstrip_by sp1 sp2 sp3 u <> u.
Proof.
  intros Hlen E H. pose proof (lstrip_by_length r) as Hr.
  rewrite <- E, H in Hr. lia.
Qed.

(** A string that does not start with white space has no start that
    does. *)
Lemma lstrip_by_prefix x w :
  lstrip_by sp1 sp2 sp3 (x ++ w) = x ++ w -> lstrip_by sp1 sp2 sp3 x = x.
Proof.
  intros H.
  destruct x as [|a [|b [|c r]]]; [reflexivity | | |]; cbn [append] in H.
  - destruct (sp1 a) eqn:E1;
      [|cbn [lstrip_by]; rewrite E1; reflexivity].
    exfalso. revert H. apply (lstrip_by_changes _ w); [cbn; lia|].
    apply lstrip_by_drop1. exact E1.
  - destruct (sp1 a) eqn:E1.
    { exfalso. revert H. apply (lstrip_by_changes _ (String b w)); [cbn; lia|].
      apply lstrip_by_drop1. exact E1. }
    destruct (sp2 a b) eqn:E2;
      [|cbn [lstrip_by]; rewrite E1, E2; reflexivity].
    exfalso. revert H. apply (lstrip_by_changes _ w); [cbn; lia|].
    apply lstrip_by_drop2; assumption.
  - destruct (sp1 a) eqn:E1.
    { exfalso. revert H.
      apply (lstrip_by_changes _ (String b (String c (r ++ w)))); [cbn; lia|].
      apply lstrip_by_drop1. exact E1. }
    destruct (sp2 a b) eqn:E2.
    { exfalso. revert H.
      apply (lstrip_by_changes _ (String c (r ++ w))); [cbn; lia|].
      apply lstrip_by_drop2; assumption. }
    destruct (sp3 a b c) eqn:E3;
      [|cbn [lstrip_by]; rewrite E1, E2, E3; reflexivity].
    exfalso. revert H. apply (lstrip_by_changes _ (r ++ w)); [cbn; lia|].
    apply lstrip_by_drop3; assumption.
Qed.

(** Lower-casing and stripping commute when lower-casing does not change
    the tests. *)
Lemma lower_lstrip_by s :
  (forall a, sp1 (lower_ascii a) = sp1 a) ->
  (forall a b, sp2 (lower_ascii a) (lower_ascii b) = sp2 a b) ->
  (forall a b c,
      sp3 (lower_ascii a) (lower_ascii b) (lower_ascii c) = sp3 a b c) ->
  lower (lstrip_by sp1 sp2 sp3 s) = lstrip_by sp1 sp2 sp3 (lower s).
Proof.
  intros L1 L2 L3.
  induction s using strip_ind; cbn [lstrip_by lower];
    rewrite ?L1, ?L2, ?L3;
    repeat match goal with H : _ = _ :> bool |- _ => rewrite H; clear H end;
    try assumption; reflexivity.
Qed.

End Strip.

Lemma lstrip_idem s : lstrip (lstrip s) = lstrip s.
Proof. apply lstrip_by_idem. Qed.

Lemma lower_lstrip s : lower (lstrip s) = lstrip (lower s).
Proof.
  apply lower_lstrip_by;
    [exact is_space_lower | exact is_space2_lower | exact is_space3_lower].
Qed.

Lemma lower_rstrip s : lower (rstrip s) = rstrip (lower s).
Proof.
  unfold rstrip. rewrite lower_rev, lower_lstrip_by, lower_rev;
    [reflexivity | exact is_space_lower | |].
  - intros a b. apply is_space2_lower.
  - intros a b c. apply is_space3_lower.
Qed.

Lemma lower_strip s : lower (strip s) = strip (lower s).
Proof. unfold strip. rewrite lower_rstrip, lower_lstrip. reflexivity. Qed.

(** Stripping at the end leaves a start of the string. *)
Lemma rstrip_prefix s : exists w, s = rstrip s ++ w.
Proof.
  unfold rstrip.
  destruct (lstrip_by_suffix is_space (fun b a => is_space2 a b)
              (fun c b a => is_space3 a b c) (rev s)) as (u & Hu).
  exists (rev u). rewrite <- rev_app, <- Hu, rev_involutive. reflexivity.
Qed.

Lemma rstrip_idem s : rstrip (rstrip s) = rstrip s.
Proof. unfold rstrip. rewrite rev_involutive, lstrip_by_idem. reflexivity. Qed.

(** Stripping at the end leaves no white space at the start of a string
    that has none. *)
Lemma lstrip_rstrip t : lstrip t = t -> lstrip (rstrip t) = rstrip t.
Proof.
  intros H. destruct (rstrip_prefix t) as (w & Hw).
  apply (lstrip_by_prefix _ _ _ _ w). rewrite <- Hw. exact H.
Qed.

Lemma strip_idem s : strip (strip s) = strip s.
Proof.
  unfold strip.
  rewrite (lstrip_rstrip (lstrip s) (lstrip_idem s)).
  apply rstrip_idem.
Qed.

(** The form in which a grade is compared is not changed by stripping and
    lower-casing it again. *)
Lemma normal_form_idem s : lower (strip (lower (strip s))) = lower (strip s).
Proof. rewrite <- lower_strip, lower_idem, strip_idem. reflexivity. Qed.

End StrFacts.

(** ** Overflow *)

Module OverflowFacts.

(** An integer of magnitude [2^1025] or more has no float. *)
Lemma float_of_int_overflow n :
  2 ^ 1025 <= Z.abs n -> Py.float_of_int n = None.
Proof.
  intros Hn. destruct (Py.float_of_int n) as [x|] eqn:Hx; [exfalso | reflexivity].
  assert (Hne : n <> 0).
  { intros ->. cbn in Hn. assert (0 < 2 ^ 1025) by (apply Z.pow_pos_nonneg; lia).
    lia. }
  pose proof (DefinedFacts.float_of_int_bounded n x Hx) as Hb.
  unfold Py.float_of_int in Hx.
  destruct (PyFacts.of_Z_lower n Hne) as [E | (m & e & E & Hle)];
    rewrite E in Hx; cbn [Py.is_finite] in Hx; [discriminate Hx|].
  injection Hx as <-. destruct Hb as [Hm He].
  pose proof (BoundFacts.mag_le_max m e Hm He) as Hmax.
  assert (Hbig : (inject_Z (2 ^ 1025) <= inject_Z (Z.abs n))%Q)
    by (rewrite <- Zle_Qle; exact Hn).
  assert (Hc : (inject_Z max_float * (1 + Py.eps) < inject_Z (2 ^ 1025))%Q)
    by (vm_compute; reflexivity).
  pose proof (PyFacts.mag_pos m e) as Hp.
  assert (Hstep : (Py.mag m e * (1 + Py.eps)
                   <= inject_Z max_float * (1 + Py.eps))%Q).
  { apply Qmult_le_compat_r; [exact Hmax|]. vm_compute. discriminate. }
  eapply Qle_not_lt; [|exact Hc].
  eapply Qle_trans; [exact Hbig|]. eapply Qle_trans; [exact Hle | exact Hstep].
Qed.

End OverflowFacts.

(** ** Offers of a run with [YourBuyerAgent] *)

Module OfferFacts.

Lemma sorted_bounded l : forall b last,
  non_decreasing l -> last_item l = Some last -> last <= b ->
  Forall (fun o => o <= b) l.
Proof.
  induction l as [|x r IH]; intros b last Hs Hl Hb; [constructor|].
  destruct r as [|y r'].
  - cbn in Hl. injection Hl as <-. constructor; [lia | constructor].
  - destruct Hs as [Hxy Hs]. rewrite HistoryFacts.last_item_cons in Hl.
    pose proof (IH b last Hs Hl Hb) as Hr.
    constructor; [|exact Hr]. inversion Hr; subst. lia.
Qed.

(** The buyer offers that a run has recorded are non-decreasing and end
    within budget. *)
Lemma negotiation_loop_offers seller_min p buyer_budget s :
  negotiation_loop your_buyer_agent seller_min p buyer_budget = Some s ->
  non_decreasing (your_offers (ls_context s)) /\
  exists last, last_item (your_offers (ls_context s)) = Some last /\
               last <= buyer_budget.
Proof.
  intros H. pose proof H as H0. unfold negotiation_loop in H. bind_inv H.
  rename v into s0.
  destruct (initial_state_shape _ _ _ E) as (Hoff & _ & Hbud & Hdm & Hfp).
  assert (Hi : loop_inv buyer_budget 0 s0).
  { unfold loop_inv. rewrite Hoff. cbn. repeat split; try assumption.
    all: discriminate. }
  split; [eapply (RunFacts.for_rounds_sorted seller_min buyer_budget 10 0);
          eassumption|].
  destruct (for_rounds_invariant your_buyer_agent seller_min
              (fun k s => loop_inv buyer_budget k s)
              (fun _ s' => exists fp, ls_final_price s' = Some fp /\
                                      fp <= buyer_budget /\
                                      last_item (your_offers (ls_context s'))
                                      = Some fp))
    with (n := 10%nat) (k := 0%nat) (s := s0) (s' := s)
    as [Hn | (j & _ & fp & _ & Hle & Hl)]; auto.
  - intros k s1 s2 f Hinv Hr. destruct f.
    + apply (RunFacts.round_body_step _ _ _ _ _ _ Hinv Hr). reflexivity.
    + eapply DealFacts.round_body_deal; eassumption.
  - destruct Hn as (_ & Hlen & _ & Hl).
    destruct (your_offers (ls_context s)) as [|x r] eqn:Hy;
      [discriminate Hlen|].
    exists (last r x). split; [reflexivity|].
    destruct (Hl (last r x) eq_refl). assumption.
  - exists fp. auto.
Qed.

End OfferFacts.

(** ** Exact conversions *)

Module ExactFacts.

(** Rounding a value whose discarded bits are all zero returns it. *)
Lemma round_aux_exact s M E :
  Zpos M mod 2 ^ Py.shift_of M E = 0 -> E + Py.shift_of M E <= 971 ->
  exists m,
    binary_round_aux 53 1024 s (Zpos M) E loc_Exact
      = S754_finite s m (E + Py.shift_of M E) /\
    Zpos m < 2 ^ 53 /\
    (Py.mag m (E + Py.shift_of M E) == Py.mag M E)%Q.
Proof.
  intros Hmod Hle.
  destruct (PyFacts.binary_round_aux_spec s M E)
    as (m2 & _ & Hex & Hm1 & ->).
  specialize (Hex Hmod). set (k := Py.shift_of M E) in *.
  assert (Hk : 0 <= k) by (unfold k, Py.shift_of; lia).
  assert (HP : 0 < 2 ^ k) by (apply Z.pow_pos_nonneg; lia).
  assert (HM : Zpos M = 2 ^ k * m2).
  { subst m2. apply Z.div_exact; [lia | exact Hmod]. }
  assert (Hpos : 0 < m2) by nia.
  replace (m2 =? 0) with false by (symmetry; apply Z.eqb_neq; lia).
  replace (m2 <? 2 ^ 53) with true by (symmetry; apply Z.ltb_lt; lia).
  replace (E + k <=? 971) with true by (symmetry; apply Z.leb_le; lia).
  exists (Z.to_pos m2). split; [reflexivity|].
  rewrite Z2Pos.id by lia. split; [lia|].
  rewrite (PyFacts.mag_shift (Z.to_pos m2) (Zpos M) k E Hk).
  - reflexivity.
  - rewrite Z2Pos.id by lia. lia.
Qed.

(** The float of an integer whose bits beyond the 53 leading ones are zero
    is that integer. *)
Lemma binary_round_exact s P :
  let d := Zpos (digits2_pos P) in
  (d <= 53 \/ Zpos P mod 2 ^ (d - 53) = 0 /\ d <= 1024) ->
  exists m e,
    binary_round 53 1024 s P 0 = S754_finite s m e /\
    Zpos m < 2 ^ 53 /\ -1074 <= e <= 971 /\
    (Py.mag m e == inject_Z (Zpos P))%Q.
Proof.
  intros d H. unfold binary_round.
  change (fexp 53 1024) with Py.fexp64. rewrite Z.add_0_r. fold d.
  pose proof (PyFacts.shl_align_spec P 0 (Py.fexp64 d)) as [Hv Hd].
  assert (Hsnd : d <= 53 -> snd (shl_align P 0 (Py.fexp64 d)) = Py.fexp64 d).
  { intros Hd53. unfold shl_align. rewrite Z.sub_0_r.
    assert (Hf : Py.fexp64 d <= 0) by (unfold Py.fexp64; lia).
    destruct (Py.fexp64 d) as [|q|q] eqn:Eq; cbn [snd]; lia. }
  assert (Hbig : 53 < d -> shl_align P 0 (Py.fexp64 d) = (P, 0)).
  { intros Hd53. unfold shl_align. rewrite Z.sub_0_r.
    assert (Hf : 0 < Py.fexp64 d) by (unfold Py.fexp64; lia).
    destruct (Py.fexp64 d) as [|q|q] eqn:Eq; try lia. reflexivity. }
  destruct (shl_align P 0 (Py.fexp64 d)) as [mz ez] eqn:Hsh.
  cbn [fst snd] in Hv, Hd, Hsnd. rewrite Z.add_0_r in Hd. fold d in Hd.
  assert (H0 : (Py.mag P 0 == inject_Z (Zpos P))%Q).
  { unfold Py.mag. change (2 ^ 0)%Q with 1%Q. ring. }
  assert (Hshift : Py.shift_of mz ez = Z.max 0 (Py.fexp64 d - ez)).
  { unfold Py.shift_of. rewrite Hd. reflexivity. }
  destruct (Z_le_gt_dec d 53) as [Hsmall | Hlarge].
  - specialize (Hsnd Hsmall). subst ez.
    assert (Hk : Py.shift_of mz (Py.fexp64 d) = 0) by (rewrite Hshift; lia).
    destruct (round_aux_exact s mz (Py.fexp64 d)) as (m & Hm & Hlt & Hq).
    + rewrite Hk. apply Z.mod_1_r.
    + rewrite Hk. unfold Py.fexp64. lia.
    + rewrite Hk, Z.add_0_r in Hm, Hq. exists m, (Py.fexp64 d).
      split; [exact Hm|]. split; [exact Hlt|].
      split; [unfold Py.fexp64; lia|].
      rewrite Hq, Hv. exact H0.
  - destruct H as [H | [Hmod H1024]]; [lia|].
    specialize (Hbig ltac:(lia)). injection Hbig as -> ->.
    assert (Hk : Py.shift_of P 0 = d - 53).
    { rewrite Hshift. unfold Py.fexp64. lia. }
    destruct (round_aux_exact s P 0) as (m & Hm & Hlt & Hq).
    + rewrite Hk. exact Hmod.
    + rewrite Hk. lia.
    + rewrite Hk in Hm, Hq. cbn [Z.add] in Hm, Hq.
      exists m, (d - 53). split; [exact Hm|]. split; [exact Hlt|].
      split; [lia|]. rewrite Hq. exact H0.
Qed.

Lemma round_half_even_Z n : Py.round_half_even (inject_Z n) = n.
Proof.
  unfold Py.round_half_even. rewrite Qfloor_Z.
  assert (H : (inject_Z n - inject_Z n ?= 1 # 2)%Q = Lt).
  { apply -> Qlt_alt. lra. }
  rewrite H. reflexivity.
Qed.

Lemma round_half_even_comp p q :
  (p == q)%Q -> Py.round_half_even p = Py.round_half_even q.
Proof.
  intros H. unfold Py.round_half_even. rewrite (Qfloor_comp p q H).
  assert (Hc : (p - inject_Z (Qfloor q) ?= 1 # 2)%Q
               = (q - inject_Z (Qfloor q) ?= 1 # 2)%Q).
  { rewrite H. reflexivity. }
  rewrite Hc. reflexivity.
Qed.

Lemma trunc_Z n : Py.trunc (inject_Z n) = n.
Proof.
  unfold Py.trunc. destruct (Qle_bool 0 (inject_Z n));
    [apply Qfloor_Z | apply Qceiling_Z].
Qed.

Lemma trunc_comp p q : (p == q)%Q -> Py.trunc p = Py.trunc q.
Proof.
  intros H. unfold Py.trunc.
  assert (Hb : Qle_bool 0 p = Qle_bool 0 q).
  { destruct (Qle_bool 0 p) eqn:Hp, (Qle_bool 0 q) eqn:Hq; try reflexivity.
    - apply Qle_bool_iff in Hp. rewrite H in Hp. apply Qle_bool_iff in Hp.
      congruence.
    - apply Qle_bool_iff in Hq. rewrite <- H in Hq. apply Qle_bool_iff in Hq.
      congruence. }
  rewrite Hb. destruct (Qle_bool 0 q);
    [apply Qfloor_comp | apply Qceiling_comp]; exact H.
Qed.

(** The integers that [round] returns have a float of their own value. *)
Lemma round_representable f z :
  bounded_float f -> Py.round f = Some z -> z <> 0 ->
  let d := Zpos (digits2_pos (Z.to_pos (Z.abs z))) in
  d <= 53 \/ Z.abs z mod 2 ^ (d - 53) = 0 /\ d <= 1024.
Proof.
  intros Hb H Hz d. unfold Py.round in H.
  destruct f as [s | s | | s m e]; cbn [Py.is_finite] in H;
    try discriminate H.
  - cbn in H. injection H as <-. congruence.
  - destruct Hb as [Hm He]. injection H as H. cbn [Py.F2Q] in H.
    assert (Hd : forall n, 0 <= n -> Z.abs z < 2 ^ n -> d <= n).
    { intros n Hn Hlt. apply (PyFacts.digits2_le _ n Hn).
      rewrite Z2Pos.id by lia. exact Hlt. }
    destruct (Z_le_gt_dec 0 e) as [Hpos | Hneg].
    + assert (Hv : z = cond_Zopp s (Zpos m) * 2 ^ e).
      { rewrite <- H, <- (round_half_even_Z (cond_Zopp s (Zpos m) * 2 ^ e)).
        symmetry. apply round_half_even_comp.
        rewrite (PyFacts.pow2_Z e Hpos), <- inject_Z_mult. reflexivity. }
      assert (HP : 0 < 2 ^ e) by (apply Z.pow_pos_nonneg; lia).
      assert (Habs : Z.abs z = Zpos m * 2 ^ e).
      { rewrite Hv. destruct s; cbn [cond_Zopp]; nia. }
      assert (Hd53 : d <= 53 + e).
      { apply Hd; [lia|]. rewrite Habs, Z.pow_add_r by lia. nia. }
      destruct (Z_le_gt_dec d 53) as [|Hbig]; [left; assumption | right].
      split; [|lia]. rewrite Habs.
      replace e with ((e - (d - 53)) + (d - 53)) at 1 by lia.
      rewrite Z.pow_add_r by lia. rewrite Z.mul_assoc.
      apply Z.mod_mul. apply Z.pow_nonzero; lia.
    + left. apply Hd; [lia|].
      pose proof (IntervalFacts.round_half_even_near
                    (inject_Z (cond_Zopp s (Zpos m)) * 2 ^ e)) as [Hlo Hhi].
      rewrite H in Hlo, Hhi.
      assert (He2 : (2 ^ e <= 1 # 2)%Q).
      { change (1 # 2)%Q with (2 ^ (-1))%Q.
        apply Qpower_le_compat_l; [lia | discriminate]. }
      pose proof (PyFacts.pow2_pos e) as Hp.
      assert (Hmq : (inject_Z (Zpos m) < inject_Z (2 ^ 53))%Q)
        by (rewrite <- Zlt_Qlt; exact Hm).
      assert (Hm0 : (0 < inject_Z (Zpos m))%Q).
      { change 0%Q with (inject_Z 0). rewrite <- Zlt_Qlt. lia. }
      change (inject_Z (2 ^ 53)) with (9007199254740992 # 1)%Q in Hmq.
      assert (Hz2 : (- (4503599627370497 # 1) < inject_Z z
                     < 4503599627370497 # 1)%Q).
      { destruct s; cbn [cond_Zopp] in Hlo, Hhi;
          rewrite ?inject_Z_opp in Hlo, Hhi;
          set (M := inject_Z (Zpos m)) in *; set (T := (2 ^ e)%Q) in *;
          split; nra. }
      destruct Hz2 as [Hz1 Hz2].
      change (- (4503599627370497 # 1))%Q
        with (inject_Z (- 4503599627370497)) in Hz1.
      change (4503599627370497 # 1)%Q with (inject_Z 4503599627370497) in Hz2.
      rewrite <- Zlt_Qlt in Hz1, Hz2.
      change (2 ^ 53) with 9007199254740992. lia.
Qed.

(** The float of an integer that [round] has returned. *)
Lemma float_of_round f z :
  bounded_float f -> Py.round f = Some z -> z <> 0 ->
  exists m e,
    Py.float_of_int z = Some (S754_finite (z <? 0) m e) /\
    Zpos m < 2 ^ 53 /\ -1074 <= e <= 971 /\
    (Py.mag m e == inject_Z (Z.abs z))%Q.
Proof.
  intros Hb H Hz. pose proof (round_representable f z Hb H Hz) as Hr.
  cbv zeta in Hr. unfold Py.float_of_int, Py.of_Z, binary_normalize,
    Py.prec, Py.emax.
  destruct z as [|P|P]; [congruence| |]; cbn [Z.abs Z.to_pos] in Hr.
  - destruct (ExactFacts.binary_round_exact false P Hr)
      as (m & e & -> & Hm & He & Hq).
    exists m, e. cbn [Py.is_finite]. auto.
  - destruct (ExactFacts.binary_round_exact true P Hr)
      as (m & e & -> & Hm & He & Hq).
    exists m, e. cbn [Py.is_finite]. auto.
Qed.

(** Multiplying by [1.0] changes nothing. *)
Lemma fmul_one s m e :
  Zpos m < 2 ^ 53 -> -1074 <= e <= 971 ->
  exists m' e',
    Py.fmul (S754_finite s m e) Py.f1_0 = S754_finite s m' e' /\
    (Py.mag m' e' == Py.mag m e)%Q.
Proof.
  intros Hm He. unfold Py.fmul, SFmul, Py.f1_0, Py.prec, Py.emax.
  rewrite xorb_false_r.
  set (M := (m * 4503599627370496)%positive).
  assert (HM : Zpos M = Zpos m * 2 ^ 52) by (unfold M; lia).
  assert (HdM : Zpos (digits2_pos M) <= 105).
  { apply PyFacts.digits2_le; [lia|]. rewrite HM.
    change (2 ^ 105) with (2 ^ 53 * 2 ^ 52). nia. }
  pose proof (PyFacts.digits2_bounds M) as [Hlo _].
  assert (Hd1 : 1 <= Zpos (digits2_pos M)) by lia.
  set (k := Py.shift_of M (e + -52)).
  assert (Hk : 0 <= k <= 52).
  { unfold k, Py.shift_of, Py.fexp64. lia. }
  destruct (ExactFacts.round_aux_exact s M (e + -52)) as (m' & Hm' & _ & Hq).
  - fold k. rewrite HM.
    replace 52 with ((52 - k) + k) by lia. rewrite Z.pow_add_r by lia.
    rewrite Z.mul_assoc. apply Z.mod_mul. apply Z.pow_nonzero; lia.
  - fold k. lia.
  - fold k in Hm', Hq. exists m', (e + -52 + k). split; [exact Hm'|].
    rewrite Hq. unfold Py.mag. rewrite HM, inject_Z_mult, PyFacts.pow2_add.
    change (inject_Z (2 ^ 52)) with (4503599627370496 # 1)%Q.
    change (2 ^ (-52))%Q with (1 # 4503599627370496)%Q. field.
Qed.

(** [int(z * 1.00)] is [z] for an integer that [round] has returned. *)
Lemma int_scaled_one f z :
  bounded_float f -> Py.round f = Some z -> Py.int_scaled z Py.f1_0 = Some z.
Proof.
  intros Hb H. destruct (Z.eq_dec z 0) as [-> | Hz]; [reflexivity|].
  destruct (float_of_round f z Hb H Hz) as (m & e & Hx & Hm & He & Hq).
  unfold Py.int_scaled, Py.mul_int_float. rewrite Hx. cbn [bind].
  destruct (fmul_one (z <? 0) m e Hm He) as (m' & e' & -> & Hq').
  unfold Py.int_of_float. cbn [Py.is_finite]. f_equal.
  rewrite <- (trunc_Z z) at 2. apply trunc_comp.
  cbn [Py.F2Q]. destruct (z <? 0) eqn:Hs; cbn [cond_Zopp].
  - apply Z.ltb_lt in Hs. change (Zneg m') with (- Zpos m').
    rewrite inject_Z_opp. fold (Py.mag m' e') in *.
    setoid_replace (- inject_Z (Zpos m') * 2 ^ e')%Q with (- Py.mag m' e')%Q
      by (unfold Py.mag; ring).
    rewrite Hq', Hq, Z.abs_neq, inject_Z_opp by lia. ring.
  - apply Z.ltb_ge in Hs. fold (Py.mag m' e').
    rewrite Hq', Hq, Z.abs_eq by lia. reflexivity.
Qed.

End ExactFacts.

(** ** The negotiation loop, for agents that respect the budget *)

Section SafeLoop.

Variable agent : BaseBuyerAgent.
Variable seller_min : Z.
Hypothesis agent_safe : budget_safe agent.

Lemma round_body_safe buyer_budget k s s' f :
  your_budget (ls_context s) = buyer_budget /\ ls_deal_made s = false ->
  round_body agent seller_min (Z.of_nat k) s = Some (s', f) ->
  match f with
  | Next => your_budget (ls_context s') = buyer_budget /\
            ls_deal_made s' = false
  | Break => exists fp, ls_final_price s' = Some fp /\ fp <= buyer_budget
  end.
Proof.
  intros [Hb Hnd] H. destruct agent_safe as [Hg Hr]. unfold round_body in H.
  bind_inv H. destruct v as [[st bo] bmsg].
  assert (Hbo : bo <= buyer_budget /\ (st = ACCEPTED -> bo = ls_seller_price s)).
  { unfold buyer_turn in E. destruct (Z.of_nat k =? 0).
    - bind_inv E. destruct v as [o m]. injection E as <- <- <-.
      apply Hg in E0. cbn [set_round your_budget] in E0.
      split; [lia | discriminate].
    - apply Hr in E as [Hle Hacc]. cbn [set_round your_budget] in Hle.
      split; [lia | exact Hacc]. }
  destruct Hbo as [Hbo Hacc'].
  destruct (DealStatus_eqb st ACCEPTED) eqn:Hacc.
  - apply DealStatus_eqb_eq in Hacc. specialize (Hacc' Hacc).
    injection H as <- <-. cbn. exists (ls_seller_price s).
    split; [reflexivity | lia].
  - bind_inv H. destruct v as [[sp' smsg] acc]. destruct acc.
    + injection H as <- <-. cbn. eauto.
    + injection H as <- <-. cbn. auto.
Qed.

(** A deal of a run of an agent that respects the budget. *)
Lemma negotiation_loop_safe p buyer_budget s :
  negotiation_loop agent seller_min p buyer_budget = Some s ->
  ls_deal_made s = true ->
  exists fp, ls_final_price s = Some fp /\ fp <= buyer_budget.
Proof.
  intros H Hd. unfold negotiation_loop in H. bind_inv H. rename v into s0.
  destruct (initial_state_shape _ _ _ E) as (_ & _ & Hbud & Hdm & _).
  destruct (for_rounds_invariant agent seller_min
              (fun _ s => your_budget (ls_context s) = buyer_budget /\
                          ls_deal_made s = false)
              (fun _ s' => exists fp, ls_final_price s' = Some fp /\
                                      fp <= buyer_budget))
    with (n := 10%nat) (k := 0%nat) (s := s0) (s' := s)
    as [[_ Hn] | (j & _ & Hq)]; auto.
  - intros k s1 s2 f Hinv Hr. eapply round_body_safe; eassumption.
  - congruence.
Qed.

End SafeLoop.

Module SafeFacts.

Lemma your_agent_safe : budget_safe your_buyer_agent.
Proof.
  split.
  - intros c o m H. exact (BuyerFacts.opening_within_budget c o m H).
  - intros c sp sm st price msg H.
    cbn [respond_to_seller_offer your_buyer_agent] in H.
    apply BuyerFacts.respond_summary in H as (Hle & [[-> ->] | [-> _]]).
    + auto.
    + split; [exact Hle | discriminate].
Qed.

Lemma example_agent_safe : budget_safe example_simple_agent.
Proof.
  split.
  - intros c o m H. cbn [generate_opening_offer example_simple_agent] in H.
    unfold ExampleSimpleAgent.generate_opening_offer in H.
    apply bind_Some in H as (opening & _ & H). injection H as <- _. lia.
  - intros c sp sm st price msg H.
    cbn [respond_to_seller_offer example_simple_agent] in H.
    apply ExampleFacts.example_respond_inv in H
      as [(-> & -> & Hb & _) | [(-> & ->) | (-> & Hb & _)]].
    + auto.
    + split; [lia | discriminate].
    + split; [lia | discriminate].
Qed.

End SafeFacts.

(** ** The seller offers of a run *)

Section SellerOffers.

Variable agent : BaseBuyerAgent.
Variable seller_min : Z.

Lemma round_body_seller_offers p k s s' f :
  seller_offers_inv seller_min p s ->
  round_body agent seller_min (Z.of_nat k) s = Some (s', f) ->
  seller_offers_inv seller_min p s'.
Proof.
  intros (first & rest & Ho & Hf & Hr) H. unfold round_body in H.
  bind_inv H. destruct v as [[st bo] bmsg].
  destruct (DealStatus_eqb st ACCEPTED).
  - injection H as <- _. exists first, rest. cbn. auto.
  - bind_inv H. destruct v as [[sp' smsg] acc].
    apply MockFacts.respond_cases in E0
      as [(-> & -> & _) | (-> & Hmin & _)].
    + injection H as <- _. exists first, rest. cbn. auto.
    + injection H as <- _. exists first, (rest ++ [sp']). cbn.
      rewrite Ho. split; [reflexivity|]. split; [exact Hf|].
      apply Forall_app. split; [exact Hr|]. constructor; [exact Hmin|].
      constructor.
Qed.

Lemma negotiation_loop_seller_offers p buyer_budget s :
  negotiation_loop agent seller_min p buyer_budget = Some s ->
  seller_offers_inv seller_min p s.
Proof.
  intros H. unfold negotiation_loop in H. bind_inv H. rename v into s0.
  assert (Hi : seller_offers_inv seller_min p s0).
  { unfold initial_state, MockSellerAgent.get_opening_price in E.
    bind_inv E. destruct v as [sp sm]. bind_inv E0. injection E0 as <- <-.
    injection E as <-. exists v, []. cbn. auto. }
  destruct (for_rounds_invariant agent seller_min
              (fun _ s => seller_offers_inv seller_min p s)
              (fun _ s => seller_offers_inv seller_min p s))
    with (n := 10%nat) (k := 0%nat) (s := s0) (s' := s)
    as [Hn | (j & _ & Hq)]; auto.
  intros k s1 s2 f Hinv Hr.
  pose proof (round_body_seller_offers p k s1 s2 f Hinv Hr). destruct f; auto.
Qed.

End SellerOffers.

(** ** Division *)

Module DivFacts.

Lemma shr_m_of_loc m l : shr_m (shr_record_of_loc m l) = m.
Proof. destruct l as [|[]]; reflexivity. Qed.

(** [binary_round_aux] from any location: the mantissa it keeps is the
    quotient of [M] by [2^shift_of], or its successor. *)
Lemma binary_round_aux_loc s M E l :
  exists m2,
    (m2 = Zpos M / 2 ^ Py.shift_of M E \/
     m2 = Zpos M / 2 ^ Py.shift_of M E + 1) /\
    0 <= Zpos M / 2 ^ Py.shift_of M E < 2 ^ 53 /\
    binary_round_aux 53 1024 s (Zpos M) E l =
      if m2 =? 0 then S754_zero s
      else if m2 <? 2 ^ 53
           then (if E + Py.shift_of M E <=? 971
                 then S754_finite s (Z.to_pos m2) (E + Py.shift_of M E)
                 else S754_infinity s)
           else (if E + Py.shift_of M E + 1 <=? 971
                 then S754_finite s (Z.to_pos (2 ^ 52))
                        (E + Py.shift_of M E + 1)
                 else S754_infinity s).
Proof.
  pose proof (PyFacts.digits2_bounds M) as [Hlo Hhi].
  unfold binary_round_aux, Py.shift_of.
  unfold shr_fexp at 1. change (fexp 53 1024) with Py.fexp64. cbn [Zdigits2].
  set (n := Py.fexp64 (Zpos (digits2_pos M) + E) - E).
  assert (Hn : Zpos (digits2_pos M) - 53 <= n) by (unfold n, Py.fexp64; lia).
  assert (Hmin : -1074 <= E + Z.max 0 n) by (unfold n, Py.fexp64; lia).
  assert (Hm1 : 0 <= Zpos M / 2 ^ Z.max 0 n < 2 ^ 53).
  { split; [apply Z.div_pos; [lia | apply Z.pow_pos_nonneg; lia]|].
    apply Z.div_lt_upper_bound; [apply Z.pow_pos_nonneg; lia|].
    rewrite <- Z.pow_add_r by lia.
    eapply Z.lt_le_trans; [exact Hhi|]. apply Z.pow_le_mono_r; lia. }
  set (r0 := shr_record_of_loc (Zpos M) l).
  assert (Hr0 : shr_m r0 = Zpos M) by apply shr_m_of_loc.
  unfold shr. destruct n as [|p|p] eqn:En.
  - change (Z.max 0 0) with 0 in *. rewrite Z.pow_0_r, Z.div_1_r in *.
    exists (round_nearest_even (shr_m r0) (loc_of_shr_record r0)).
    split; [rewrite <- Hr0; apply PyFacts.rne_bounds|].
    split; [assumption|].
    rewrite !Z.add_0_r. apply PyFacts.second_pass; [|lia].
    destruct (PyFacts.rne_bounds (shr_m r0) (loc_of_shr_record r0))
      as [-> | ->]; lia.
  - change (Z.max 0 (Zpos p)) with (Zpos p) in *.
    set (r := iter_pos shr_1 p r0).
    assert (Hr : shr_m r = Zpos M / 2 ^ Zpos p).
    { unfold r. rewrite PyFacts.iter_shr_m; rewrite Hr0; [reflexivity | lia]. }
    exists (round_nearest_even (shr_m r) (loc_of_shr_record r)).
    split; [rewrite <- Hr; apply PyFacts.rne_bounds|].
    split; [assumption|].
    apply PyFacts.second_pass; [|lia].
    destruct (PyFacts.rne_bounds (shr_m r) (loc_of_shr_record r)) as [-> | ->];
      lia.
  - change (Z.max 0 (Zneg p)) with 0 in *. rewrite Z.pow_0_r, Z.div_1_r in *.
    exists (round_nearest_even (shr_m r0) (loc_of_shr_record r0)).
    split; [rewrite <- Hr0; apply PyFacts.rne_bounds|].
    split; [assumption|].
    rewrite !Z.add_0_r. apply PyFacts.second_pass; [|lia].
    destruct (PyFacts.rne_bounds (shr_m r0) (loc_of_shr_record r0))
      as [-> | ->]; lia.
Qed.

Lemma round_aux_loc_finite s M E l :
  E + Py.shift_of M E + 1 <= 971 ->
  Py.is_finite (binary_round_aux 53 1024 s (Zpos M) E l) = true.
Proof.
  intros H. destruct (binary_round_aux_loc s M E l) as (m2 & _ & _ & ->).
  destruct (m2 =? 0); [reflexivity|].
  destruct (m2 <? 2 ^ 53).
  - replace (E + Py.shift_of M E <=? 971) with true
      by (symmetry; apply Z.leb_le; lia).
    reflexivity.
  - replace (E + Py.shift_of M E + 1 <=? 971) with true
      by (symmetry; apply Z.leb_le; lia).
    reflexivity.
Qed.

(** Halving a float of integer value below [2^1000] does not overflow. *)
Lemma fdiv_two s P :
  Zpos P <= 2 ^ 1000 ->
  Py.is_finite (Py.fdiv (S754_finite s P 0) (S754_finite false 2 0)) = true.
Proof.
  intros Ha.
  unfold Py.fdiv, SFdiv, SFdiv_core_binary, Py.prec, Py.emax.
  change (fexp 53 1024) with Py.fexp64. cbn [Zdigits2].
  set (d1 := Zpos (digits2_pos P)).
  change (Zpos (digits2_pos 2)) with 2.
  rewrite !Z.add_0_r, !Z.sub_0_r.
  set (e' := Z.min (Py.fexp64 (d1 - 2)) 0).
  assert (He' : e' <= 0) by (unfold e'; lia).
  pose proof (PyFacts.digits2_bounds P) as [Plo Phi]. fold d1 in Plo, Phi.
  assert (Hd1 : 1 <= d1 <= 1001).
  { split; [unfold d1; lia|].
    apply PyFacts.digits2_le; [lia|].
    eapply Z.le_lt_trans; [exact Ha|]. apply Z.pow_lt_mono_r; lia. }
  set (m' := match 0 - e' with
             | 0 => Zpos P
             | Zpos _ => Z.shiftl (Zpos P) (0 - e')
             | Zneg _ => 0
             end).
  assert (Hm' : m' = Zpos P * 2 ^ (- e')).
  { unfold m'. replace (0 - e') with (- e') by lia.
    destruct (- e') as [|k|k] eqn:Ek; [| |lia].
    - rewrite Z.pow_0_r. lia.
    - rewrite Z.shiftl_mul_pow2 by lia. reflexivity. }
  assert (Hpow : 0 < 2 ^ (- e')) by (apply Z.pow_pos_nonneg; lia).
  assert (Hm2 : 2 <= m').
  { rewrite Hm'. destruct (Z.eq_dec e' 0) as [E0 | E0].
    - rewrite E0. cbn. assert (55 <= d1) by (unfold e', Py.fexp64 in E0; lia).
      assert (2 ^ 54 <= 2 ^ (d1 - 1)) by (apply Z.pow_le_mono_r; lia).
      change (2 ^ 54) with 18014398509481984 in *. lia.
    - assert (2 ^ 1 <= 2 ^ (- e')) by (apply Z.pow_le_mono_r; lia).
      change (2 ^ 1) with 2 in *. nia. }
  destruct (Z.div_eucl m' 2) as [q r] eqn:Hdiv.
  pose proof (Z_div_mod m' 2 ltac:(lia)) as Hdm. rewrite Hdiv in Hdm.
  destruct Hdm as [Heq Hr].
  assert (Hq : 1 <= q) by lia.
  destruct q as [|Q|Q]; try lia.
  apply round_aux_loc_finite.
  assert (HdQ : Zpos (digits2_pos Q) <= d1 - e').
  { apply PyFacts.digits2_le; [lia|].
    assert (Zpos Q <= m') by lia.
    assert (m' < 2 ^ (d1 - e')).
    { rewrite Hm'. replace (d1 - e') with (d1 + - e') by lia.
      rewrite Z.pow_add_r by lia. nia. }
    lia. }
  unfold Py.shift_of, Py.fexp64. unfold e', Py.fexp64 in *. lia.
Qed.

Lemma truediv_two a :
  Z.abs a <= 2 ^ 1000 -> exists q, Py.truediv a 2 = Some q.
Proof.
  intros Ha. unfold Py.truediv. destruct a as [|p|p]; [eauto| |];
    cbn [Z.abs Z.to_pos Z.ltb Z.compare] in *;
    rewrite fdiv_two by exact Ha; eauto.
Qed.

(** The quotient of two floats of integer value, both at most [2^1000],
    does not overflow. *)
Lemma fdiv_ints s1 P1 s2 P2 :
  Zpos P1 <= 2 ^ 1000 -> Zpos P2 <= 2 ^ 1000 ->
  Py.is_finite (Py.fdiv (S754_finite s1 P1 0) (S754_finite s2 P2 0)) = true.
Proof.
  intros Ha Hb.
  unfold Py.fdiv, SFdiv, SFdiv_core_binary, Py.prec, Py.emax.
  change (fexp 53 1024) with Py.fexp64. cbn [Zdigits2].
  set (d1 := Zpos (digits2_pos P1)). set (d2 := Zpos (digits2_pos P2)).
  rewrite !Z.add_0_r, !Z.sub_0_r.
  set (e' := Z.min (Py.fexp64 (d1 - d2)) 0).
  assert (He' : e' <= 0) by (unfold e'; lia).
  pose proof (PyFacts.digits2_bounds P1) as [Plo Phi]. fold d1 in Plo, Phi.
  pose proof (PyFacts.digits2_bounds P2) as [Qlo Qhi]. fold d2 in Qlo, Qhi.
  assert (Hd1 : 1 <= d1 <= 1001).
  { split; [unfold d1; lia|].
    apply PyFacts.digits2_le; [lia|].
    eapply Z.le_lt_trans; [exact Ha|]. apply Z.pow_lt_mono_r; lia. }
  assert (Hd2 : 1 <= d2 <= 1001).
  { split; [unfold d2; lia|].
    apply PyFacts.digits2_le; [lia|].
    eapply Z.le_lt_trans; [exact Hb|]. apply Z.pow_lt_mono_r; lia. }
  set (m' := match 0 - e' with
             | 0 => Zpos P1
             | Zpos _ => Z.shiftl (Zpos P1) (0 - e')
             | Zneg _ => 0
             end).
  assert (Hm' : m' = Zpos P1 * 2 ^ (- e')).
  { unfold m'. replace (0 - e') with (- e') by lia.
    destruct (- e') as [|k|k] eqn:Ek; [| |lia].
    - rewrite Z.pow_0_r. lia.
    - rewrite Z.shiftl_mul_pow2 by lia. reflexivity. }
  assert (Hpow : 0 < 2 ^ (- e')) by (apply Z.pow_pos_nonneg; lia).
  assert (Hlow : 2 ^ (d1 - 1 - e') <= m').
  { rewrite Hm'. replace (d1 - 1 - e') with (d1 - 1 + - e') by lia.
    rewrite Z.pow_add_r by lia. nia. }
  assert (Hm2 : Zpos P2 <= m').
  { eapply Z.le_trans; [|exact Hlow].
    eapply Z.le_trans; [apply Z.lt_le_incl; exact Qhi|].
    apply Z.pow_le_mono_r; [lia|]. unfold e', Py.fexp64. lia. }
  destruct (Z.div_eucl m' (Zpos P2)) as [q r] eqn:Hdiv.
  pose proof (Z_div_mod m' (Zpos P2) ltac:(lia)) as Hdm. rewrite Hdiv in Hdm.
  destruct Hdm as [Heq Hr].
  assert (Hq : 1 <= q) by nia.
  destruct q as [|Q|Q]; try lia.
  apply round_aux_loc_finite.
  assert (HdQ : Zpos (digits2_pos Q) <= d1 - e' - d2 + 1).
  { apply PyFacts.digits2_le; [unfold e', Py.fexp64; lia|].
    assert (Hup : m' < 2 ^ (d1 - e')).
    { rewrite Hm'. replace (d1 - e') with (d1 + - e') by lia.
      rewrite Z.pow_add_r by lia. nia. }
    assert (Hsplit : 2 ^ (d1 - e') = 2 ^ (d2 - 1) * 2 ^ (d1 - e' - d2 + 1)).
    { rewrite <- Z.pow_add_r by (unfold e', Py.fexp64; lia). f_equal. lia. }
    assert (0 < 2 ^ (d1 - e' - d2 + 1))
      by (apply Z.pow_pos_nonneg; unfold e', Py.fexp64; lia).
    assert (0 < 2 ^ (d2 - 1)) by (apply Z.pow_pos_nonneg; lia).
    nia. }
  unfold Py.shift_of, Py.fexp64. unfold e', Py.fexp64 in *. lia.
Qed.

(** [a / b] returns for a divisor that is not zero, both numbers at most
    [2^1000] in absolute value. *)
Lemma truediv_defined a b :
  b <> 0 -> Z.abs a <= 2 ^ 1000 -> Z.abs b <= 2 ^ 1000 ->
  exists q, Py.truediv a b = Some q.
Proof.
  intros Hb Ha Hb'. unfold Py.truediv.
  destruct a as [|p|p]; (destruct b as [|b|b]; [contradiction Hb; reflexivity| |]);
    try (eexists; reflexivity);
    cbn [Z.abs Z.to_pos] in *; rewrite fdiv_ints by assumption; eauto.
Qed.

(** [(a / b * 100)] under the same conditions. *)
Lemma percent_defined a b :
  b <> 0 -> Z.abs a <= 2 ^ 1000 -> Z.abs b <= 2 ^ 1000 ->
  exists q, percent a b = Some q.
Proof.
  intros Hb Ha Hb'. unfold percent.
  destruct (truediv_defined a b Hb Ha Hb') as (q & ->). cbn [bind].
  unfold Py.mul_float_int. eexists. reflexivity.
Qed.

End DivFacts.

(** ** The buyer's response returns *)

Module ReturnFacts.
Import YourBuyerAgent.

(** [int(min(budget, v))] is defined when [v] is at least some integer. *)
Lemma int_min2_defined budget v last :
  Py.le (Py.Int last) v = true ->
  exists t, Py.int (Py.min2 (Py.Int budget) v) = Some t.
Proof.
  intros Hle. unfold Py.min2. destruct (Py.lt v (Py.Int budget)) eqn:Hlt.
  - destruct v as [z | f]; [cbn; eauto|].
    cbn [Py.int]. apply DefinedFacts.int_of_float_defined.
    unfold Py.le, Py.lt in *. cbn [Py.xv] in *.
    eapply FloatFacts.between_finite; [exact Hle|].
    apply NumFacts.xlt_xle. exact Hlt.
  - cbn. eauto.
Qed.

Lemma add_one_step_defined r :
  exists factor, Py.add_int_float 1 (concession_step r) = Some factor /\
                 Py.is_finite factor = true.
Proof.
  unfold concession_step.
  destruct (6 <=? r); [|destruct (3 <=? r)];
    (eexists; split; [vm_compute; reflexivity | reflexivity]).
Qed.

(** The counter computation returns on prices of magnitude at most
    [2^999]. *)
Lemma propose_defined context fair seller_price x :
  Py.float_of_int fair = Some x ->
  (forall last, last_item (your_offers context) = Some last ->
                Z.abs last <= 2 ^ 999) ->
  (forall t, Py.int_scaled fair Py.f0_78 = Some t -> Z.abs t <= 2 ^ 999) ->
  Z.abs seller_price <= 2 ^ 999 -> Z.abs (your_budget context) <= 2 ^ 999 ->
  exists last proposed,
    propose context fair seller_price = Some (last, proposed).
Proof.
  intros Hx Hlast H78 Hsp Hb. unfold propose.
  assert (Hl : exists last,
             match last_item (your_offers context) with
             | Some o => Some o
             | None => Py.int_scaled fair Py.f0_78
             end = Some last /\ Z.abs last <= 2 ^ 999).
  { destruct (last_item (your_offers context)) as [o|] eqn:E.
    - exists o. auto.
    - destruct (DefinedFacts.int_scaled_defined fair x _ Hx
                  DefinedFacts.shrinking_0_78) as (t & Ht).
      exists t. split; [exact Ht | apply H78; exact Ht]. }
  destruct Hl as (last & -> & Hl). cbn [bind].
  assert (H2 : 2 ^ 1000 = 2 * 2 ^ 999) by reflexivity.
  destruct (DivFacts.truediv_two
              (last + Z.min seller_price (your_budget context)))
    as (midpoint & Hmid); [lia|].
  rewrite Hmid. cbn [bind].
  destruct (add_one_step_defined (10 - current_round context))
    as (factor & -> & Hfac).
  cbn [bind].
  destruct (TotalFacts.float_of_int_defined last ltac:(lia)) as (xl & Hxl).
  unfold Py.mul_int_float at 1. rewrite Hxl. cbn [bind].
  set (v := Py.max3 (Py.Int last) (Py.Float (Py.fmul xl factor))
              (Py.Float (Py.fmul midpoint Py.f0_97))).
  assert (Hmax : Py.is_maximum v
                   [Py.Int last; Py.Float (Py.fmul xl factor);
                    Py.Float (Py.fmul midpoint Py.f0_97)]).
  { apply FloatFacts.max3_is_maximum.
    - apply NumFacts.int_not_nan.
    - apply FloatFacts.fmul_not_nan;
        [eapply FloatFacts.float_of_int_finite; exact Hxl | exact Hfac].
    - apply FloatFacts.fmul_not_nan;
        [eapply FloatFacts.truediv_finite; exact Hmid | reflexivity]. }
  destruct Hmax as [_ Hmax].
  destruct (int_min2_defined (your_budget context) v last) as (cand & ->).
  { apply Hmax. cbn. auto. }
  cbn [bind].
  destruct (9 <=? current_round context).
  - destruct (DefinedFacts.int_scaled_defined fair x _ Hx LadderFacts.shrinking_0_90)
      as (t & ->).
    cbn [bind]. eauto.
  - destruct (DefinedFacts.int_scaled_defined fair x _ Hx LadderFacts.shrinking_0_92)
      as (t & ->).
    cbn [bind]. eauto.
Qed.

(** The response returns on prices of magnitude at most [2^999]. *)
Lemma respond_defined context seller_price seller_message fair :
  calculate_fair_price (product context) = Some fair ->
  (forall last, last_item (your_offers context) = Some last ->
                Z.abs last <= 2 ^ 999) ->
  (forall t, Py.int_scaled fair Py.f0_78 = Some t -> Z.abs t <= 2 ^ 999) ->
  Z.abs seller_price <= 2 ^ 999 -> Z.abs (your_budget context) <= 2 ^ 999 ->
  exists status price msg,
    respond_to_seller_offer context seller_price seller_message
      = Some (status, price, msg).
Proof.
  intros Hf Hlast H78 Hsp Hb. unfold respond_to_seller_offer.
  destruct (DefinedFacts.buyer_fair_convertible _ _ Hf) as (x & Hx).
  destruct (DefinedFacts.target_zone_defined _ _ Hf) as (low & high & Hz).
  rewrite Hf, Hz. cbn [bind].
  destruct ((seller_price <=? your_budget context) && (low <=? seller_price)
            && (seller_price <=? high)); [eauto|].
  destruct (DefinedFacts.int_scaled_defined fair x _ Hx
              DefinedFacts.shrinking_0_85) as (t85 & H85).
  rewrite H85.
  assert (Hsnap : exists b,
             (if seller_price <=? your_budget context
              then t <- Some t85 ;; Some (seller_price <=? t)
              else Some false) = Some b).
  { destruct (seller_price <=? your_budget context); cbn; eauto. }
  destruct Hsnap as (snap & ->). cbn [bind].
  destruct snap; [eauto|].
  destruct (propose_defined context fair seller_price x Hx Hlast H78 Hsp Hb)
    as (last & proposed & ->).
  cbn [bind].
  assert (Htol : exists tol,
             (y <- Py.mul_float_int Py.f0_015 fair ;; Py.int_of_float y)
             = Some tol).
  { unfold Py.mul_float_int. rewrite Hx. cbn [bind].
    apply DefinedFacts.int_of_float_defined.
    rewrite FloatFacts.fmul_comm. apply DefinedFacts.fmul_shrink.
    - eapply DefinedFacts.float_of_int_bounded. exact Hx.
    - exact LadderFacts.shrinking_0_015. }
  destruct Htol as (tol & ->).
  assert (Hal : exists b,
             (if seller_price <=? your_budget context
              then t <- Some tol ;;
                   Some (Z.abs (seller_price - proposed) <=? t)
              else Some false) = Some b).
  { destruct (seller_price <=? your_budget context); cbn; eauto. }
  destruct Hal as (aligned & ->). cbn [bind].
  destruct aligned; [eauto|].
  destruct (seller_price <=? Z.min (your_budget context) proposed); eauto.
Qed.

End ReturnFacts.

(** ** Runs of [YourBuyerAgent] return *)

Module ReturnLoopFacts.

(** A price scaled by a constant of at most two is at most twice the
    price. *)
Lemma int_scaled_double n mc ec t :
  0 <= n -> (1 # 4 <= Py.mag mc ec)%Q ->
  (Py.mag mc ec * ((1 + Py.eps) * (1 + Py.eps)) <= 2)%Q ->
  Py.int_scaled n (S754_finite false mc ec) = Some t ->
  0 <= t <= 2 * n.
Proof.
  intros Hn Hc Hle H. destruct (Z.eq_dec n 0) as [-> | Hne].
  - cbv in H. injection H as <-. lia.
  - unfold Py.int_scaled in H. apply bind_Some in H as (r & Hr & H).
    destruct (LadderFacts.mul_int_float_bounds n mc ec r ltac:(lia) Hc Hr)
      as [-> | (m & e & -> & Hlo & Hhi)]; [discriminate H|].
    unfold Py.int_of_float in H. cbn [Py.is_finite Py.F2Q cond_Zopp] in H.
    injection H as <-. fold (Py.mag m e).
    pose proof (PyFacts.mag_pos m e) as Hq.
    assert (Hn1 : (1 <= inject_Z n)%Q).
    { change 1%Q with (inject_Z 1). rewrite <- Zle_Qle. lia. }
    pose proof (PyFacts.mag_pos mc ec) as HC.
    split.
    + apply NumFacts.trunc_ge. change (inject_Z 0) with 0%Q. lra.
    + apply NumFacts.trunc_le. rewrite inject_Z_mult.
      change (inject_Z 2) with (2 # 1)%Q. unfold Py.eps in *. nra.
Qed.

(** The seller's opening price: between nothing and twice the base price. *)
Lemma opening_price_range p sp sm :
  0 <= base_market_price p ->
  MockSellerAgent.get_opening_price p = Some (sp, sm) ->
  0 <= sp <= 2 * base_market_price p.
Proof.
  intros Hb H. unfold MockSellerAgent.get_opening_price in H.
  apply bind_Some in H as (t & Ht & H). injection H as <- _.
  eapply int_scaled_double; [exact Hb | | | exact Ht]; vm_compute; discriminate.
Qed.

Lemma opening_price_defined p :
  Z.abs (base_market_price p) <= 2 ^ 1000 ->
  exists sp sm, MockSellerAgent.get_opening_price p = Some (sp, sm).
Proof.
  intros Hb. unfold MockSellerAgent.get_opening_price.
  assert (M : moderate Py.f1_5).
  { eexists _, _; split; [reflexivity|]; split; [cbn; lia|];
      split; vm_compute; discriminate. }
  destruct (TotalFacts.int_scaled_moderate _ _ Hb M) as (t & ->).
  cbn [bind]. eauto.
Qed.

(** A counter-offer of the mock seller is at most its minimum or twice the
    buyer's offer. *)
Lemma mock_counter_range min_price buyer_offer round_num price msg :
  0 <= buyer_offer ->
  MockSellerAgent.respond_to_buyer min_price buyer_offer round_num
    = Some (price, msg, false) ->
  buyer_offer <= price <= Z.max min_price (2 * buyer_offer).
Proof.
  intros Ho H.
  destruct (MockFacts.respond_cases _ _ _ _ _ _ H)
    as [(Hacc & _) | (_ & _ & Hge)]; [discriminate Hacc|].
  split; [exact Hge|].
  unfold MockSellerAgent.respond_to_buyer in H.
  apply bind_Some in H as (thr & _ & H).
  destruct (Py.ge _ _); [discriminate H|].
  destruct (8 <=? round_num);
    apply bind_Some in H as (raised & Hr & H); injection H as <- _;
    (assert (0 <= raised <= 2 * buyer_offer);
     [eapply int_scaled_double; [exact Ho | | | exact Hr];
      vm_compute; discriminate | lia]).
Qed.

(** The opening anchor of the buyer on a bounded base price. *)
Lemma anchor_range p fair t :
  0 <= base_market_price p <= 2 ^ 990 ->
  YourBuyerAgent.calculate_fair_price p = Some fair ->
  Py.int_scaled fair Py.f0_78 = Some t ->
  0 <= t <= 2 ^ 992.
Proof.
  intros [Hb0 Hb1] Hf Ht.
  pose proof (ThresholdFacts.buyer_fair_nonneg p fair Hb0 Hf) as Hf0.
  destruct (RangeFacts.buyer_fair_range p fair Hb0 Hf) as [_ Hup].
  assert (H0 : 0 <= t <= fair).
  { eapply (LadderFacts.int_scaled_le fair); [exact Hf0 | | | exact Ht];
      vm_compute; discriminate. }
  assert (2 ^ 992 = 4 * 2 ^ 990) by reflexivity. lia.
Qed.

Lemma pow2_999 : 2 ^ 999 = 512 * 2 ^ 990.
Proof. reflexivity. Qed.

Lemma pow2_1000 : 2 ^ 1000 = 1024 * 2 ^ 990.
Proof. reflexivity. Qed.

Section Bounded.

Variable p : Product.
Variable budget seller_min : Z.
Hypothesis Hbase : 0 <= base_market_price p <= 2 ^ 990.
Hypothesis Hbudget : 0 <= budget <= 2 ^ 990.
Hypothesis Hmin : Z.abs seller_min <= 2 ^ 990.

(** The buyer's call returns in every state of the invariant. *)
Lemma buyer_turn_bounded k s :
  bounded_inv p budget k s ->
  exists st bo msg,
    buyer_turn your_buyer_agent (Z.of_nat k)
      (set_round (ls_context s) (Z.of_nat k + 1))
      (ls_seller_price s) (ls_seller_msg s) = Some (st, bo, msg) /\
    0 <= bo <= budget.
Proof.
  intros ((Hb & Hlen & Hs & Hl) & Hp & Hd & Hsp & Hpos).
  pose proof pow2_999 as P999. pose proof pow2_1000 as P1000.
  destruct (WindowFacts.buyer_fair_defined p ltac:(lia)) as (fair & Hf).
  assert (Hturn : exists st bo msg,
             buyer_turn your_buyer_agent (Z.of_nat k)
               (set_round (ls_context s) (Z.of_nat k + 1))
               (ls_seller_price s) (ls_seller_msg s) = Some (st, bo, msg)).
  { unfold buyer_turn. destruct (Z.of_nat k =? 0) eqn:Hk.
    - cbn [generate_opening_offer your_buyer_agent].
      unfold YourBuyerAgent.generate_opening_offer.
      cbn [set_round product your_budget]. rewrite Hp, Hf. cbn [bind].
      destruct (DefinedFacts.buyer_fair_convertible _ _ Hf) as (x & Hx).
      destruct (DefinedFacts.int_scaled_defined fair x _ Hx
                  DefinedFacts.shrinking_0_78) as (t & ->).
      cbn [bind]. eauto.
    - cbn [respond_to_seller_offer your_buyer_agent].
      apply (ReturnFacts.respond_defined _ _ _ fair).
      + cbn [set_round product]. rewrite Hp. exact Hf.
      + cbn [set_round your_offers]. intros last Hlast.
        specialize (Hpos last Hlast). destruct (Hl last Hlast). lia.
      + intros t Ht. pose proof (anchor_range p fair t Hbase Hf Ht).
        assert (2 ^ 992 = 4 * 2 ^ 990) by reflexivity. lia.
      + lia.
      + cbn [set_round your_budget]. lia. }
  destruct Hturn as (st & bo & msg & Hturn).
  exists st, bo, msg. split; [exact Hturn|].
  pose proof Hturn as Hcopy.
  apply (RunFacts.your_agent_turn _ _ _ _ _ _ _ budget) in Hcopy
      as (Hbo & Hlast & _);
    [| exact Hb
     | intros Hk; cbn [set_round your_offers];
       destruct (your_offers (ls_context s)); [reflexivity | cbn in Hlen; lia]
     | exact Hl].
  split; [|exact Hbo].
  cbn [set_round your_offers] in Hlast.
  destruct (last_item (your_offers (ls_context s))) as [l|] eqn:El.
  - specialize (Hlast l eq_refl). specialize (Hpos l eq_refl). lia.
  - assert (Hnil : your_offers (ls_context s) = []).
    { destruct (your_offers (ls_context s)) as [|a r] eqn:Eo using rev_ind;
        [reflexivity|].
      rewrite HistoryFacts.last_item_snoc in El. discriminate El. }
    assert (Hk : Z.of_nat k = 0) by (rewrite Hnil in Hlen; cbn in Hlen; lia).
    unfold buyer_turn in Hturn. rewrite Hk in Hturn. cbn [Z.eqb] in Hturn.
    cbn [generate_opening_offer your_buyer_agent] in Hturn.
    unfold YourBuyerAgent.generate_opening_offer in Hturn.
    cbn [set_round product your_budget] in Hturn. rewrite Hp, Hf in Hturn.
    cbn [bind] in Hturn. apply bind_Some in Hturn as ([o m] & Ho & Hturn).
    injection Hturn as _ <- _.
    cbn [bind] in Ho. apply bind_Some in Ho as (t & Ht & Ho).
    injection Ho as <- _.
    pose proof (anchor_range p fair t Hbase Hf Ht). lia.
Qed.

(** One iteration returns; it keeps the invariant when the loop goes on and
    leaves a settled state when it breaks. *)
Lemma round_body_bounded k s :
  bounded_inv p budget k s ->
  exists s' f,
    round_body your_buyer_agent seller_min (Z.of_nat k) s = Some (s', f) /\
    match f with
    | Next => bounded_inv p budget (S k) s'
    | Break => ls_deal_made s' = true /\ settled s'
    end.
Proof.
  intros Hinv. pose proof pow2_999 as P999. pose proof pow2_1000 as P1000.
  destruct (buyer_turn_bounded k s Hinv) as (st & bo & msg & Hturn & Hbo).
  pose proof Hinv as ((Hb & Hlen & Hs & Hl) & Hp & Hd & Hsp & Hpos).
  destruct (TotalFacts.mock_respond_defined seller_min bo (Z.of_nat k)
              ltac:(lia) ltac:(lia)) as (counter & smsg & acc & Hresp).
  destruct (round_body your_buyer_agent seller_min (Z.of_nat k) s)
    as [[s' f]|] eqn:Hbody.
  - exists s', f. split; [reflexivity|].
    pose proof (RunFacts.round_body_step seller_min budget k s s' f
                  (conj Hb (conj Hlen (conj Hs Hl))) Hbody) as [_ Hnext].
    unfold round_body in Hbody. rewrite Hturn in Hbody. cbn [bind] in Hbody.
    destruct (DealStatus_eqb st ACCEPTED).
    + injection Hbody as <- <-. cbn. split; [reflexivity|].
      exists (ls_seller_price s). split; [reflexivity | exact Hsp].
    + rewrite Hresp in Hbody. cbn [bind] in Hbody. destruct acc.
      * injection Hbody as <- <-. cbn. split; [reflexivity|].
        exists bo. split; [reflexivity | lia].
      * injection Hbody as <- <-.
        split; [apply Hnext; reflexivity|]. cbn.
        split; [exact Hp|]. split; [exact Hd|].
        pose proof (mock_counter_range _ _ _ _ _ (proj1 Hbo) Hresp).
        split; [lia|].
        intros last. rewrite HistoryFacts.last_item_snoc. intros [= <-]. lia.
  - exfalso. unfold round_body in Hbody. rewrite Hturn in Hbody.
    cbn [bind] in Hbody.
    destruct (DealStatus_eqb st ACCEPTED); [discriminate Hbody|].
    rewrite Hresp in Hbody. cbn [bind] in Hbody.
    destruct acc; discriminate Hbody.
Qed.


(** The state in which the loop starts satisfies the invariant. *)
Lemma initial_bounded :
  exists s0, initial_state p budget = Some s0 /\ bounded_inv p budget 0 s0.
Proof.
  pose proof pow2_999 as P999. pose proof pow2_1000 as P1000.
  destruct (opening_price_defined p ltac:(lia)) as (sp & sm & Hopen).
  pose proof (opening_price_range p sp sm (proj1 Hbase) Hopen) as Hr.
  unfold initial_state. rewrite Hopen. cbn [bind].
  eexists. split; [reflexivity|].
  unfold bounded_inv, loop_inv. cbn.
  repeat split; try reflexivity; try lia; try constructor;
    intros; discriminate.
Qed.


End Bounded.

End ReturnLoopFacts.

(** ** The states of a run *)

Module RunStateFacts.

Section Run.

Variable agent : BaseBuyerAgent.
Variable seller_min : Z.
Variable p : Product.
Variable buyer_budget : Z.

(** An accepting turn ends the loop with a deal. *)
Lemma turn_accepts_break k s :
  turn_accepts agent seller_min k s ->
  exists s', round_body agent seller_min k s = Some (s', Break) /\
             ls_deal_made s' = true.
Proof.
  intros (st & bo & msg & Hturn & Hacc). unfold round_body.
  rewrite Hturn. cbn [bind].
  destruct Hacc as [-> | (counter & smsg & Hresp)].
  - cbn [DealStatus_eqb]. eexists. split; reflexivity.
  - destruct (DealStatus_eqb st ACCEPTED);
      [eexists; split; reflexivity|].
    rewrite Hresp. cbn [bind]. eexists. split; reflexivity.
Qed.

(** A turn that ends the loop is an accepting turn; it sets the price and
    leaves the round counter at its own number. *)
Lemma break_accepts k s s' :
  round_body agent seller_min k s = Some (s', Break) ->
  turn_accepts agent seller_min k s /\ ls_deal_made s' = true /\
  current_round (ls_context s') = k + 1 /\
  exists fp, ls_final_price s' = Some fp.
Proof.
  unfold round_body, turn_accepts. intros H.
  apply bind_Some in H as ([[st bo] msg] & Hturn & H).
  destruct (DealStatus_eqb st ACCEPTED) eqn:Hst.
  - injection H as <-. cbn. split; [|eauto].
    exists st, bo, msg. split; [exact Hturn|]. left.
    destruct st; try discriminate Hst; reflexivity.
  - apply bind_Some in H as ([[sp smsg] acc] & Hresp & H).
    destruct acc; [|discriminate H].
    injection H as <-. cbn. split; [|eauto].
    exists st, bo, msg. split; [exact Hturn|]. right. eauto.
Qed.

(** A turn after which the loop goes on makes no deal. *)
Lemma next_keeps k s s' :
  round_body agent seller_min k s = Some (s', Next) ->
  ls_deal_made s' = ls_deal_made s /\
  ls_final_price s' = ls_final_price s /\
  current_round (ls_context s') = k + 1.
Proof.
  unfold round_body. intros H.
  apply bind_Some in H as ([[st bo] msg] & Hturn & H).
  destruct (DealStatus_eqb st ACCEPTED); [discriminate H|].
  apply bind_Some in H as ([[sp smsg] acc] & Hresp & H).
  destruct acc; [discriminate H|].
  injection H as <-. cbn. auto.
Qed.

Lemma reaches_no_deal k s :
  reaches agent seller_min p buyer_budget k s ->
  ls_deal_made s = false /\ ls_final_price s = None /\
  current_round (ls_context s) = Z.of_nat k.
Proof.
  induction 1 as [s0 H0 | k s s' _ (IH1 & IH2 & IH3) Hbody].
  - destruct (initial_state_shape _ _ _ H0)
      as (_ & Hr & _ & Hd & Hf).
    auto.
  - destruct (next_keeps _ _ _ Hbody) as (Hd & Hf & Hr).
    repeat split; [congruence | congruence | lia].
Qed.

(** From a state of the run the loop goes on as the run does. *)
Lemma reaches_loop k s :
  reaches agent seller_min p buyer_budget k s -> (k <= 10)%nat ->
  negotiation_loop agent seller_min p buyer_budget
  = for_rounds agent seller_min (map Z.of_nat (seq k (10 - k))) s.
Proof.
  induction 1 as [s0 H0 | k s s' _ IH Hbody]; intros Hk.
  - unfold negotiation_loop. rewrite H0. reflexivity.
  - rewrite IH by lia.
    replace (10 - k)%nat with (S (10 - S k)) by lia.
    cbn [seq map for_rounds]. rewrite Hbody. reflexivity.
Qed.

(** The rounds from a state of the run end after all of them, in a state of
    the run, or with the accepting turn of one of them. *)
Lemma rounds_from n : forall k s sf,
  reaches agent seller_min p buyer_budget k s ->
  for_rounds agent seller_min (map Z.of_nat (seq k n)) s = Some sf ->
  reaches agent seller_min p buyer_budget (k + n) sf \/
  exists j sj,
    (k <= j < k + n)%nat /\ reaches agent seller_min p buyer_budget j sj /\
    round_body agent seller_min (Z.of_nat j) sj = Some (sf, Break).
Proof.
  induction n as [|n IH]; intros k s sf Hreach H.
  - injection H as <-. left. rewrite Nat.add_0_r. exact Hreach.
  - cbn [seq map for_rounds] in H.
    apply bind_Some in H as ([s1 f] & Hbody & H). destruct f.
    + destruct (IH (S k) s1 sf (reaches_next _ _ _ _ _ _ _ Hreach Hbody) H)
        as [Hend | (j & sj & Hj & Hrj & Hbj)].
      * left. replace (k + S n)%nat with (S k + n)%nat by lia. exact Hend.
      * right. exists j, sj. split; [lia | auto].
    + injection H as <-. right. exists k, s. split; [lia | auto].
Qed.

(** The state in which the loop ends: after 10 turns without acceptance, or
    with the accepting turn. *)
Lemma loop_outcome sf :
  negotiation_loop agent seller_min p buyer_budget = Some sf ->
  (reaches agent seller_min p buyer_budget 10 sf /\
   ~ acceptance_occurs agent seller_min p buyer_budget) \/
  (exists j sj,
      (j < 10)%nat /\ reaches agent seller_min p buyer_budget j sj /\
      round_body agent seller_min (Z.of_nat j) sj = Some (sf, Break)).
Proof.
  intros H. pose proof H as Hloop. unfold negotiation_loop in H.
  apply bind_Some in H as (s0 & H0 & H).
  destruct (rounds_from 10 0 s0 sf (reaches_first _ _ _ _ _ H0) H)
    as [Hend | (j & sj & Hj & Hrj & Hbj)].
  - left. split; [exact Hend|]. intros (k & s & Hk & Hr & Hacc).
    destruct (turn_accepts_break _ _ Hacc) as (s' & Hbody & Hd).
    rewrite (reaches_loop k s Hr) in Hloop by lia.
    replace (10 - k)%nat with (S (10 - S k)) in Hloop by lia.
    cbn [seq map for_rounds] in Hloop. rewrite Hbody in Hloop.
    cbn [bind] in Hloop. injection Hloop as <-.
    destruct (reaches_no_deal _ _ Hend) as (Hnd & _). congruence.
  - right. exists j, sj. split; [lia | auto].
Qed.

(** The verdict of the loop: no deal after 10 turns without an acceptance,
    or a deal made by the accepting turn, which is the last. *)
Lemma loop_verdict sf :
  negotiation_loop agent seller_min p buyer_budget = Some sf ->
  (ls_deal_made sf = false /\ ls_final_price sf = None /\
   current_round (ls_context sf) = 10 /\
   ~ acceptance_occurs agent seller_min p buyer_budget) \/
  (ls_deal_made sf = true /\
   exists k sk fp,
     (k < 10)%nat /\ reaches agent seller_min p buyer_budget k sk /\
     turn_accepts agent seller_min (Z.of_nat k) sk /\
     current_round (ls_context sf) = Z.of_nat k + 1 /\
     ls_final_price sf = Some fp).
Proof.
  intros H.
  destruct (loop_outcome sf H) as [(Hend & Hno) | (j & sj & Hj & Hrj & Hbj)].
  - left. destruct (reaches_no_deal _ _ Hend) as (Hd & Hf & Hr). auto.
  - right. destruct (break_accepts _ _ _ Hbj) as (Hacc & Hd & Hr & fp & Hfp).
    split; [exact Hd|]. exists j, sj, fp. auto.
Qed.

(** The loop returns when the calls it makes of the agent do. *)
Lemma rounds_return n : forall k s,
  calls_return agent seller_min p buyer_budget ->
  Z.abs seller_min <= 2 ^ 1000 ->
  (k + n <= 10)%nat ->
  reaches agent seller_min p buyer_budget k s ->
  exists sf, for_rounds agent seller_min (map Z.of_nat (seq k n)) s = Some sf.
Proof.
  induction n as [|n IH]; intros k s Hret Hmin Hk Hreach.
  - exists s. reflexivity.
  - cbn [seq map for_rounds].
    destruct (Hret k s ltac:(lia) Hreach) as (st & bo & msg & Hturn & Hbo).
    destruct (TotalFacts.mock_respond_defined seller_min bo (Z.of_nat k)
                Hmin Hbo) as (counter & smsg & acc & Hresp).
    destruct (round_body agent seller_min (Z.of_nat k) s) as [[s1 f]|]
      eqn:Hbody.
    + cbn [bind]. destruct f; [|eauto].
      apply (IH (S k) s1 Hret Hmin); [lia|].
      exact (reaches_next _ _ _ _ _ _ _ Hreach Hbody).
    + exfalso. unfold round_body in Hbody. rewrite Hturn in Hbody.
      cbn [bind] in Hbody.
      destruct (DealStatus_eqb st ACCEPTED); [discriminate Hbody|].
      rewrite Hresp in Hbody. cbn [bind] in Hbody.
      destruct acc; discriminate Hbody.
Qed.

Lemma loop_returns :
  calls_return agent seller_min p buyer_budget ->
  Z.abs seller_min <= 2 ^ 1000 ->
  Z.abs (base_market_price p) <= 2 ^ 1000 ->
  exists sf, negotiation_loop agent seller_min p buyer_budget = Some sf.
Proof.
  intros Hret Hmin Hbase.
  destruct (ReturnLoopFacts.opening_price_defined p Hbase)
    as (sp & sm & Hopen).
  assert (H0 : exists s0, initial_state p buyer_budget = Some s0).
  { unfold initial_state. rewrite Hopen. cbn [bind]. eauto. }
  destruct H0 as (s0 & H0).
  unfold negotiation_loop. rewrite H0. cbn [bind].
  apply (rounds_return 10 0 s0 Hret Hmin); [lia|].
  apply reaches_first. exact H0.
Qed.

End Run.

(** In a run of [YourBuyerAgent] on bounded prices every state satisfies
    the invariant of the bounds, and every call of the agent returns. *)
Lemma reaches_bounded p budget seller_min k s :
  0 <= base_market_price p <= 2 ^ 990 ->
  0 <= budget <= 2 ^ 990 ->
  Z.abs seller_min <= 2 ^ 990 ->
  reaches your_buyer_agent seller_min p budget k s ->
  bounded_inv p budget k s.
Proof.
  intros Hbase Hbudget Hmin.
  induction 1 as [s0 H0 | k s s' _ IH Hbody].
  - pose proof (ReturnLoopFacts.initial_bounded p budget seller_min) as Hi.
    repeat specialize (Hi ltac:(assumption)).
    destruct Hi as (s1 & H1 & Hinv). congruence.
  - destruct (ReturnLoopFacts.round_body_bounded p budget seller_min
                Hbase Hbudget Hmin k s IH) as (s1 & f & H1 & Hf).
    rewrite Hbody in H1. injection H1 as <- <-. exact Hf.
Qed.

Lemma your_agent_calls_return p budget seller_min :
  0 <= base_market_price p <= 2 ^ 990 ->
  0 <= budget <= 2 ^ 990 ->
  Z.abs seller_min <= 2 ^ 990 ->
  calls_return your_buyer_agent seller_min p budget.
Proof.
  intros Hbase Hbudget Hmin k s _ Hreach.
  pose proof (reaches_bounded _ _ _ _ _ Hbase Hbudget Hmin Hreach) as Hinv.
  pose proof (ReturnLoopFacts.buyer_turn_bounded p budget seller_min) as Ht.
  repeat specialize (Ht ltac:(assumption)).
  destruct Ht as (st & bo & msg & Hturn & Hbo).
  exists st, bo, msg. split; [exact Hturn|].
  pose proof ReturnLoopFacts.pow2_1000. lia.
Qed.

End RunStateFacts.

(** ** The counter computation of the buyer *)

Module ScheduleFacts.

(** The proposal of the counter computation, by the steps that lead to
    it. *)
Lemma propose_schedule context fair seller_price last proposed :
  YourBuyerAgent.propose context fair seller_price = Some (last, proposed) ->
  let budget := your_budget context in
  let rounds_left := 10 - current_round context in
  exists step factor stepped midpoint v candidate,
    ((6 <= rounds_left -> step = Py.f0_07) /\
     (3 <= rounds_left <= 5 -> step = Py.f0_045) /\
     (rounds_left < 3 -> step = Py.f0_03)) /\
    (last_item (your_offers context) = Some last \/
     your_offers context = [] /\ Py.int_scaled fair Py.f0_78 = Some last) /\
    Py.add_int_float 1 step = Some factor /\
    Py.mul_int_float last factor = Some stepped /\
    Py.truediv (last + Z.min seller_price budget) 2 = Some midpoint /\
    Py.is_maximum v [Py.Int last; Py.Float stepped;
                     Py.Float (Py.fmul midpoint Py.f0_97)] /\
    (Py.lt v (Py.Int budget) = true -> Py.int v = Some candidate) /\
    (Py.lt v (Py.Int budget) = false -> candidate = budget) /\
    (9 <= current_round context ->
     exists floor90, Py.int_scaled fair Py.f0_90 = Some floor90 /\
                     proposed = Z.min budget (Z.max candidate floor90) /\
                     proposed <= budget) /\
    (current_round context < 9 ->
     exists cap92, Py.int_scaled fair Py.f0_92 = Some cap92 /\
                   proposed = Z.min candidate (Z.max cap92 last)).
Proof.
  intros H budget rounds_left.
  pose proof (BuyerFacts.propose_last _ _ _ _ _ H) as Hstart.
  unfold YourBuyerAgent.propose in H.
  apply bind_Some in H as (last0 & Hlast & H).
  apply bind_Some in H as (midpoint & Hmid & H).
  apply bind_Some in H as (factor & Hfac & H).
  apply bind_Some in H as (stepped & Hstep & H).
  apply bind_Some in H as (candidate & Hcand & H).
  set (v := Py.max3 (Py.Int last0) (Py.Float stepped)
                    (Py.Float (Py.fmul midpoint Py.f0_97))) in *.
  assert (Hl : last0 = last).
  { destruct (9 <=? current_round context); bind_inv H;
      injection H as <- _; reflexivity. }
  subst last0.
  exists (YourBuyerAgent.concession_step rounds_left), factor, stepped,
    midpoint, v, candidate.
  split; [|split; [|split; [|split; [|split; [|split; [|split; [|split;
    [|split]]]]]]]].
  - unfold YourBuyerAgent.concession_step. repeat split; intros Hr.
    + replace (6 <=? rounds_left) with true
        by (symmetry; apply Z.leb_le; lia).
      reflexivity.
    + replace (6 <=? rounds_left) with false
        by (symmetry; apply Z.leb_gt; lia).
      replace (3 <=? rounds_left) with true
        by (symmetry; apply Z.leb_le; lia).
      reflexivity.
    + replace (6 <=? rounds_left) with false
        by (symmetry; apply Z.leb_gt; lia).
      replace (3 <=? rounds_left) with false
        by (symmetry; apply Z.leb_gt; lia).
      reflexivity.
  - exact Hstart.
  - exact Hfac.
  - exact Hstep.
  - exact Hmid.
  - apply FloatFacts.max3_is_maximum.
    + apply NumFacts.int_not_nan.
    + eapply FloatFacts.mul_int_float_not_nan; [|exact Hstep].
      eapply BuyerFacts.add_one_step_finite. exact Hfac.
    + apply FloatFacts.fmul_not_nan;
        [eapply FloatFacts.truediv_finite; exact Hmid | reflexivity].
  - intros Hlt. unfold budget in Hlt. unfold Py.min2 in Hcand.
    rewrite Hlt in Hcand. exact Hcand.
  - intros Hlt. unfold budget in Hlt. unfold Py.min2 in Hcand.
    rewrite Hlt in Hcand. injection Hcand as <-. reflexivity.
  - intros Hr. replace (9 <=? current_round context) with true in H
      by (symmetry; apply Z.leb_le; lia).
    apply bind_Some in H as (floor90 & Hfl & H). injection H as <-.
    exists floor90. split; [assumption|]. split; [reflexivity|].
    unfold budget. lia.
  - intros Hr. replace (9 <=? current_round context) with false in H
      by (symmetry; apply Z.leb_gt; lia).
    apply bind_Some in H as (cap92 & Hcap & H). injection H as <-.
    exists cap92. split; [assumption|]. reflexivity.
Qed.

End ScheduleFacts.

(** * The claims *)

(** ** The buyer strategy *)

(** C1, budget invariant. For every negotiation context, every integer the
    buyer strategy returns is at most the budget: the opening offer of
    [generate_opening_offer], and the price returned by
    [respond_to_seller_offer] on each of its five return statements (zone,
    snap, convergence and dominance accept, and the ONGOING counter). *)
Theorem budget_invariant (context : NegotiationContext) :
  (forall offer msg,
      YourBuyerAgent.generate_opening_offer context = Some (offer, msg) ->
      offer <= your_budget context) /\
  (forall seller_price seller_message status price msg,
      YourBuyerAgent.respond_to_seller_offer context seller_price
                                             seller_message
        = Some (status, price, msg) ->
      price <= your_budget context).
Proof.
  split.
  - intros offer msg H. eapply BuyerFacts.opening_within_budget. exact H.
  - intros sp sm st price msg H.
    apply BuyerFacts.respond_inv in H as (fair & low & high & _ & _ & H).
    destruct H as [H | [H | (last & proposed & _ & [H | [H | H]])]]; lia.
Qed.

Lemma budget_invariant_witness : 147420 <= 162000 /\ 157739 <= 162000.
Proof.
  split.
  - apply (proj1 (budget_invariant (context_at alphonso 162000 1 [270000] []))
             147420 (MsgOpening 147420)).
    vm_compute. reflexivity.
  - apply (proj2 (budget_invariant
                    (context_at alphonso 162000 2 [270000; 169533] [147420]))
             169533 (MsgComeDown 169533) ONGOING 157739 (MsgMoveTo 157739)).
    vm_compute. reflexivity.
Defined.

(** C10, acceptance price identity. Whenever [respond_to_seller_offer]
    returns ACCEPTED, on any of its four accepting return statements, the
    integer it returns is the seller's price. *)
Theorem acceptance_price_identity context seller_price seller_message price
    msg :
  YourBuyerAgent.respond_to_seller_offer context seller_price seller_message
    = Some (ACCEPTED, price, msg) ->
  price = seller_price.
Proof.
  intros H. apply BuyerFacts.respond_inv in H as (fair & low & high & _ & _ & H).
  destruct H as [H | [H | (last & proposed & _ & [H | [H | H]])]];
    try (destruct H as (_ & _ & _ & H & _); exact H);
    try (destruct H as (_ & _ & H & _); exact H).
  destruct H as (H & _). discriminate.
Qed.

Lemma acceptance_price_identity_witness :
  YourBuyerAgent.respond_to_seller_offer
    (context_at alphonso 216000 2 [270000; 169533] [147420]) 169533
    (MsgComeDown 169533)
  = Some (ACCEPTED, 169533, MsgAgreed 169533) /\ 169533 = 169533.
Proof.
  assert (H : YourBuyerAgent.respond_to_seller_offer
                (context_at alphonso 216000 2 [270000; 169533] [147420])
                169533 (MsgComeDown 169533)
              = Some (ACCEPTED, 169533, MsgAgreed 169533))
    by (vm_compute; reflexivity).
  split; [exact H|]. exact (acceptance_price_identity _ _ _ _ _ H).
Defined.

(** The claim C3 as stated fails: a lot of grade "a" with base price 100 has
    fair price 105, where the factor 1.0 of "any other grade" gives 100. *)
Lemma fair_price_formula_counterexample : ~ fair_price_formula_as_stated.
Proof.
  intros H. specialize (H (lot "a" "Ratnagiri" 100 10)).
  vm_compute in H. discriminate H.
Qed.

(** C3, fair price formula, amended. For every product,
    [calculate_fair_price] is the rounding to the nearest integer of
    base price * quality factor * origin factor * volume factor, where the
    quality factor is looked up after the grade is stripped of surrounding
    white space, that of Unicode included, and lower-cased: 1.15 for
    "export", 1.05 for "a", 0.95 for "b" (so for the grades written Export,
    A and B, and for A after a no-break space U+00A0), and 1.0 for every
    other grade, without an error; the origin factor is 1.05 when the lower-cased
    origin is in the bonus set and 1.0 otherwise; the volume factor is 0.98
    from quantity 200 on and 1.0 below. For base price 180000, grade A,
    quantity 100 and origin Ratnagiri the fair price is 189000. The
    function returns a price, with no error, for every product whose base
    price has magnitude at most 2^1000. *)
Theorem fair_price_formula (p : Product) :
  YourBuyerAgent.calculate_fair_price p
    = fair_price_with normalised_quality_factor p /\
  (Z.abs (base_market_price p) <= 2 ^ 1000 ->
   exists fair, YourBuyerAgent.calculate_fair_price p = Some fair) /\
  normalised_quality_factor "Export" = Py.f1_15 /\
  normalised_quality_factor "A" = Py.f1_05 /\
  normalised_quality_factor "B" = Py.f0_95 /\
  normalised_quality_factor (String "194" (String "160" "A")) = Py.f1_05 /\
  (~ In (Str.lower (Str.strip (quality_grade p))) ["export"; "a"; "b"]%string ->
   normalised_quality_factor (quality_grade p) = Py.f1_0) /\
  (base_market_price p = 180000 -> quality_grade p = "A"%string ->
   quantity p = 100 -> origin p = "Ratnagiri"%string ->
   YourBuyerAgent.calculate_fair_price p = Some 189000).
Proof.
  split; [|split; [|split; [|split; [|split; [|split; [|split]]]]]];
    try reflexivity.
  - unfold YourBuyerAgent.calculate_fair_price, fair_price_with,
      YourBuyerAgent.origin_factor, YourBuyerAgent.volume_factor,
      YourBuyerAgent.bonus_origins.
    rewrite Z.geb_leb. reflexivity.
  - apply WindowFacts.buyer_fair_defined.
  - intros Hn. unfold normalised_quality_factor.
    destruct (String.eqb_spec (Str.lower (Str.strip (quality_grade p)))
                              "export") as [E|_];
      [exfalso; apply Hn; rewrite E; cbn; auto|].
    destruct (String.eqb_spec (Str.lower (Str.strip (quality_grade p))) "a")
      as [E|_];
      [exfalso; apply Hn; rewrite E; cbn; auto|].
    destruct (String.eqb_spec (Str.lower (Str.strip (quality_grade p))) "b")
      as [E|_];
      [exfalso; apply Hn; rewrite E; cbn; auto|].
    reflexivity.
  - destruct p as [n c q g o b a].
    cbn [base_market_price quality_grade quantity origin].
    intros -> -> -> ->. vm_compute. reflexivity.
Qed.

Lemma fair_price_formula_witness :
  YourBuyerAgent.calculate_fair_price alphonso = Some 189000 /\
  normalised_quality_factor (quality_grade (lot "Premium" "Pune" 100 10))
  = Py.f1_0 /\
  exists fair,
    YourBuyerAgent.calculate_fair_price (lot "Premium" "Pune" 100 10)
    = Some fair.
Proof.
  split; [|split].
  - apply (fair_price_formula alphonso); reflexivity.
  - apply (fair_price_formula (lot "Premium" "Pune" 100 10)).
    vm_compute. intros [H | [H | [H | []]]]; discriminate H.
  - apply (fair_price_formula (lot "Premium" "Pune" 100 10)).
    vm_compute. discriminate.
Defined.



(** C5, buyer concession schedule. When [respond_to_seller_offer] returns
    from its counter branch, with status ONGOING, the price it returns is
    min(proposed, budget) for the proposal of the schedule, computed on the
    fair price of the product: with rounds_left = 10 - current_round the
    step is 0.07 when rounds_left >= 6, 0.045 when 3 <= rounds_left <= 5 and
    0.03 when rounds_left < 3; the candidate is the integer part of the
    maximum of the last offer, last offer * (1 + step) and 0.97 * the
    midpoint of the last offer and min(seller_price, budget), clamped to the
    budget; from round 9 on the proposal is the candidate raised to
    int(0.90 * fair) and clamped to the budget, and before round 9 it is the
    candidate capped at the greater of int(0.92 * fair) and the last
    offer. *)
Theorem concession_schedule context seller_price seller_message price msg :
  YourBuyerAgent.respond_to_seller_offer context seller_price seller_message
    = Some (ONGOING, price, msg) ->
  let budget := your_budget context in
  let rounds_left := 10 - current_round context in
  exists fair last proposed step factor stepped midpoint v candidate,
    YourBuyerAgent.calculate_fair_price (product context) = Some fair /\
    price = Z.min proposed budget /\
    ((6 <= rounds_left -> step = Py.f0_07) /\
     (3 <= rounds_left <= 5 -> step = Py.f0_045) /\
     (rounds_left < 3 -> step = Py.f0_03)) /\
    (last_item (your_offers context) = Some last \/
     your_offers context = [] /\ Py.int_scaled fair Py.f0_78 = Some last) /\
    Py.add_int_float 1 step = Some factor /\
    Py.mul_int_float last factor = Some stepped /\
    Py.truediv (last + Z.min seller_price budget) 2 = Some midpoint /\
    Py.is_maximum v [Py.Int last; Py.Float stepped;
                     Py.Float (Py.fmul midpoint Py.f0_97)] /\
    (Py.lt v (Py.Int budget) = true -> Py.int v = Some candidate) /\
    (Py.lt v (Py.Int budget) = false -> candidate = budget) /\
    (9 <= current_round context ->
     exists floor90, Py.int_scaled fair Py.f0_90 = Some floor90 /\
                     proposed = Z.min budget (Z.max candidate floor90) /\
                     proposed <= budget) /\
    (current_round context < 9 ->
     exists cap92, Py.int_scaled fair Py.f0_92 = Some cap92 /\
                   proposed = Z.min candidate (Z.max cap92 last)).
Proof.
  intros H budget rounds_left.
  destruct (BuyerFacts.respond_inv _ _ _ _ _ _ H)
    as (fair & low & high & Hf & _ & Hcase).
  destruct Hcase as [(_ & _ & Hst & _) | [(_ & _ & Hst & _) | Hcase]];
    try discriminate Hst.
  destruct Hcase as (last & proposed & Hp & Hret).
  destruct Hret as [(_ & Hst & _) | [(_ & Hst & _) | (_ & Hprice & _)]];
    try discriminate Hst.
  destruct (ScheduleFacts.propose_schedule _ _ _ _ _ Hp)
    as (step & factor & stepped & midpoint & v & candidate & Hsched).
  exists fair, last, proposed, step, factor, stepped, midpoint, v, candidate.
  split; [exact Hf|]. split; [exact Hprice|]. exact Hsched.
Qed.

Lemma concession_schedule_witness :
  exists fair last proposed candidate cap92,
    YourBuyerAgent.calculate_fair_price alphonso = Some fair /\
    157739 = Z.min proposed 162000 /\
    Py.int_scaled fair Py.f0_92 = Some cap92 /\
    proposed = Z.min candidate (Z.max cap92 last).
Proof.
  destruct (concession_schedule
              (context_at alphonso 162000 2 [270000; 169533] [147420])
              169533 (MsgComeDown 169533) 157739 (MsgMoveTo 157739)
              ltac:(vm_compute; reflexivity))
    as (fair & last & proposed & step & factor & stepped & midpoint & v
        & candidate & Hf & Hprice & _ & _ & _ & _ & _ & _ & _ & _ & _ & H92).
  destruct (H92 ltac:(cbn; lia)) as (cap92 & Hc & Hp).
  exists fair, last, proposed, candidate, cap92. auto.
Defined.




(** ** The negotiation loop *)

(** C2, termination. For every buyer agent, whatever statuses and offers it
    returns, and every product, budget and seller minimum: a run of
    [run_negotiation_test] takes between 1 and 10 buyer turns, as many as
    its round counter says. Its result reports a deal exactly when an
    acceptance occurs in the run, that is when in one of the iterations 0 to
    9 that the run reaches the buyer returns ACCEPTED or the seller accepts
    the buyer's offer; the accepting turn is then the last, and the final
    price is set. When no acceptance occurs the result reports
    [deal_made = false] after 10 rounds, with no final price and no
    savings. The loop returns whenever the calls that the run makes of the
    agent return, with offers, seller minimum and base price of magnitude at
    most 2^1000; the result is then returned too when there is no deal, and
    when there is one for a budget and a base price that are not zero, with
    differences to the final price of magnitude at most 2^1000. *)
Theorem negotiation_terminates (buyer_agent : BaseBuyerAgent) (seller_min : Z)
    (p : Product) (buyer_budget : Z) :
  (forall s,
     negotiation_loop buyer_agent seller_min p buyer_budget = Some s ->
     let turns := List.length (your_offers (ls_context s)) in
     (1 <= turns <= 10)%nat /\
     current_round (ls_context s) = Z.of_nat turns /\
     (ls_deal_made s = true <->
      acceptance_occurs buyer_agent seller_min p buyer_budget)) /\
  (forall r,
     run_negotiation_test buyer_agent seller_min p buyer_budget = Some r ->
     1 <= rounds r <= 10 /\
     (deal_made r = true <->
      acceptance_occurs buyer_agent seller_min p buyer_budget) /\
     (deal_made r = true ->
      exists k sk fp,
        reaches buyer_agent seller_min p buyer_budget k sk /\
        turn_accepts buyer_agent seller_min (Z.of_nat k) sk /\
        rounds r = Z.of_nat k + 1 /\ final_price r = Some fp) /\
     (deal_made r = false ->
      rounds r = 10 /\ final_price r = None /\ savings r = 0 /\
      savings_pct r = Py.Int 0 /\ below_market_pct r = Py.Int 0)) /\
  (calls_return buyer_agent seller_min p buyer_budget ->
   Z.abs seller_min <= 2 ^ 1000 ->
   Z.abs (base_market_price p) <= 2 ^ 1000 ->
   exists s,
     negotiation_loop buyer_agent seller_min p buyer_budget = Some s /\
     (ls_deal_made s = false ->
      exists r,
        run_negotiation_test buyer_agent seller_min p buyer_budget = Some r /\
        deal_made r = false) /\
     (ls_deal_made s = true ->
      buyer_budget <> 0 -> base_market_price p <> 0 ->
      Z.abs buyer_budget <= 2 ^ 1000 ->
      (forall fp, ls_final_price s = Some fp ->
                  Z.abs (buyer_budget - fp) <= 2 ^ 1000 /\
                  Z.abs (base_market_price p - fp) <= 2 ^ 1000) ->
      exists r,
        run_negotiation_test buyer_agent seller_min p buyer_budget = Some r /\
        deal_made r = true)).
Proof.
  split; [|split].
  - intros s H turns.
    destruct (negotiation_loop_shape _ _ _ _ _ H) as (Hb & Hc & _).
    split; [exact Hb|]. split; [exact Hc|].
    destruct (RunStateFacts.loop_verdict _ _ _ _ _ H)
      as [(Hd & _ & _ & Hno) | (Hd & k & sk & fp & Hk & Hr & Hacc & _)].
    + split; [congruence | intros Ha; contradiction].
    + split; [intros _; exists k, sk; auto | intros _; exact Hd].
  - intros r H. unfold run_negotiation_test in H.
    apply bind_Some in H as (s & E & H).
    destruct (negotiation_loop_shape _ _ _ _ _ E) as (Hb & Hc & _).
    assert (Hres : deal_made r = ls_deal_made s /\
                   rounds r = current_round (ls_context s) /\
                   (ls_deal_made s = true -> final_price r = ls_final_price s) /\
                   (ls_deal_made s = false ->
                    final_price r = ls_final_price s /\ savings r = 0 /\
                    savings_pct r = Py.Int 0 /\
                    below_market_pct r = Py.Int 0)).
    { unfold make_result in H. destruct (ls_deal_made s).
      - apply bind_Some in H as (fp & Hfp & H).
        apply bind_Some in H as (sp & _ & H).
        apply bind_Some in H as (bp & _ & H).
        injection H as <-. cbn.
        repeat split; try discriminate. intros _. symmetry. exact Hfp.
      - injection H as <-. cbn. repeat split; discriminate. }
    destruct Hres as (Hdm & Hrounds & Hdeal & Hnone).
    split; [lia|].
    destruct (RunStateFacts.loop_verdict _ _ _ _ _ E)
      as [(Hd & Hf & Hr & Hno)
         | (Hd & k & sk & fp & Hk & Hreach & Hacc & Hr & Hf)].
    + split; [split; [congruence | intros Ha; contradiction]|].
      split; [congruence|]. intros _.
      destruct (Hnone Hd) as (H1 & H2 & H3 & H4).
      repeat split; congruence.
    + split; [split; [intros _; exists k, sk; auto | congruence]|].
      split; [|congruence]. intros _. exists k, sk, fp.
      repeat split; try assumption; [congruence|].
      rewrite (Hdeal Hd). exact Hf.
  - intros Hret Hmin Hbase.
    destruct (RunStateFacts.loop_returns _ _ _ _ Hret Hmin Hbase)
      as (s & Hs).
    exists s. split; [exact Hs|]. split.
    + intros Hd. unfold run_negotiation_test, make_result.
      rewrite Hs. cbn [bind]. rewrite Hd. eexists. split; reflexivity.
    + intros Hd Hb0 Hp0 Hbb Hfp.
      destruct (RunStateFacts.loop_verdict _ _ _ _ _ Hs)
        as [(Hd' & _) | (_ & k & sk & fp & _ & _ & _ & _ & Hf)];
        [congruence|].
      destruct (Hfp fp Hf) as [H1 H2].
      unfold run_negotiation_test, make_result.
      rewrite Hs. cbn [bind]. rewrite Hd, Hf. cbn [bind].
      destruct (DivFacts.percent_defined (buyer_budget - fp) buyer_budget
                  Hb0 H1 Hbb) as (sp & ->).
      cbn [bind].
      destruct (DivFacts.percent_defined (base_market_price p - fp)
                  (base_market_price p) Hp0 H2 Hbase) as (bp & ->).
      cbn [bind]. eexists. split; reflexivity.
Qed.

Lemma negotiation_terminates_witness :
  (exists r,
     run_negotiation_test your_buyer_agent 147600 alphonso 162000 = Some r /\
     1 <= rounds r <= 10 /\
     ~ acceptance_occurs your_buyer_agent 147600 alphonso 162000) /\
  (exists r,
     run_negotiation_test your_buyer_agent 144000 alphonso 216000 = Some r /\
     acceptance_occurs your_buyer_agent 144000 alphonso 216000) /\
  (exists s,
     negotiation_loop your_buyer_agent 147600 alphonso 162000 = Some s /\
     (ls_deal_made s = false ->
      exists r,
        run_negotiation_test your_buyer_agent 147600 alphonso 162000
        = Some r /\ deal_made r = false)).
Proof.
  split; [|split].
  - destruct (run_negotiation_test your_buyer_agent 147600 alphonso 162000)
      as [r|] eqn:E; [|exfalso; vm_compute in E; discriminate E].
    exists r. split; [reflexivity|].
    destruct (proj1 (proj2 (negotiation_terminates your_buyer_agent 147600
                                                   alphonso 162000)) r E)
      as (Hr & Hiff & _).
    split; [exact Hr|]. intros Ha. apply Hiff in Ha.
    vm_compute in E. injection E as <-. discriminate Ha.
  - destruct (run_negotiation_test your_buyer_agent 144000 alphonso 216000)
      as [r|] eqn:E; [|exfalso; vm_compute in E; discriminate E].
    exists r. split; [reflexivity|].
    destruct (proj1 (proj2 (negotiation_terminates your_buyer_agent 144000
                                                   alphonso 216000)) r E)
      as (_ & Hiff & _).
    apply Hiff. vm_compute in E. injection E as <-. reflexivity.
  - destruct (proj2 (proj2 (negotiation_terminates your_buyer_agent 147600
                                                   alphonso 162000)))
      as (s & Hs & Hnd & _).
    + apply RunStateFacts.your_agent_calls_return;
        [split; [discriminate | vm_compute; discriminate]
        |split; [discriminate | vm_compute; discriminate]
        |vm_compute; discriminate].
    + vm_compute. discriminate.
    + vm_compute. discriminate.
    + exists s. split; [exact Hs | exact Hnd].
Defined.

(** C6, monotonic convergence. In every run of the negotiation loop with
    [YourBuyerAgent] the offers recorded in [your_offers] are non-decreasing;
    and for every context whose [your_offers] is non-empty with last offer
    at most the budget, a counter-offer that [respond_to_seller_offer]
    returns with status ONGOING is at least that last offer. *)
Theorem monotonic_convergence :
  (forall seller_min p buyer_budget s,
      negotiation_loop your_buyer_agent seller_min p buyer_budget = Some s ->
      non_decreasing (your_offers (ls_context s))) /\
  (forall context seller_price seller_message last counter msg,
      last_item (your_offers context) = Some last ->
      last <= your_budget context ->
      YourBuyerAgent.respond_to_seller_offer context seller_price
                                             seller_message
        = Some (ONGOING, counter, msg) ->
      last <= counter).
Proof.
  split.
  - intros seller_min p budget s H. unfold negotiation_loop in H.
    apply bind_Some in H as (s0 & E & H).
    eapply (RunFacts.for_rounds_sorted seller_min budget 10 0); [|exact H].
    destruct (initial_state_shape _ _ _ E) as (Hoff & _ & Hbud & _).
    unfold loop_inv. rewrite Hoff. cbn. repeat split; try assumption.
    all: discriminate.
  - intros context sp sm last counter msg Hlast Hb H.
    apply BuyerFacts.respond_summary in H as (_ & [[H _] | [_ H]]);
      [discriminate H|].
    apply H; assumption.
Qed.

Lemma monotonic_convergence_witness :
  (exists s,
     negotiation_loop your_buyer_agent 147600 alphonso 162000 = Some s /\
     non_decreasing (your_offers (ls_context s))) /\
  147420 <= 157739.
Proof.
  split.
  - destruct (negotiation_loop your_buyer_agent 147600 alphonso 162000)
      as [s|] eqn:E.
    + exists s. split; [reflexivity|].
      apply (proj1 monotonic_convergence 147600 alphonso 162000 s E).
    + exfalso. vm_compute in E. discriminate E.
  - apply (proj2 monotonic_convergence
             (context_at alphonso 162000 2 [270000; 169533] [147420])
             169533 (MsgComeDown 169533) 147420 157739 (MsgMoveTo 157739));
      [reflexivity | cbn; lia | vm_compute; reflexivity].
Defined.

(** The claim C8 as stated fails: an agent that enforces round 0 in its
    opening-offer call raises in the first iteration of a run that
    [YourBuyerAgent] completes. *)
Lemma opening_round_counterexample : ~ opening_round_zero_as_stated.
Proof.
  intros H. specialize (H your_buyer_agent 144000 alphonso 216000).
  vm_compute in H. discriminate H.
Qed.

(** C8, round counter convention, amended. In every negotiation run the
    context's round number starts at 0 and is set to round_num + 1 at the
    start of each turn, before the buyer is called: the opening-offer call
    sees round 1 and the k-th buyer call sees round k, at most 10, so that
    enforcing these values changes no run; when the run ends the round
    number is the number of buyer turns taken. *)
Theorem round_counter (agent : BaseBuyerAgent) (seller_min : Z) (p : Product)
    (buyer_budget : Z) :
  (forall s0, initial_state p buyer_budget = Some s0 ->
              current_round (ls_context s0) = 0) /\
  negotiation_loop (counting_rounds agent) seller_min p buyer_budget
  = negotiation_loop agent seller_min p buyer_budget /\
  (forall s, negotiation_loop agent seller_min p buyer_budget = Some s ->
             current_round (ls_context s)
             = Z.of_nat (List.length (your_offers (ls_context s)))).
Proof.
  split; [|split].
  - intros s0 H. apply (initial_state_shape _ _ _ H).
  - unfold negotiation_loop.
    destruct (initial_state p buyer_budget) as [s0|] eqn:E; [|reflexivity].
    cbn [bind]. apply (for_rounds_counting agent seller_min 10 0); [|lia].
    destruct (initial_state_shape _ _ _ E) as (Hoff & _). rewrite Hoff.
    reflexivity.
  - intros s H. apply (negotiation_loop_shape _ _ _ _ _ H).
Qed.

Lemma round_counter_witness :
  exists s,
    negotiation_loop your_buyer_agent 144000 alphonso 216000 = Some s /\
    current_round (ls_context s)
    = Z.of_nat (List.length (your_offers (ls_context s))).
Proof.
  destruct (negotiation_loop your_buyer_agent 144000 alphonso 216000)
    as [s|] eqn:E.
  - exists s. split; [reflexivity|].
    apply (proj2 (proj2 (round_counter your_buyer_agent 144000 alphonso
                                       216000)) s E).
  - exfalso. vm_compute in E. discriminate E.
Defined.

(** ** The seller strategy *)

(** The claim C9 as stated fails on an agent whose [personality] has been
    set by hand, as [_init_] would set it: for a lot of base price 10 the
    seller's fair price is 10, and the answer to an offer of 5 in round 0 is
    the ask 10, below fair * (1 + 0.07) = 10.7. (On the agent as the
    constructor leaves it the same call raises.) *)
Lemma seller_floor_counterexample : ~ seller_floor_as_stated.
Proof.
  intros H.
  assert (Hf : Py.mul_int_float 10
                 (Py.fadd Py.f1_0 (YourSellerAgent.step_down (10 - (0 + 1))))
               = Some (S754_finite false 6023564501608039 (-49)))
    by (vm_compute; reflexivity).
  destruct (H (YourSellerAgent.initialised "seller") (lot "C" "Pune" 10 10)
              5 0 10 (MsgSellerImprove 10 "We can bridge this thoughtfully.")
              10 _
              ltac:(cbn; lia) ltac:(vm_compute; reflexivity)
              ltac:(vm_compute; reflexivity) ltac:(lia) Hf) as [_ Hle].
  vm_compute in Hle. discriminate Hle.
Qed.

(** C9, seller floor, amended. [respond_to_buyer_offer] returns "ongoing"
    only on an agent whose [personality] attribute is set, which no
    constructor call does: on the agent as constructed it raises instead.
    On an agent with the attribute, for every product of non-negative base
    price and every buyer offer, when it returns "ongoing", in any round,
    the ask it returns is never below the seller's fair price: it is at
    least int(fair * (1 + step_down)), the integer part of the floor, which
    is itself at least the fair price, with step_down 0.07, 0.05 or 0.03 by
    rounds remaining. *)
Theorem seller_floor self p buyer_offer round_num counter msg fair :
  0 <= base_market_price p ->
  YourSellerAgent.fair_price p = Some fair ->
  YourSellerAgent.respond_to_buyer_offer self p buyer_offer round_num
    = Some ("ongoing"%string, counter, msg) ->
  let rounds_left := 10 - (round_num + 1) in
  let step := YourSellerAgent.step_down rounds_left in
  (exists d phrase,
      personality self = Some d /\ nth_error (catchphrases d) 2 = Some phrase /\
      msg = MsgSellerImprove counter phrase) /\
  YourSellerAgent.respond_to_buyer_offer YourSellerAgent.constructed p
    buyer_offer round_num = None /\
  ((6 <= rounds_left -> step = Py.f0_07) /\
   (3 <= rounds_left <= 5 -> step = Py.f0_05) /\
   (rounds_left < 3 -> step = Py.f0_03)) /\
  fair <= counter /\
  exists floor,
    Py.int_scaled fair (Py.fadd Py.f1_0 step) = Some floor /\
    fair <= floor /\ floor <= counter.
Proof.
  intros Hb Hf H rounds_left step.
  pose proof (SellerFacts.fair_nonneg p fair Hb Hf) as Hfair.
  destruct (SellerFacts.respond_ongoing _ _ _ _ _ _ _ Hfair Hf H)
    as (floor & Hfl & H1 & H2).
  destruct (SellerFacts.ongoing_personality _ _ _ _ _ _ H) as [Hp Hc].
  split; [exact Hp|]. split; [exact Hc|].
  split; [|split; [lia | exists floor; auto]].
  unfold step, YourSellerAgent.step_down. repeat split; intros Hr.
  - replace (6 <=? rounds_left) with true by (symmetry; apply Z.leb_le; lia).
    reflexivity.
  - replace (6 <=? rounds_left) with false by (symmetry; apply Z.leb_gt; lia).
    replace (3 <=? rounds_left) with true by (symmetry; apply Z.leb_le; lia).
    reflexivity.
  - replace (6 <=? rounds_left) with false by (symmetry; apply Z.leb_gt; lia).
    replace (3 <=? rounds_left) with false by (symmetry; apply Z.leb_gt; lia).
    reflexivity.
Qed.

Lemma seller_floor_witness :
  269791 <= 294071 /\
  YourSellerAgent.respond_to_buyer_offer YourSellerAgent.constructed
    (lot "A" "Colombia" 240000 200) 200000 0 = None.
Proof.
  destruct (seller_floor (YourSellerAgent.initialised "seller")
              (lot "A" "Colombia" 240000 200) 200000 0 294071
              (MsgSellerImprove 294071 "We can bridge this thoughtfully.")
              269791 ltac:(cbn; lia) ltac:(vm_compute; reflexivity)
              ltac:(vm_compute; reflexivity))
    as (_ & Hc & _ & Hle & _).
  split; [exact Hle | exact Hc].
Defined.

(** * Further properties of the code *)

(** ** The mock seller and the negotiation loop, for any buyer agent *)

(** X1, the mock seller's answers. Whenever [respond_to_buyer] returns, it
    either accepts, at the buyer's offer itself, which is then at least the
    minimum price when that is not negative; or it counters with a price
    that is at least its minimum price and at least the offer it answers. *)
Theorem mock_seller_response min_price buyer_offer round_num price msg
    accepts :
  MockSellerAgent.respond_to_buyer min_price buyer_offer round_num
    = Some (price, msg, accepts) ->
  (accepts = true -> price = buyer_offer /\
                     (0 <= min_price -> min_price <= price)) /\
  (accepts = false -> min_price <= price /\ buyer_offer <= price).
Proof.
  intros H.
  apply MockFacts.respond_cases in H as [(-> & -> & Hf) | (-> & Hm & Hg)].
  - split; [auto | discriminate].
  - split; [discriminate | auto].
Qed.

Lemma mock_seller_response_witness : 144000 <= 169533 /\ 147420 <= 169533.
Proof.
  apply (mock_seller_response 144000 147420 0 169533 (MsgComeDown 169533)
           false); [vm_compute|]; reflexivity.
Defined.



(** X3, the seller offers of a run. In every run of the negotiation loop,
    for any buyer agent, the first seller offer recorded is the mock
    seller's opening price int(1.5 base), which is at least the base price
    when that is not negative, and every later one is at least the seller's
    minimum price. *)
Theorem seller_offers_floor (agent : BaseBuyerAgent) (seller_min : Z)
    (p : Product) (buyer_budget : Z) (s : loop_state) :
  negotiation_loop agent seller_min p buyer_budget = Some s ->
  exists first rest,
    seller_offers (ls_context s) = first :: rest /\
    Py.int_scaled (base_market_price p) Py.f1_5 = Some first /\
    (0 <= base_market_price p -> base_market_price p <= first) /\
    Forall (fun offer => seller_min <= offer) rest.
Proof.
  intros H.
  destruct (negotiation_loop_seller_offers agent seller_min p buyer_budget s H)
    as (first & rest & Ho & Hf & Hr).
  exists first, rest. split; [exact Ho|]. split; [exact Hf|].
  split; [|exact Hr]. intros Hb.
  eapply FloatFacts.int_scaled_ge; [|exact Hb | exact Hf].
  eexists _, _. split; [reflexivity|]. vm_compute. discriminate.
Qed.

Lemma seller_offers_floor_witness :
  exists s first rest,
    negotiation_loop your_buyer_agent 147600 alphonso 162000 = Some s /\
    seller_offers (ls_context s) = first :: rest /\
    Forall (fun offer => 147600 <= offer) rest.
Proof.
  destruct (negotiation_loop your_buyer_agent 147600 alphonso 162000)
    as [s|] eqn:E.
  - destruct (seller_offers_floor your_buyer_agent 147600 alphonso 162000 s E)
      as (first & rest & Ho & _ & _ & Hr).
    exists s, first, rest. auto.
  - exfalso. vm_compute in E. discriminate E.
Defined.

(** X4, where the deal price comes from. In every run that ends with a deal,
    for any buyer agent, the final price is either the last seller offer
    recorded, accepted by the buyer in a round after the opening one, and
    then at least the seller's minimum; or it is the last buyer offer
    recorded, accepted by the seller, and then at least the seller's minimum
    when that is not negative. *)
Theorem deal_price_provenance (agent : BaseBuyerAgent) (seller_min : Z)
    (p : Product) (buyer_budget : Z) (s : loop_state) :
  negotiation_loop agent seller_min p buyer_budget = Some s ->
  ls_deal_made s = true ->
  exists fp,
    ls_final_price s = Some fp /\
    (last_item (seller_offers (ls_context s)) = Some fp /\
     (2 <= List.length (your_offers (ls_context s)))%nat /\
     seller_min <= fp \/
     last_item (your_offers (ls_context s)) = Some fp /\
     (0 <= seller_min -> seller_min <= fp)).
Proof.
  intros H Hd.
  destruct (negotiation_loop_history _ _ _ _ _ H)
    as [(_ & _ & _ & _ & _ & _ & Hnd & _)
       | (k & Hk & Hy & Hs & Ha & _ & fp & Hfp & Hc)]; [congruence|].
  exists fp. split; [exact Hfp|].
  destruct Hc as [(Hk1 & Hl & Hm & _) | (Hl & Hm & _)].
  - left. rewrite Hy. repeat split; [assumption | lia | assumption].
  - right. auto.
Qed.

Lemma deal_price_provenance_witness :
  exists s fp,
    negotiation_loop your_buyer_agent 144000 alphonso 216000 = Some s /\
    ls_final_price s = Some fp /\ 144000 <= fp.
Proof.
  destruct (negotiation_loop your_buyer_agent 144000 alphonso 216000)
    as [s|] eqn:E.
  - destruct (deal_price_provenance your_buyer_agent 144000 alphonso 216000 s
                E) as (fp & Hfp & [(_ & _ & Hm) | (_ & Hm)]).
    + revert E. vm_compute. intros [= <-]. reflexivity.
    + exists s, fp. auto.
    + exists s, fp. split; [reflexivity|]. split; [exact Hfp|].
      apply Hm. lia.
  - exfalso. vm_compute in E. discriminate E.
Defined.

(** X5, deals of agents that respect the budget. For every buyer agent
    whose prices stay within the budget and that accepts at the seller's
    price only, every deal of [run_negotiation_test] is at a final price
    within the budget, so that the savings reported are not negative.
    [ExampleSimpleAgent] and [YourBuyerAgent] are such agents. *)
Theorem budget_safe_deals :
  budget_safe example_simple_agent /\ budget_safe your_buyer_agent /\
  forall agent seller_min p buyer_budget r,
    budget_safe agent ->
    run_negotiation_test agent seller_min p buyer_budget = Some r ->
    deal_made r = true ->
    exists fp, final_price r = Some fp /\ fp <= buyer_budget /\
               savings r = buyer_budget - fp /\ 0 <= savings r.
Proof.
  split; [exact SafeFacts.example_agent_safe|].
  split; [exact SafeFacts.your_agent_safe|].
  intros agent seller_min p buyer_budget r Hsafe H Hd.
  unfold run_negotiation_test in H. apply bind_Some in H as (s & E & H).
  unfold make_result in H. destruct (ls_deal_made s) eqn:Hdm.
  - destruct (negotiation_loop_safe agent seller_min Hsafe _ _ _ E Hdm)
      as (fp & Hfp & Hle).
    rewrite Hfp in H. cbn [bind] in H. bind_inv H. bind_inv H.
    injection H as <-. cbn. exists fp. repeat split; [assumption | lia].
  - injection H as <-. discriminate Hd.
Qed.

Lemma budget_safe_deals_witness :
  exists r fp,
    run_negotiation_test example_simple_agent 144000 alphonso 216000
      = Some r /\
    final_price r = Some fp /\ fp <= 216000.
Proof.
  destruct (run_negotiation_test example_simple_agent 144000 alphonso 216000)
    as [r|] eqn:E.
  - destruct (proj2 (proj2 budget_safe_deals) example_simple_agent 144000
                alphonso 216000 r (proj1 budget_safe_deals) E)
      as (fp & Hfp & Hle & _).
    + revert E. vm_compute. intros [= <-]. reflexivity.
    + exists r, fp. auto.
  - exfalso. vm_compute in E. discriminate E.
Defined.

(** X6, consistency of the history. In every run, for any buyer agent, each
    call of the buyer sees the history the loop has produced so far: the
    opening call sees no buyer offer and one seller offer, and the call of
    round k sees k - 1 buyer offers, k seller offers, and answers the price
    that is the last seller offer, which is what
    [analyze_negotiation_progress] reports as [last_seller]. Enforcing this
    in the agent changes no run. *)
Theorem history_consistency (agent : BaseBuyerAgent) (seller_min : Z)
    (p : Product) (buyer_budget : Z) :
  negotiation_loop (checking_history agent) seller_min p buyer_budget
  = negotiation_loop agent seller_min p buyer_budget.
Proof.
  unfold negotiation_loop.
  destruct (initial_state p buyer_budget) as [s0|] eqn:E; [|reflexivity].
  cbn [bind]. apply (for_rounds_checking agent seller_min 10 0).
  exact (initial_history seller_min _ _ _ E).
Qed.

(** X7, division by zero in the result. When a run ends with a deal and the
    budget, or the base market price of the product, is 0, the computation
    of the percentages divides by zero and [run_negotiation_test] raises
    instead of returning its result. *)
Theorem zero_division_in_result (agent : BaseBuyerAgent) (seller_min : Z)
    (p : Product) (buyer_budget : Z) (s : loop_state) :
  negotiation_loop agent seller_min p buyer_budget = Some s ->
  ls_deal_made s = true ->
  buyer_budget = 0 \/ base_market_price p = 0 ->
  run_negotiation_test agent seller_min p buyer_budget = None.
Proof.
  intros H Hd Hz. unfold run_negotiation_test, make_result.
  rewrite H. cbn [bind]. rewrite Hd.
  destruct (ls_final_price s) as [fp|]; [|reflexivity]. cbn [bind].
  assert (Hdiv : forall a, percent a 0 = None).
  { intros a. unfold percent, Py.truediv. destruct a; reflexivity. }
  destruct Hz as [-> | ->].
  - rewrite Hdiv. reflexivity.
  - rewrite Hdiv. destruct (percent _ _); reflexivity.
Qed.

Lemma zero_division_in_result_witness :
  run_negotiation_test your_buyer_agent 0 alphonso 0 = None.
Proof.
  destruct (negotiation_loop your_buyer_agent 0 alphonso 0) as [s|] eqn:E.
  - apply (zero_division_in_result your_buyer_agent 0 alphonso 0 s E).
    + revert E. vm_compute. intros [= <-]. reflexivity.
    + left. reflexivity.
  - exfalso. vm_compute in E. discriminate E.
Defined.

(** X8, overflow. For a product whose base price has magnitude 2^1025 or
    more, the conversion of the price to a float overflows: both fair prices
    raise, and so does [run_negotiation_test], for any buyer agent, when the
    mock seller computes its opening price. *)
Theorem overflow_error (p : Product) :
  2 ^ 1025 <= Z.abs (base_market_price p) ->
  YourBuyerAgent.calculate_fair_price p = None /\
  YourSellerAgent.fair_price p = None /\
  forall agent seller_min buyer_budget,
    run_negotiation_test agent seller_min p buyer_budget = None.
Proof.
  intros H. pose proof (OverflowFacts.float_of_int_overflow _ H) as Hx.
  split; [|split].
  - unfold YourBuyerAgent.calculate_fair_price, Py.mul_int_float.
    rewrite Hx. reflexivity.
  - unfold YourSellerAgent.fair_price, Py.mul_int_float.
    rewrite Hx. reflexivity.
  - intros agent seller_min buyer_budget.
    unfold run_negotiation_test, negotiation_loop, initial_state,
      MockSellerAgent.get_opening_price, Py.int_scaled, Py.mul_int_float.
    rewrite Hx. reflexivity.
Qed.

Lemma overflow_error_witness :
  YourBuyerAgent.calculate_fair_price (lot "A" "Pune" (2 ^ 1025) 10) = None.
Proof.
  apply (overflow_error (lot "A" "Pune" (2 ^ 1025) 10)).
  vm_compute. discriminate.
Defined.

(** ** Runs of [YourBuyerAgent] *)

(** X9, offers of a run stay within budget. In every run of the
    negotiation loop with [YourBuyerAgent], every buyer offer recorded in
    [your_offers], the price of an acceptance included, is at most the
    budget. *)
Theorem run_offers_within_budget (seller_min : Z) (p : Product)
    (buyer_budget : Z) (s : loop_state) :
  negotiation_loop your_buyer_agent seller_min p buyer_budget = Some s ->
  Forall (fun offer => offer <= buyer_budget) (your_offers (ls_context s)).
Proof.
  intros H.
  destruct (OfferFacts.negotiation_loop_offers _ _ _ _ H)
    as (Hs & last & Hl & Hb).
  eapply OfferFacts.sorted_bounded; eassumption.
Qed.

Lemma run_offers_within_budget_witness :
  exists s,
    negotiation_loop your_buyer_agent 147600 alphonso 162000 = Some s /\
    Forall (fun offer => offer <= 162000) (your_offers (ls_context s)).
Proof.
  destruct (negotiation_loop your_buyer_agent 147600 alphonso 162000)
    as [s|] eqn:E.
  - exists s. split; [reflexivity|].
    exact (run_offers_within_budget 147600 alphonso 162000 s E).
  - exfalso. vm_compute in E. discriminate E.
Defined.

(** X10, the deal price is the last buyer offer. In every run of the
    negotiation loop with [YourBuyerAgent] that ends with a deal, whoever
    accepted, the final price is the buyer offer recorded last in
    [your_offers], and it is at most the budget. *)
Theorem deal_is_last_offer (seller_min : Z) (p : Product) (buyer_budget : Z)
    (s : loop_state) :
  negotiation_loop your_buyer_agent seller_min p buyer_budget = Some s ->
  ls_deal_made s = true ->
  exists fp, ls_final_price s = Some fp /\ fp <= buyer_budget /\
             last_item (your_offers (ls_context s)) = Some fp.
Proof.
  intros H Hd. exact (DealFacts.negotiation_loop_deal _ _ _ _ H Hd).
Qed.

Lemma deal_is_last_offer_witness :
  exists s fp,
    negotiation_loop your_buyer_agent 144000 alphonso 216000 = Some s /\
    ls_final_price s = Some fp /\
    last_item (your_offers (ls_context s)) = Some fp.
Proof.
  destruct (negotiation_loop your_buyer_agent 144000 alphonso 216000)
    as [s|] eqn:E.
  - destruct (deal_is_last_offer 144000 alphonso 216000 s E)
      as (fp & Hfp & _ & Hl).
    + revert E. vm_compute. intros [= <-]. reflexivity.
    + exists s, fp. auto.
  - exfalso. vm_compute in E. discriminate E.
Defined.

(** X11, no deal below the seller's minimum. When the budget is below the
    mock seller's minimum price, which is not negative, a run of
    [run_negotiation_test] with [YourBuyerAgent] makes no deal: it goes
    through all 10 rounds and reports no final price. *)
Theorem no_deal_below_seller_minimum (seller_min : Z) (p : Product)
    (buyer_budget : Z) (r : negotiation_result) :
  0 <= seller_min -> buyer_budget < seller_min ->
  run_negotiation_test your_buyer_agent seller_min p buyer_budget = Some r ->
  deal_made r = false /\ rounds r = 10 /\ final_price r = None.
Proof.
  intros Hm Hlt H. unfold run_negotiation_test in H.
  apply bind_Some in H as (s & E & H).
  assert (Hnd : ls_deal_made s = false).
  { destruct (ls_deal_made s) eqn:Hdm; [exfalso | reflexivity].
    destruct (DealFacts.negotiation_loop_deal _ _ _ _ E Hdm)
      as (fp & Hfp & Hle & _).
    destruct (negotiation_loop_history _ _ _ _ _ E)
      as [(_ & _ & _ & _ & _ & _ & Hnd & _)
         | (k & _ & _ & _ & _ & _ & fp' & Hfp' & Hc)]; [congruence|].
    assert (fp' = fp) by congruence. subst fp'.
    destruct Hc as [(_ & _ & Hge & _) | (_ & Hge & _)]; [lia|].
    specialize (Hge Hm). lia. }
  destruct (negotiation_loop_shape _ _ _ _ _ E) as (_ & Hc & Hd).
  destruct Hd as [(Hd & _) | (_ & Hfp & Ht)]; [congruence|].
  unfold make_result in H. rewrite Hnd in H. injection H as <-. cbn.
  rewrite Hc, Ht. auto.
Qed.

Lemma no_deal_below_seller_minimum_witness :
  exists r,
    run_negotiation_test your_buyer_agent 150000 alphonso 140000 = Some r /\
    deal_made r = false /\ rounds r = 10.
Proof.
  destruct (run_negotiation_test your_buyer_agent 150000 alphonso 140000)
    as [r|] eqn:E.
  - exists r. split; [reflexivity|].
    destruct (no_deal_below_seller_minimum 150000 alphonso 140000 r
                ltac:(lia) ltac:(lia) E) as (H1 & H2 & _).
    auto.
  - exfalso. vm_compute in E. discriminate E.
Defined.



(** ** The buyer strategy, [YourBuyerAgent] *)

(** X13, order of the thresholds. For every product of non-negative base
    price that has a fair price, the thresholds of the strategy are defined
    and ordered: 0 <= int(0.78 fair), the opening anchor, <= int(0.85 fair),
    the snap threshold, <= low <= high <= fair, where (low, high) is the
    target zone. *)
Theorem threshold_order (p : Product) (fair : Z) :
  0 <= base_market_price p ->
  YourBuyerAgent.calculate_fair_price p = Some fair ->
  exists opening snap low high,
    Py.int_scaled fair Py.f0_78 = Some opening /\
    Py.int_scaled fair Py.f0_85 = Some snap /\
    YourBuyerAgent.target_zone p = Some (low, high) /\
    0 <= opening /\ opening <= snap /\ snap <= low /\ low <= high /\
    high <= fair.
Proof.
  intros Hb Hf.
  pose proof (ThresholdFacts.buyer_fair_nonneg p fair Hb Hf) as Hfair.
  destruct (DefinedFacts.buyer_fair_convertible p fair Hf) as (x & Hx).
  destruct (DefinedFacts.int_scaled_defined fair x _ Hx
              DefinedFacts.shrinking_0_78) as (t78 & H78).
  destruct (DefinedFacts.int_scaled_defined fair x _ Hx
              DefinedFacts.shrinking_0_85) as (t85 & H85).
  destruct (DefinedFacts.int_scaled_defined fair x _ Hx
              DefinedFacts.shrinking_0_88) as (t88 & H88).
  destruct (DefinedFacts.int_scaled_defined fair x _ Hx
              DefinedFacts.shrinking_0_97) as (t97 & H97).
  destruct (DefinedFacts.int_scaled_defined fair x _ Hx
              LadderFacts.shrinking_0_90) as (t90 & H90).
  destruct (DefinedFacts.int_scaled_defined fair x _ Hx
              LadderFacts.shrinking_0_92) as (t92 & H92).
  pose proof (ThresholdFacts.ladder fair t78 t85 t88 t90 t92 t97 Hfair
                H78 H85 H88 H90 H92 H97) as L.
  exists t78, t85, t88, t97. split; [exact H78|]. split; [exact H85|].
  split.
  - unfold YourBuyerAgent.target_zone. rewrite Hf. cbn [bind].
    rewrite H88. cbn [bind]. rewrite H97. reflexivity.
  - lia.
Qed.

Lemma threshold_order_witness :
  exists opening snap low high,
    YourBuyerAgent.target_zone alphonso = Some (low, high) /\
    opening <= snap /\ snap <= low /\ low <= high /\ high <= 189000.
Proof.
  destruct (threshold_order alphonso 189000 ltac:(cbn; lia)
              ltac:(vm_compute; reflexivity))
    as (opening & snap & low & high & _ & _ & Hz & _ & H).
  exists opening, snap, low, high. split; [exact Hz | exact H].
Defined.

(** X14, counters and acceptance. Whenever [respond_to_seller_offer] returns
    ONGOING, its counter-offer is strictly below the seller's price; and
    when the seller's price is at or below the buyer's own last offer, which
    is within budget, the response is ACCEPTED at the seller's price. *)
Theorem counter_below_seller_price context seller_price seller_message
    status price msg :
  YourBuyerAgent.respond_to_seller_offer context seller_price seller_message
    = Some (status, price, msg) ->
  (status = ONGOING -> price < seller_price) /\
  (forall last,
      last_item (your_offers context) = Some last ->
      last <= your_budget context -> seller_price <= last ->
      status = ACCEPTED /\ price = seller_price).
Proof.
  intros H.
  assert (Hon : status = ONGOING -> price < seller_price).
  { intros ->. eapply ThresholdFacts.ongoing_below. exact H. }
  split; [exact Hon|]. intros last Hlast Hb Hle.
  apply BuyerFacts.respond_summary in H as (_ & [[-> ->] | [-> Hge]]);
    [auto|].
  specialize (Hge last Hlast Hb). specialize (Hon eq_refl). lia.
Qed.

Lemma counter_below_seller_price_witness : 157739 < 169533.
Proof.
  apply (counter_below_seller_price
           (context_at alphonso 162000 2 [270000; 169533] [147420])
           169533 (MsgComeDown 169533) ONGOING 157739 (MsgMoveTo 157739));
    [vm_compute|]; reflexivity.
Defined.

(** X15, the response of [YourBuyerAgent] returns. On a product whose base
    price is between 0 and [2^990], with a budget, a seller price and a last
    own offer of magnitude at most [2^999], [respond_to_seller_offer] raises
    no exception: it returns a status, a price and a message, whatever the
    round and the rest of the history. *)
Theorem respond_returns context seller_price seller_message :
  0 <= base_market_price (product context) <= 2 ^ 990 ->
  Z.abs (your_budget context) <= 2 ^ 999 ->
  Z.abs seller_price <= 2 ^ 999 ->
  (forall last, last_item (your_offers context) = Some last ->
                Z.abs last <= 2 ^ 999) ->
  exists status price msg,
    YourBuyerAgent.respond_to_seller_offer context seller_price seller_message
    = Some (status, price, msg).
Proof.
  intros Hbase Hb Hsp Hlast.
  pose proof ReturnLoopFacts.pow2_999 as P999.
  pose proof ReturnLoopFacts.pow2_1000 as P1000.
  destruct (WindowFacts.buyer_fair_defined (product context) ltac:(lia))
    as (fair & Hf).
  apply (ReturnFacts.respond_defined _ _ _ fair); try assumption.
  intros t Ht.
  pose proof (ReturnLoopFacts.anchor_range _ fair t Hbase Hf Ht).
  assert (2 ^ 992 = 4 * 2 ^ 990) by reflexivity. lia.
Qed.

Lemma respond_returns_witness :
  exists status price msg,
    YourBuyerAgent.respond_to_seller_offer
      {| product := alphonso; your_budget := 200000; current_round := 2;
         seller_offers := [270000]; your_offers := [147420];
         messages := [] |} 270000 (MsgAsking 270000)
    = Some (status, price, msg).
Proof.
  apply respond_returns.
  - split; [discriminate | vm_compute; discriminate].
  - vm_compute; discriminate.
  - vm_compute; discriminate.
  - intros last [= <-]. vm_compute; discriminate.
Defined.

(** ** The two fair prices *)

(** X16, range of the fair prices. For every product of non-negative base
    price, the buyer's fair price lies between 93% and 121% of the base
    price, and the seller's between 94% and 122%, up to the half unit of the
    final rounding. *)
Theorem fair_price_bounds (p : Product) :
  0 <= base_market_price p ->
  (forall fair,
      YourBuyerAgent.calculate_fair_price p = Some fair ->
      93 * base_market_price p - 50 <= 100 * fair /\
      100 * fair <= 121 * base_market_price p + 50) /\
  (forall fair,
      YourSellerAgent.fair_price p = Some fair ->
      94 * base_market_price p - 50 <= 100 * fair /\
      100 * fair <= 122 * base_market_price p + 50).
Proof.
  intros Hb. split; intros fair H.
  - exact (RangeFacts.buyer_fair_range p fair Hb H).
  - exact (RangeFacts.seller_fair_range p fair Hb H).
Qed.

Lemma fair_price_bounds_witness :
  93 * 180000 - 50 <= 100 * 189000 /\ 100 * 189000 <= 121 * 180000 + 50.
Proof.
  apply (proj1 (fair_price_bounds alphonso ltac:(cbn; lia)) 189000).
  vm_compute. reflexivity.
Defined.

(** X17, grades and origins are compared in normal form. Replacing the
    quality grade of a product by its form without the white space around
    it, that of Unicode as [str.strip] removes it, and with its ASCII letters
    lower-cased, and its origin by its form with ASCII letters lower-cased,
    changes neither of the two fair prices nor the buyer's target zone: the
    strategies are insensitive to the case of ASCII letters in both and to
    white space around the grade. *)
Theorem normalisation_invariance (p : Product) :
  YourBuyerAgent.calculate_fair_price (normalised p)
    = YourBuyerAgent.calculate_fair_price p /\
  YourBuyerAgent.target_zone (normalised p) = YourBuyerAgent.target_zone p /\
  YourSellerAgent.fair_price (normalised p) = YourSellerAgent.fair_price p.
Proof.
  assert (Hq : YourBuyerAgent._quality_multiplier (normalised p)
               = YourBuyerAgent._quality_multiplier p).
  { unfold YourBuyerAgent._quality_multiplier, normalised.
    cbn [quality_grade]. rewrite StrFacts.normal_form_idem. reflexivity. }
  assert (Hs : YourSellerAgent._quality_multiplier (normalised p)
               = YourSellerAgent._quality_multiplier p).
  { unfold YourSellerAgent._quality_multiplier, normalised.
    cbn [quality_grade]. rewrite StrFacts.normal_form_idem. reflexivity. }
  assert (Ho : YourBuyerAgent.origin_factor (normalised p)
               = YourBuyerAgent.origin_factor p).
  { unfold YourBuyerAgent.origin_factor, normalised. cbn [origin].
    rewrite StrFacts.lower_idem. reflexivity. }
  assert (Hf : YourBuyerAgent.calculate_fair_price (normalised p)
               = YourBuyerAgent.calculate_fair_price p).
  { unfold YourBuyerAgent.calculate_fair_price. rewrite Hq, Ho.
    reflexivity. }
  split; [exact Hf|]. split.
  - unfold YourBuyerAgent.target_zone. rewrite Hf. reflexivity.
  - unfold YourSellerAgent.fair_price. rewrite Hs, Ho. reflexivity.
Qed.

(** ** The reference agent, [ExampleSimpleAgent] *)

(** X18, budget invariant of the reference agent. Every price that
    [ExampleSimpleAgent] returns is at most the budget: its opening offer
    min(int(0.6 base), budget), and the price of every response; a response
    is ACCEPTED or ONGOING, and an ACCEPTED one returns the seller's
    price. *)
Theorem example_agent_budget (context : NegotiationContext) :
  (forall offer msg,
      ExampleSimpleAgent.generate_opening_offer context = Some (offer, msg) ->
      offer <= your_budget context /\
      exists opening,
        Py.int_scaled (base_market_price (product context)) Py.f0_6
          = Some opening /\
        offer = Z.min opening (your_budget context)) /\
  (forall seller_price seller_message status price msg,
      ExampleSimpleAgent.respond_to_seller_offer context seller_price
                                                 seller_message
        = Some (status, price, msg) ->
      price <= your_budget context /\
      (status = ACCEPTED /\ price = seller_price \/ status = ONGOING)).
Proof.
  split.
  - intros offer msg H. unfold ExampleSimpleAgent.generate_opening_offer in H.
    apply bind_Some in H as (opening & Ho & H). injection H as <- _.
    split; [lia|]. exists opening. auto.
  - intros sp sm st price msg H.
    apply ExampleFacts.example_respond_inv in H
      as [(-> & -> & Hb & _) | [(-> & ->) | (-> & Hb & _)]].
    + split; [lia | left; auto].
    + split; [lia | right; auto].
    + split; [lia | right; auto].
Qed.

Lemma example_agent_budget_witness : 108000 <= 162000.
Proof.
  apply (proj1 (example_agent_budget
                  (context_at alphonso 162000 1 [270000] []))
           108000
           (MsgText "I'm interested, but ₹108000 is what I can offer. Let me think about that...")).
  vm_compute. reflexivity.
Defined.

(** X19, the reference agent stays below the ask. Whenever
    [ExampleSimpleAgent.respond_to_seller_offer] returns ONGOING for a
    seller's price that is not negative, its counter-offer is strictly below
    that price: it is either below 95% of it, or 1000 below it, or the
    budget when that is smaller. *)
Theorem example_agent_counter_below context seller_price seller_message
    price msg :
  0 <= seller_price ->
  ExampleSimpleAgent.respond_to_seller_offer context seller_price
                                             seller_message
    = Some (ONGOING, price, msg) ->
  price < seller_price.
Proof.
  intros Hs H.
  apply ExampleFacts.example_respond_inv in H
    as [(Hst & _) | [(_ & ->) | (_ & _ & near & Hn & Hge)]].
  - discriminate Hst.
  - lia.
  - unfold Py.f0_95 in Hn.
    apply ExampleFacts.scaled_value_le in Hn;
      [| exact Hs | lia | vm_compute; discriminate | vm_compute; discriminate].
    unfold Py.ge in Hge. cbn [Py.xv] in Hge.
    destruct (Z_lt_le_dec price seller_price) as [|Hle]; [assumption|].
    exfalso.
    assert (Ht : Py.xle (Py.xval_of_float near) (Py.XFin (inject_Z price))
                 = true).
    { eapply NumFacts.xle_trans; [exact Hn|]. cbn [Py.xle].
      apply Qle_bool_iff. rewrite <- Zle_Qle. exact Hle. }
    congruence.
Qed.

Lemma example_agent_counter_below_witness : 118800 < 200000.
Proof.
  apply (example_agent_counter_below
           (context_at alphonso 162000 2 [270000; 200000] [108000])
           200000 (MsgComeDown 200000) 118800
           (MsgText "I can go up to ₹118800, but that's pushing my budget."));
    [lia | vm_compute; reflexivity].
Defined.

(** ** The mock buyer of the seller tests, [MockBuyerForSeller] *)

(** X20, budget invariant of the mock buyer. Every price that
    [MockBuyerForSeller] returns is at most its budget: the opening offer
    min(int(0.80 base), budget), the seller's price when it accepts, which
    is then also at most int(0.95 base), and its counter-offer. *)
Theorem mock_buyer_budget (budget : Z) (p : Product) :
  (forall offer msg,
      MockBuyerForSeller.get_opening_offer budget p = Some (offer, msg) ->
      offer <= budget) /\
  (forall seller_price round_num price msg accepts,
      MockBuyerForSeller.respond_to_seller budget seller_price round_num p
        = Some (price, msg, accepts) ->
      price <= budget /\
      (accepts = true ->
       price = seller_price /\
       exists t95, Py.int_scaled (base_market_price p) Py.f0_95 = Some t95 /\
                   seller_price <= t95)).
Proof.
  split.
  - intros offer msg H. unfold MockBuyerForSeller.get_opening_offer in H.
    apply bind_Some in H as (opening & _ & H). injection H as <- _. lia.
  - intros sp r price msg acc H.
    unfold MockBuyerForSeller.respond_to_seller in H.
    apply bind_Some in H as (a & Ha & H). destruct a.
    + injection H as <- _ <-.
      destruct (sp <=? budget) eqn:Hb; [|discriminate].
      apply bind_Some in Ha as (t95 & Ht & Ha). injection Ha as Ha.
      apply Z.leb_le in Hb, Ha. split; [lia|]. intros _.
      split; [reflexivity|]. exists t95. auto.
    + do 6 (let v := fresh "v" in apply bind_Some in H as (v & _ & H)).
      injection H as <- _ <-. split; [lia | discriminate].
Qed.

Lemma mock_buyer_budget_witness : 216000 <= 216000.
Proof.
  apply (proj2 (mock_buyer_budget 216000 alphonso) 250000 1 216000
           (MsgText "I can move to ₹216,000. Can you meet me closer?") false).
  vm_compute. reflexivity.
Defined.

(** ** The seller strategy, [YourSellerAgent] *)

(** X21, the seller's acceptance threshold. For every seller agent and
    every product of non-negative base price, whenever
    [respond_to_buyer_offer] returns, it accepts exactly the offers of at
    least int(0.98 fair), at the offer itself: the zone test that comes
    first accepts nothing below that threshold, and an offer above the zone
    is accepted as well. Every other offer is answered "ongoing" with an ask
    strictly above the offer. (It returns from the zone test and with
    "ongoing" only on an agent whose [personality] is set.) *)
Theorem seller_acceptance_threshold self p buyer_offer round_num status
    price msg fair :
  0 <= base_market_price p ->
  YourSellerAgent.fair_price p = Some fair ->
  YourSellerAgent.respond_to_buyer_offer self p buyer_offer round_num
    = Some (status, price, msg) ->
  exists t98,
    Py.int_scaled fair Py.f0_98 = Some t98 /\ t98 <= fair /\
    (t98 <= buyer_offer /\ status = "accepted"%string /\ price = buyer_offer \/
     buyer_offer < t98 /\ status = "ongoing"%string /\ buyer_offer < price).
Proof.
  intros Hb Hf H.
  pose proof (SellerFacts.fair_nonneg p fair Hb Hf) as Hfair.
  pose proof H as H0. unfold YourSellerAgent.respond_to_buyer_offer in H.
  rewrite Hf in H. cbn [bind] in H.
  apply bind_Some in H as ([low high] & Hz & H).
  destruct (SellerThresholdFacts.threshold_98 p fair low high Hfair Hf Hz)
    as (t98 & H98 & Hr & Hlow & _).
  exists t98. split; [exact H98|]. split; [lia|].
  destruct ((low <=? buyer_offer) && (buyer_offer <=? high)) eqn:Hzone.
  - apply bind_Some in H as (phrase & _ & H). injection H as <- <- _. left.
    apply andb_prop in Hzone as [Hl _]. apply Z.leb_le in Hl.
    repeat split. lia.
  - rewrite H98 in H. cbn [bind] in H.
    destruct (t98 <=? buyer_offer) eqn:Ht.
    + injection H as <- <- _. left. apply Z.leb_le in Ht. auto.
    + apply Z.leb_gt in Ht. right. split; [exact Ht|].
      assert (Hst : status = "ongoing"%string).
      { do 6 (let v := fresh "v" in apply bind_Some in H as (v & _ & H)).
        injection H as <- _ _. reflexivity. }
      subst status. split; [reflexivity|].
      destruct (SellerFacts.respond_ongoing _ _ _ _ _ _ _ Hfair Hf H0)
        as (floor & _ & H1 & H2).
      lia.
Qed.

Lemma seller_acceptance_threshold_witness :
  exists t98, Py.int_scaled 269791 Py.f0_98 = Some t98 /\ t98 <= 269791.
Proof.
  destruct (seller_acceptance_threshold (YourSellerAgent.initialised "seller")
              (lot "A" "Colombia" 240000 200)
              200000 0 "ongoing"%string 294071
              (MsgSellerImprove 294071 "We can bridge this thoughtfully.")
              269791 ltac:(cbn; lia) ltac:(vm_compute; reflexivity)
              ltac:(vm_compute; reflexivity))
    as (t98 & H & Hle & _).
  exists t98. auto.
Defined.

(** X22, the seller's zone and opening. The lower bound of [seller_zone],
    int(fair * 1.00), is the fair price itself, for every product: the fair
    price is an integer that [round] has returned, and the conversion to a
    float and the multiplication by 1.00 are exact on it. For a product of
    non-negative base price the zone [fair, int(1.10 fair)] is not empty,
    and the opening price int(1.28 fair) that [generate_opening_price]
    returns, on an agent whose [personality] is set, is at least its upper
    bound. *)
Theorem seller_zone_order self p fair low high opening msg :
  YourSellerAgent.fair_price p = Some fair ->
  YourSellerAgent.seller_zone p = Some (low, high) ->
  YourSellerAgent.generate_opening_price self p = Some (opening, msg) ->
  low = fair /\
  (0 <= base_market_price p ->
   0 <= fair /\ fair <= high /\ high <= opening).
Proof.
  intros Hf Hz Ho.
  assert (Hlow : Py.int_scaled fair Py.f1_0 = Some fair).
  { unfold YourSellerAgent.fair_price in Hf.
    apply bind_Some in Hf as (x & _ & Hf).
    eapply ExactFacts.int_scaled_one; [|exact Hf].
    apply DefinedFacts.fmul_bounded. unfold Py.round in Hf.
    destruct (Py.is_finite _); [reflexivity | discriminate]. }
  pose proof Hz as Hz0.
  unfold YourSellerAgent.seller_zone in Hz. rewrite Hf in Hz.
  cbn [bind] in Hz. rewrite Hlow in Hz. cbn [bind] in Hz.
  apply bind_Some in Hz as (h & Hh & Hz). injection Hz as <- <-.
  split; [reflexivity|]. intros Hb.
  pose proof (SellerFacts.fair_nonneg p fair Hb Hf) as Hfair.
  destruct (SellerThresholdFacts.threshold_98 p fair fair h Hfair Hf Hz0)
    as (t98 & _ & Hr & _ & Hlh & Hfh).
  repeat split; try lia.
  unfold YourSellerAgent.generate_opening_price in Ho. rewrite Hf in Ho.
  cbn [bind] in Ho. apply bind_Some in Ho as (o & Ho' & Ho).
  apply bind_Some in Ho as (phrase & _ & Ho). injection Ho as <- _.
  eapply (LadderFacts.int_scaled_le_const fair);
    [exact Hfair | | | exact Hh | exact Ho']; vm_compute; discriminate.
Qed.

Lemma seller_zone_order_witness :
  269791 = 269791 /\ 0 <= 269791 /\ 269791 <= 296770 /\ 296770 <= 345332.
Proof.
  destruct (seller_zone_order (YourSellerAgent.initialised "seller")
              (lot "A" "Colombia" 240000 200) 269791 269791
              296770 345332
              (MsgSellerOpening "Let's align on value and quality." 345332)
              ltac:(vm_compute; reflexivity) ltac:(vm_compute; reflexivity)
              ltac:(vm_compute; reflexivity)) as [H1 H2].
  split; [exact H1 | apply H2; cbn; lia].
Defined.

(** X23, the seller agent as constructed. The base class sets [personality]
    in a method named [_init_], which no constructor call runs; on the agent
    that [YourSellerAgent()] returns, [generate_opening_price] raises for
    every product, and [respond_to_buyer_offer] returns only from its second
    accept, without a catch phrase: for an offer outside the zone that is at
    least int(0.98 fair). For every other offer it raises. *)
Theorem constructed_seller_raises (p : Product) :
  YourSellerAgent.generate_opening_price YourSellerAgent.constructed p = None /\
  forall buyer_offer round_num status price msg,
    YourSellerAgent.respond_to_buyer_offer YourSellerAgent.constructed p
      buyer_offer round_num = Some (status, price, msg) ->
    status = "accepted"%string /\ price = buyer_offer /\
    msg = MsgSellerReasonable /\
    exists fair low high t98,
      YourSellerAgent.fair_price p = Some fair /\
      YourSellerAgent.seller_zone p = Some (low, high) /\
      Py.int_scaled fair Py.f0_98 = Some t98 /\
      t98 <= buyer_offer /\ (buyer_offer < low \/ high < buyer_offer).
Proof.
  split.
  - unfold YourSellerAgent.generate_opening_price.
    destruct (YourSellerAgent.fair_price p) as [fair|]; [|reflexivity].
    cbn [bind]. destruct (Py.int_scaled fair Py.f1_28); reflexivity.
  - intros buyer_offer round_num status price msg H.
    unfold YourSellerAgent.respond_to_buyer_offer in H.
    apply bind_Some in H as (fair & Hf & H).
    apply bind_Some in H as ([low high] & Hz & H).
    destruct ((low <=? buyer_offer) && (buyer_offer <=? high)) eqn:Hzone;
      [discriminate H|].
    apply bind_Some in H as (t98 & H98 & H).
    destruct (t98 <=? buyer_offer) eqn:Ht.
    + injection H as <- <- <-. repeat split.
      exists fair, low, high, t98. repeat split; try assumption.
      * apply Z.leb_le. exact Ht.
      * apply andb_false_iff in Hzone as [Hl | Hh];
          [left; apply Z.leb_gt; exact Hl | right; apply Z.leb_gt; exact Hh].
    + exfalso.
      repeat match type of H with
             | bind ?x _ = Some _ =>
                 lazymatch x with
                 | YourSellerAgent.catchphrase _ _ => fail
                 | _ => destruct x; [cbn [bind] in H|discriminate H]
                 end
             end.
      discriminate H.
Qed.

Lemma constructed_seller_raises_witness :
  exists t98, Py.int_scaled 269791 Py.f0_98 = Some t98 /\ t98 <= 265000.
Proof.
  destruct (proj2 (constructed_seller_raises (lot "A" "Colombia" 240000 200))
              265000 0 "accepted"%string 265000 MsgSellerReasonable
              ltac:(vm_compute; reflexivity))
    as (_ & _ & _ & fair & low & high & t98 & Hf & _ & H98 & Hle & _).
  vm_compute in Hf. injection Hf as <-. exists t98. auto.
Defined.
